(** * Furniture survey pipeline: a shallow embedding of the cleaning and
      analysis scripts, and the properties of their specification.

    Conventions of the embedding.

    - A Python [str] is a Rocq [string]; a character is a code point below
      256, so [str.lower], [str.strip] and the regular expressions of the
      scripts are given on that range (Latin-1).
    - A number (a pandas [int64] or [float64] cell) is a rational [Q]; a
      missing value (NaN) is [None].  A mean is computed in float64, each
      operation rounding to the nearest float64.  Quantiles, and the
      rounding of a percentage to one decimal, are computed on exact
      quotients; a percentage is kept as an integer number of tenths, and
      what is stated of it holds whichever way a tie is rounded.
    - A table has unique column labels.
    - A pandas column carries its dtype: [ObjCol] (object: text),
      [NumCol] (int64 / float64) or [DtCol] (datetime64).
    - A [KeyError], [AttributeError] or [ValueError] raised by the script is
      the result [None] of the embedded function.
    - numpy's global random generator is the sequence of raw values it is
      going to yield next; a draw takes the head of that sequence. *)

From Stdlib Require Import List String Ascii ZArith QArith Qround Lia Lqa Bool Arith.
From Stdlib Require Import Sorted.
From Stdlib Require Qcanon.
Import ListNotations.

Local Open Scope string_scope.
Local Open Scope nat_scope.

(* ================================================================== *)
(** * Part I: definitions                                              *)
(* ================================================================== *)

(** ** Python strings *)

Module PyStr.

(** [str.isspace] on one character: the whitespace that [str.strip()]
    removes. *)
Definition isspace (c : ascii) : bool :=
  let n := nat_of_ascii c in
  ((9 <=? n) && (n <=? 13)) || ((28 <=? n) && (n <=? 32))
  || (n =? 133) || (n =? 160).

(** [str.lower] on one character. *)
Definition lower_char (c : ascii) : ascii :=
  let n := nat_of_ascii c in
  if (65 <=? n) && (n <=? 90) then ascii_of_nat (n + 32)
  else if (192 <=? n) && (n <=? 222) && negb (n =? 215)
       then ascii_of_nat (n + 32)
       else c.

Fixpoint smap (f : ascii -> ascii) (s : string) : string :=
  match s with
  | EmptyString => EmptyString
  | String c t => String (f c) (smap f t)
  end.

Definition lower (s : string) : string := smap lower_char s.

Fixpoint lstrip (s : string) : string :=
  match s with
  | EmptyString => EmptyString
  | String c t => if isspace c then lstrip t else s
  end.

Fixpoint rstrip (s : string) : string :=
  match s with
  | EmptyString => EmptyString
  | String c t =>
      match rstrip t with
      | EmptyString => if isspace c then EmptyString else String c EmptyString
      | t' => String c t'
      end
  end.

(** [s.strip()] *)
Definition strip (s : string) : string := rstrip (lstrip s).

(** [s.replace(old, new)] for a non-empty [old]: the occurrences of [old]
    are found from left to right and do not overlap.  [skip] counts the
    characters of the occurrence just replaced that are still to be
    passed over. *)
Fixpoint replace_from (old new : string) (skip : nat) (s : string) : string :=
  match s with
  | EmptyString => EmptyString
  | String c t =>
      match skip with
      | S k => replace_from old new k t
      | O =>
          if prefix old s
          then new ++ replace_from old new (length old - 1) t
          else String c (replace_from old new 0 t)
      end
  end.

Definition replace (old new s : string) : string :=
  match old with
  | EmptyString => s
  | _ => replace_from old new 0 s
  end.

(** [c in s] for a character. *)
Fixpoint has_char (c : ascii) (s : string) : bool :=
  match s with
  | EmptyString => false
  | String d t => Ascii.eqb c d || has_char c t
  end.

(** Every character of [s] satisfies [p]. *)
Fixpoint all_chars (p : ascii -> bool) (s : string) : bool :=
  match s with
  | EmptyString => true
  | String c t => p c && all_chars p t
  end.

(** [sub in s] *)
Fixpoint contains (sub s : string) : bool :=
  prefix sub s ||
  match s with
  | EmptyString => false
  | String _ t => contains sub t
  end.

(** [s.split(sep)] for a one-character separator. *)
Fixpoint split (sep : ascii) (s : string) : list string :=
  match s with
  | EmptyString => [EmptyString]
  | String c t =>
      if Ascii.eqb c sep then EmptyString :: split sep t
      else match split sep t with
           | [] => [String c EmptyString]
           | w :: ws => String c w :: ws
           end
  end.

End PyStr.

(** ** The option monad: a raised exception is [None] *)

Definition bind {A B : Type} (m : option A) (f : A -> option B) : option B :=
  match m with
  | Some a => f a
  | None => None
  end.

Notation "x <- m ;; k" := (bind m (fun x => k))
  (at level 61, m at next level, right associativity).

Definition default {A : Type} (d : A) (o : option A) : A :=
  match o with
  | Some a => a
  | None => d
  end.

Definition is_none {A : Type} (o : option A) : bool :=
  match o with
  | Some _ => false
  | None => true
  end.

(** ** Tables *)

Module Pandas.

(** A column (a pandas Series) with its dtype. *)
Inductive Column : Type :=
| ObjCol (cells : list (option string))
| NumCol (cells : list (option Q))
| DtCol (cells : list (option Z)).

(** A table: the row labels and the columns, in order. *)
Record DataFrame : Type := mkDataFrame {
  index : list nat;
  columns : list (string * Column)
}.

(** [len(df)] *)
Definition len (df : DataFrame) : nat := List.length (index df).

Definition col_len (c : Column) : nat :=
  match c with
  | ObjCol l => List.length l
  | NumCol l => List.length l
  | DtCol l => List.length l
  end.

Fixpoint lookup (name : string) (cols : list (string * Column))
  : option Column :=
  match cols with
  | [] => None
  | (n, c) :: rest => if String.eqb n name then Some c else lookup name rest
  end.

(** [df[name]]; a missing column raises [KeyError].  The table is taken
    to have unique column labels: for a label borne by several columns
    pandas returns a table, not a Series, which is not represented. *)
Definition get_col (name : string) (df : DataFrame) : option Column :=
  lookup name (columns df).

(** [name in df.columns] *)
Definition has_col (name : string) (df : DataFrame) : bool :=
  negb (is_none (get_col name df)).

Fixpoint update (name : string) (c : Column) (cols : list (string * Column))
  : list (string * Column) :=
  match cols with
  | [] => [(name, c)]
  | (n, c0) :: rest =>
      if String.eqb n name then (n, c) :: rest
      else (n, c0) :: update name c rest
  end.

(** [df[name] = c]: replaces the column in place, or appends it. *)
Definition set_col (name : string) (c : Column) (df : DataFrame) : DataFrame :=
  mkDataFrame (index df) (update name c (columns df)).

(** [df.rename(columns=mapping)] where the mapping sends each column [n]
    to [f n]. *)
Definition rename (f : string -> string) (df : DataFrame) : DataFrame :=
  mkDataFrame (index df) (map (fun nc => (f (fst nc), snd nc)) (columns df)).

(** Apply [f] to every column. *)
Definition map_cols (f : Column -> Column) (df : DataFrame) : DataFrame :=
  mkDataFrame (index df) (map (fun nc => (fst nc, f (snd nc))) (columns df)).

(** Keep the positions where the mask is [true]. *)
Fixpoint mask_filter {A : Type} (mask : list bool) (l : list A) : list A :=
  match mask, l with
  | b :: mask', x :: l' =>
      if b then x :: mask_filter mask' l' else mask_filter mask' l'
  | _, _ => []
  end.

Definition col_filter (mask : list bool) (c : Column) : Column :=
  match c with
  | ObjCol l => ObjCol (mask_filter mask l)
  | NumCol l => NumCol (mask_filter mask l)
  | DtCol l => DtCol (mask_filter mask l)
  end.

(** [df[mask]] for a boolean mask: the rows keep their labels. *)
Definition select_rows (mask : list bool) (df : DataFrame) : DataFrame :=
  mkDataFrame (mask_filter mask (index df))
              (map (fun nc => (fst nc, col_filter mask (snd nc))) (columns df)).

(** [df.reset_index(drop=True)] *)
Definition reset_index (df : DataFrame) : DataFrame :=
  mkDataFrame (seq 0 (List.length (index df))) (columns df).

(** [series.fillna('')] followed by the [.str] accessor: the texts of a
    column.  A column that is not of dtype object is turned into empty
    strings when every cell is missing; with a number in it the accessor
    raises. *)
Definition filled_texts (c : Column) : option (list string) :=
  match c with
  | ObjCol l => Some (map (default "") l)
  | NumCol l => if forallb is_none l then Some (map (fun _ => "") l) else None
  | DtCol l => if forallb is_none l then Some (map (fun _ => "") l) else None
  end.

(** [series.map(d)] for a dict [d] with string keys. *)
Fixpoint dict_get (d : list (string * Q)) (k : string) : option Q :=
  match d with
  | [] => None
  | (k', v) :: rest => if String.eqb k' k then Some v else dict_get rest k
  end.

Definition series_map (d : list (string * Q)) (c : Column) : Column :=
  match c with
  | ObjCol l => NumCol (map (fun cell => s <- cell ;; dict_get d s) l)
  | NumCol l => NumCol (map (fun _ => None) l)
  | DtCol l => NumCol (map (fun _ => None) l)
  end.

(** [pd.to_numeric(series, errors='coerce')], given the reading
    [str_to_float] of one string as a number ([None] when it is not one).
    A datetime column is read as its integer representation, the missing
    time being the least 64-bit integer. *)
Definition to_numeric (str_to_float : string -> option Q) (c : Column)
  : Column :=
  match c with
  | ObjCol l => NumCol (map (fun cell => s <- cell ;; str_to_float s) l)
  | NumCol l => NumCol l
  | DtCol l =>
      NumCol (map (fun cell => Some (inject_Z (default (- 2 ^ 63)%Z cell))) l)
  end.

End Pandas.

(** ** Column-name normalisation ([data_cleaning.py]) *)

Module Cleaner.
Import PyStr.

(** The expression bound to [new_col] in [_clean_column_names]. *)
Definition clean_column_name (col : string) : string :=
  replace " " "_"
    (replace "  " " "
      (replace "," ""
        (replace ")" ""
          (replace "(" ""
            (replace "]" ""
              (replace "[" ""
                (replace "/" "_"
                  (replace "?" ""
                    (lower (strip col)))))))))).

(** The normalisation as the specification words it: trim, lowercase,
    strip each of [? / [ ] ( ) ,], collapse double spaces, spaces to
    underscores. *)
Definition spec_normalize (col : string) : string :=
  replace " " "_"
    (replace "  " " "
      (replace "," ""
        (replace ")" ""
          (replace "(" ""
            (replace "]" ""
              (replace "[" ""
                (replace "/" ""
                  (replace "?" ""
                    (lower (strip col)))))))))).

(** The characters the specification says never occur in a key. *)
Definition stripped_chars : string := "?/[](),".

Definition tab : ascii := ascii_of_nat 9.

(** A character that is no whitespace, or is the ordinary space. *)
Definition plain_space_only (c : ascii) : bool :=
  negb (isspace c) || Ascii.eqb c " ".

(** What [.replace('/', '_')] does to one character. *)
Definition slash_to_underscore (c : ascii) : ascii :=
  if Ascii.eqb "/" c then "_"%char else c.

(** A character of a key that is already normalised: no whitespace and
    nothing to lowercase. *)
Definition settled (c : ascii) : bool :=
  negb (isspace c) && Ascii.eqb (lower_char c) c.

(** *** The mapping dictionaries of [FurnitureDataCleaner.__init__] *)

Definition age_map : list (string * Q) :=
  [ ("Under 18", 17%Q); ("18-24", 21%Q); ("25-34", (59 # 2)%Q);
    ("35-44", (79 # 2)%Q); ("45 and above", 55%Q) ].

Definition income_map : list (string * Q) :=
  [ ("Below BDT 25,000", 12500%Q); ("BDT 25,001-50,000", 37500%Q);
    ("BDT 50,001-100,000", 75000%Q); ("BDT 100,001-200,000", 150000%Q);
    ("Above 200,000", 250000%Q) ].

Record Question : Type := mkQuestion {
  q_column : string;
  q_prefix : string;
  q_choices : list string
}.

Definition multiple_choice_mapping : list Question :=
  [ mkQuestion "what_type_of_furniture_do_you_prefer" "furniture_type"
      [ "Modern"; "Traditional"; "Minimalist"; "Multipurpose"; "Eclectic" ];
    mkQuestion "which_room_do_you_prioritise_when_buying_furniture"
      "priority_room"
      [ "Living/ Drawing Room"; "Bedroom"; "Dining Room"; "Guest Room";
        "Kid's room"; "Kitchen" ];
    mkQuestion "why_do_you_usually_buy_furniture" "purchase_reason"
      [ "For home decoration"; "For Marriage or Family Changes";
        "When old furniture needs replacement";
        "Moving out and home shifting"; "Personal Preference";
        "Style & comfort" ] ].

(** *** Column names of the survey *)

Definition age_group_col : string := "what_is_your_age_group".
Definition income_range_col : string := "what_is_your_monthly_income_range".
Definition familiarity_col : string :=
  "how_familiar_are_you_with_the_isho_brand_rate_on_a_scale_of_1_to_5".
Definition recommend_col : string :=
  "would_you_recommend_isho_to_others_rank_on_a_scale_of_1_to_5".
Definition bought_col : string := "have_you_ever_bought_furniture".

(** *** [_clean_column_names] *)

Definition _clean_column_names (df : Pandas.DataFrame) : Pandas.DataFrame :=
  Pandas.rename clean_column_name df.

(** *** [_handle_multiple_choice_columns] *)

(** [col_name] of the inner loop. *)
Definition indicator_name (prefix choice : string) : string :=
  replace "/" "_" (replace " " "_" (prefix ++ "_" ++ lower choice)).

(** [.str.contains(re.escape(choice), case=False, regex=True)] on one
    text: the escaped pattern matches [choice] literally, letter case
    aside. *)
Definition str_contains_nocase (choice text : string) : bool :=
  contains (lower choice) (lower text).

(** [.astype(int)] of the match. *)
Definition indicator (choice text : string) : Z :=
  if str_contains_nocase choice text then 1%Z else 0%Z.

Definition indicator_column (choice : string) (texts : list string)
  : Pandas.Column :=
  Pandas.NumCol (map (fun t => Some (inject_Z (indicator choice t))) texts).

(** One turn of the inner loop: [df[col_name] = ...]. *)
Definition add_indicator (column prefix choice : string)
    (df : Pandas.DataFrame) : option Pandas.DataFrame :=
  c <- Pandas.get_col column df ;;
  texts <- Pandas.filled_texts c ;;
  Some (Pandas.set_col (indicator_name prefix choice)
                       (indicator_column choice texts) df).

Fixpoint add_indicators (column prefix : string) (choices : list string)
    (df : Pandas.DataFrame) : option Pandas.DataFrame :=
  match choices with
  | [] => Some df
  | choice :: rest =>
      df' <- add_indicator column prefix choice df ;;
      add_indicators column prefix rest df'
  end.

Fixpoint handle_questions (qs : list Question) (df : Pandas.DataFrame)
  : option Pandas.DataFrame :=
  match qs with
  | [] => Some df
  | q :: rest =>
      df' <- (if Pandas.has_col (q_column q) df
              then add_indicators (q_column q) (q_prefix q) (q_choices q) df
              else Some df) ;;
      handle_questions rest df'
  end.

Definition _handle_multiple_choice_columns (df : Pandas.DataFrame)
  : option Pandas.DataFrame :=
  handle_questions multiple_choice_mapping df.

(** *** [_clean_text_columns] *)

Fixpoint sfilter (p : ascii -> bool) (s : string) : string :=
  match s with
  | EmptyString => EmptyString
  | String c t => if p c then String c (sfilter p t) else sfilter p t
  end.

(** [.str.replace(r'[^\x00-\x7F]+', '', regex=True)] *)
Definition remove_non_ascii (s : string) : string :=
  sfilter (fun c => nat_of_ascii c <? 128) s.

(** [.astype(str)] on a cell of an object column: a missing value becomes
    the text [nan]. *)
Definition astype_str (cell : option string) : string := default "nan" cell.

Definition clean_text (cell : option string) : string :=
  strip (remove_non_ascii (astype_str cell)).

Definition clean_text_column (c : Pandas.Column) : Pandas.Column :=
  match c with
  | Pandas.ObjCol l => Pandas.ObjCol (map (fun cell => Some (clean_text cell)) l)
  | _ => c
  end.

Definition _clean_text_columns (df : Pandas.DataFrame) : Pandas.DataFrame :=
  Pandas.map_cols clean_text_column df.

(** *** [_handle_missing_values] *)

Definition fillna_column (c : Pandas.Column) : Pandas.Column :=
  match c with
  | Pandas.NumCol l => Pandas.NumCol (map (fun x => Some (default 0%Q x)) l)
  | Pandas.ObjCol l =>
      Pandas.ObjCol (map (fun x => Some (default "Not Specified" x)) l)
  | Pandas.DtCol l => Pandas.DtCol l
  end.

Definition _handle_missing_values (df : Pandas.DataFrame) : Pandas.DataFrame :=
  Pandas.map_cols fillna_column df.

(** *** [_filter_valid_responses] *)

(** [series.str.lower() == 'yes'] on one cell. *)
Definition is_yes (cell : option string) : bool :=
  match cell with
  | Some s => String.eqb (lower s) "yes"
  | None => false
  end.

Definition _filter_valid_responses (df : Pandas.DataFrame)
  : option Pandas.DataFrame :=
  c <- Pandas.get_col bought_col df ;;
  match c with
  | Pandas.ObjCol l =>
      Some (Pandas.reset_index (Pandas.select_rows (map is_yes l) df))
  | _ => None
  end.

(** *** The steps that read a library parser *)

Section WithParsers.

(** [pd.to_datetime] on a column; [None] when a value cannot be parsed. *)
Variable to_datetime : Pandas.Column -> option Pandas.Column.

(** The reading of one string as a number by [pd.to_numeric]. *)
Variable str_to_float : string -> option Q.

Definition _create_numeric_features (df : Pandas.DataFrame)
  : option Pandas.DataFrame :=
  age <- Pandas.get_col age_group_col df ;;
  let df := Pandas.set_col "age_numeric" (Pandas.series_map age_map age) df in
  income <- Pandas.get_col income_range_col df ;;
  let df :=
    Pandas.set_col "income_numeric" (Pandas.series_map income_map income) df in
  fam <- Pandas.get_col familiarity_col df ;;
  let df :=
    Pandas.set_col "isho_familiarity_score"
                   (Pandas.to_numeric str_to_float fam) df in
  rec <- Pandas.get_col recommend_col df ;;
  Some (Pandas.set_col "recommendation_score"
                       (Pandas.to_numeric str_to_float rec) df).

(** The table as it stands before the last step of [run_data_cleaning]. *)
Definition cleaned_unfiltered (df : Pandas.DataFrame)
  : option Pandas.DataFrame :=
  let df_clean := _clean_column_names df in
  ts <- Pandas.get_col "timestamp" df_clean ;;
  ts' <- to_datetime ts ;;
  let df_clean := Pandas.set_col "timestamp" ts' df_clean in
  df_clean <- _handle_multiple_choice_columns df_clean ;;
  df_clean <- _create_numeric_features df_clean ;;
  let df_clean := _clean_text_columns df_clean in
  Some (_handle_missing_values df_clean).

(** [run_data_cleaning]; the table it returns does not depend on
    [save_cleaned], which only writes the CSV file. *)
Definition run_data_cleaning (df : Pandas.DataFrame)
  : option Pandas.DataFrame :=
  df_clean <- cleaned_unfiltered df ;;
  _filter_valid_responses df_clean.

End WithParsers.

(** A reading of plain decimal literals: an optional sign, digits, and an
    optional fractional part. *)
Definition digit_value (c : ascii) : option Z :=
  let n := nat_of_ascii c in
  if (48 <=? n) && (n <=? 57) then Some (Z.of_nat (n - 48)) else None.

(** Digits read from the left: the value so far and the number of digits. *)
Fixpoint read_digits (s : string) (acc : Z) (n : nat) : option (Z * nat) :=
  match s with
  | EmptyString => Some (acc, n)
  | String c t =>
      d <- digit_value c ;;
      read_digits t (10 * acc + d)%Z (S n)
  end.

Fixpoint split_at_dot (s : string) : string * option string :=
  match s with
  | EmptyString => (EmptyString, None)
  | String c t =>
      if Ascii.eqb c "." then (EmptyString, Some t)
      else let (a, b) := split_at_dot t in (String c a, b)
  end.

Definition unsigned_literal (s : string) : option Q :=
  let (ip, fp) := split_at_dot s in
  match fp with
  | None =>
      match ip with
      | EmptyString => None
      | _ => r <- read_digits ip 0%Z 0 ;; Some (inject_Z (fst r))
      end
  | Some f =>
      match ip, f with
      | EmptyString, EmptyString => None
      | _, _ =>
          i <- read_digits ip 0%Z 0 ;;
          r <- read_digits f 0%Z 0 ;;
          Some (inject_Z (fst i)
                + inject_Z (fst r) / inject_Z (10 ^ Z.of_nat (snd r)))%Q
      end
  end.

(** The reading of a plain decimal literal, an optional sign, digits and
    an optional fraction.  It stands for [pd.to_numeric] on one string in
    the worked examples; the other spellings that pandas reads (blanks
    around the number, an exponent) are outside it. *)
Definition decimal_literal (s : string) : option Q :=
  match s with
  | String "-" t => q <- unsigned_literal t ;; Some (- q)%Q
  | String "+" t => unsigned_literal t
  | _ => unsigned_literal s
  end.

Fixpoint traverse {A B : Type} (f : A -> option B) (l : list A)
  : option (list B) :=
  match l with
  | [] => Some []
  | x :: rest => y <- f x ;; ys <- traverse f rest ;; Some (y :: ys)
  end.

(** [pd.to_datetime] on a column that holds datetimes already, which it
    returns as it is, or whole numbers, which it reads as nanoseconds
    since the epoch, a missing number giving a missing time.  It stands
    for [pd.to_datetime] in the worked examples; text columns and
    fractions are outside it. *)
Definition epoch_nanoseconds (c : Pandas.Column) : option Pandas.Column :=
  match c with
  | Pandas.DtCol l => Some c
  | Pandas.NumCol l =>
      l' <- traverse (fun cell : option Q =>
                        match cell with
                        | None => Some None
                        | Some q =>
                            if Pos.eqb (Qden (Qred q)) 1
                            then Some (Some (Qnum (Qred q)))
                            else None
                        end) l ;;
      Some (Pandas.DtCol l')
  | Pandas.ObjCol l => None
  end.

(** Every name of an indicator column, in the order of creation. *)
Definition indicator_names (qs : list Question) : list string :=
  flat_map (fun q => map (indicator_name (q_prefix q)) (q_choices q)) qs.

(** [name in names] *)
Definition name_in (name : string) (names : list string) : bool :=
  existsb (String.eqb name) names.

Fixpoint distinct (names : list string) : bool :=
  match names with
  | [] => true
  | n :: rest => negb (name_in n rest) && distinct rest
  end.

(** [df.columns.is_unique]: no two columns bear the same label. *)
Definition unique_labels (df : Pandas.DataFrame) : bool :=
  distinct (map fst (Pandas.columns df)).

Definition numeric_feature_names : list string :=
  [ "age_numeric"; "income_numeric"; "isho_familiarity_score";
    "recommendation_score" ].

(** *** Notions used to state the properties of the cleaner *)

(** [sub] occurs in [s]. *)
Definition substr (sub s : string) : Prop :=
  exists before after : string, s = before ++ sub ++ after.

(** The label occurs in the text as a substring, letter case aside. *)
Definition occurs_nocase (choice text : string) : Prop :=
  substr (lower choice) (lower text).

(** The response, split on commas, has an item that is the label, blanks
    around it and letter case aside. *)
Definition mentions (text choice : string) : bool :=
  existsb (fun item => String.eqb (lower (strip item)) (lower choice))
          (split "," text).

(** The number of known labels a response mentions. *)
Definition mentioned_count (choices : list string) (text : string) : nat :=
  List.length (filter (mentions text) choices).

(** The sum of the indicators of a row for one question. *)
Definition indicator_sum (choices : list string) (text : string) : Z :=
  fold_right Z.add 0%Z (map (fun choice => indicator choice text) choices).

(** The cells of a column read as numbers. *)
Definition numeric_cells (str_to_float : string -> option Q)
    (c : Pandas.Column) : list (option Q) :=
  match Pandas.to_numeric str_to_float c with
  | Pandas.NumCol l => l
  | _ => []
  end.

(** What [_handle_missing_values] leaves in a numeric cell. *)
Definition filled_score (x : option Q) : option Q := Some (default 0%Q x).

(** The score that cleaning derives from a text cell. *)
Definition score_of_text (str_to_float : string -> option Q)
    (cell : option string) : option Q :=
  filled_score (s <- cell ;; str_to_float s).

(** The rows that [_filter_valid_responses] keeps, given the raw cells of
    the purchase question. *)
Definition kept_rows (bought : list (option string)) : list bool :=
  map (fun cell => is_yes (Some (clean_text cell))) bought.

(** *** A small survey *)

Definition survey_example : Pandas.DataFrame :=
  Pandas.mkDataFrame [0; 1; 2; 3]
    [ ("Timestamp",
       Pandas.NumCol [Some 1700000000%Q; Some 1700000060%Q; Some 1700000120%Q;
                      Some 1700000180%Q]);
      ("What is your age group?",
       Pandas.ObjCol [Some "18-24"; Some "25-34"; None; Some "35-44"]);
      ("What is your monthly income range?",
       Pandas.ObjCol [Some "Below BDT 25,000"; None; None;
                      Some "Above 200,000"]);
      ("How familiar are you with the Isho brand? (Rate on a scale of 1 to 5)",
       Pandas.ObjCol [Some "3"; Some "abc"; Some "5"; Some "7"]);
      ("Would you recommend Isho to others? (Rank on a scale of 1 to 5)",
       Pandas.NumCol [Some 3%Q; None; Some 5%Q; Some 1%Q]);
      ("Have you ever bought furniture?",
       Pandas.ObjCol [Some "Yes"; Some "yes "; Some "No"; Some "YES"]);
      ("What type of furniture do you prefer?",
       Pandas.ObjCol [Some "Modern, Traditional"; None; Some "minimalist";
                      Some "Eclectic"]) ].

Definition survey_example_cleaned : Pandas.DataFrame :=
  Eval vm_compute in
    default (Pandas.mkDataFrame [] [])
            (run_data_cleaning epoch_nanoseconds decimal_literal survey_example).

Definition survey_example_renamed : Pandas.DataFrame :=
  Eval vm_compute in _clean_column_names survey_example.

End Cleaner.

(** ** Frequency breakdowns ([brand_analysis.py], [preference_analysis.py]) *)

Module Analysis.
Import PyStr.

(** A label of the index of a Series. *)
Inductive Label : Type :=
| LStr (s : string)
| LNum (q : Q)
| LTime (z : Z).

Definition label_eqb (a b : Label) : bool :=
  match a, b with
  | LStr s, LStr t => String.eqb s t
  | LNum p, LNum q => Qeq_bool p q
  | LTime x, LTime y => Z.eqb x y
  | _, _ => false
  end.

Definition label_leb (a b : Label) : bool :=
  match a, b with
  | LStr s, LStr t => String.leb s t
  | LNum p, LNum q => Qle_bool p q
  | LTime x, LTime y => Z.leb x y
  | LNum _, _ => true
  | LTime _, LStr _ => true
  | _, _ => false
  end.

(** A Series of counts, or of percentages given in tenths of a percent. *)
Definition Series : Type := list (Label * Z).

(** The sum of the values of a Series. *)
Definition total (s : Series) : Z := fold_right Z.add 0%Z (map snd s).

(** The labels of the cells that are not missing. *)
Definition present {A : Type} (l : list (option A)) : list A :=
  flat_map (fun cell => match cell with Some a => [a] | None => [] end) l.

Definition labels (c : Pandas.Column) : list Label :=
  match c with
  | Pandas.ObjCol l => map LStr (present l)
  | Pandas.NumCol l => map LNum (present l)
  | Pandas.DtCol l => map LTime (present l)
  end.

(** One more occurrence of [x]. *)
Fixpoint tally (x : Label) (acc : Series) : Series :=
  match acc with
  | [] => [(x, 1%Z)]
  | (y, n) :: rest =>
      if label_eqb x y then (y, (n + 1)%Z) :: rest
      else (y, n) :: tally x rest
  end.

Definition count_values (ls : list Label) : Series :=
  fold_left (fun acc x => tally x acc) ls [].

(** [sort_values(ascending=False)].  Equal values keep their order here;
    pandas promises none among them, and no property stated below depends
    on it. *)
Fixpoint insert_desc (e : Label * Z) (s : Series) : Series :=
  match s with
  | [] => [e]
  | h :: rest =>
      if (snd h <=? snd e)%Z then e :: h :: rest
      else h :: insert_desc e rest
  end.

Definition sort_values_desc (s : Series) : Series :=
  fold_right insert_desc [] s.

(** [sort_index()] *)
Fixpoint insert_label (e : Label * Z) (s : Series) : Series :=
  match s with
  | [] => [e]
  | h :: rest =>
      if label_leb (fst e) (fst h) then e :: h :: rest
      else h :: insert_label e rest
  end.

Definition sort_index (s : Series) : Series := fold_right insert_label [] s.

(** [series.value_counts()]: missing values are dropped, the most frequent
    value comes first. *)
Definition value_counts (c : Pandas.Column) : Series :=
  sort_values_desc (count_values (labels c)).

(** [series == value] for a text value. *)
Definition eq_mask (value : string) (c : Pandas.Column) : list bool :=
  match c with
  | Pandas.ObjCol l =>
      map (fun cell => match cell with
                       | Some s => String.eqb s value
                       | None => false
                       end) l
  | Pandas.NumCol l => map (fun _ => false) l
  | Pandas.DtCol l => map (fun _ => false) l
  end.

(** *** [series.str.get_dummies(sep=',').sum()] *)

(** The items of one response. *)
Definition items (cell : option string) : list string :=
  match cell with
  | Some s => split "," s
  | None => []
  end.

(** Sorted insertion without repetition. *)
Fixpoint insert_tag (t : string) (tags : list string) : list string :=
  match tags with
  | [] => [t]
  | h :: rest =>
      if String.eqb t h then tags
      else if String.ltb t h then t :: tags
      else h :: insert_tag t rest
  end.

(** The columns of the dummies table: the distinct non-empty items, sorted. *)
Definition tags (cells : list (option string)) : list string :=
  fold_right insert_tag []
    (filter (fun t => negb (String.eqb t "")) (flat_map items cells)).

(** One cell of the dummies table. *)
Definition dummy (tag : string) (cell : option string) : Z :=
  if existsb (String.eqb tag) (items cell) then 1%Z else 0%Z.

(** The column sums of the dummies table; the [.str] accessor raises on a
    column that is not text. *)
Definition get_dummies_sum (c : Pandas.Column) : option Series :=
  match c with
  | Pandas.ObjCol cells =>
      Some (map (fun tag =>
                   (LStr tag,
                    fold_right Z.add 0%Z (map (dummy tag) cells)))
                (tags cells))
  | _ => None
  end.

(** *** Percentages *)

(** [a / b] rounded to the nearest integer, a tie going to the even one. *)
Definition round_half_even (a b : Z) : Z :=
  let q := (a / b)%Z in
  let r := (a mod b)%Z in
  if (2 * r <? b)%Z then q
  else if (b <? 2 * r)%Z then (q + 1)%Z
  else if Z.even q then q else (q + 1)%Z.

(** [(count / n * 100).round(1)], in tenths of a percent. *)
Definition pct (n : nat) (count : Z) : Z :=
  round_half_even (1000 * count) (Z.of_nat n).

Definition pct_series (n : nat) (s : Series) : Series :=
  map (fun e => (fst e, pct n (snd e))) s.

(** The pair of Series every analyzer returns for a breakdown. *)
Record Breakdown : Type := mkBreakdown {
  counts : Series;
  percentages : Series
}.

(** *** [PreferenceAnalyzer] *)

Definition furniture_type_col : string := "what_type_of_furniture_do_you_prefer".

Definition analyze_furniture_types (df : Pandas.DataFrame) : option Breakdown :=
  c <- Pandas.get_col furniture_type_col df ;;
  furniture_types <- get_dummies_sum c ;;
  let type_preferences := sort_values_desc furniture_types in
  let type_percentages := pct_series (Pandas.len df) type_preferences in
  Some (mkBreakdown type_preferences type_percentages).

(** *** [BrandAnalyzer] *)

Definition isho_familiar_col : string :=
  "how_familiar_are_you_with_the_isho_brand_rate_on_a_scale_of_1_to_5".
Definition isho_feedback_col : string :=
  "have_you_heard_any_specific_feedback_or_reviews_about_isho_from_friends_or_family".
Definition isho_bought_col : string :=
  "have_you_ever_bought_any_furniture_from_isho".
Definition isho_words_col : string :=
  "when_you_think_of_isho_which_of_the_following_words_or_phrases_come_to_mind".
Definition isho_factors_col : string :=
  "what_factors_do_you_consider_most_important_when_evaluating_isho_as_a_furniture_brand".
Definition isho_compared_col : string :=
  "what_is_your_perception_of_isho_compared_to_other_brands".
Definition isho_recommend_col : string :=
  "would_you_recommend_isho_to_others_rank_on_a_scale_of_1_to_5".
Definition isho_reason_col : string :=
  "what_is_the_primary_reason_you_didn't_buy_anything_from_isho".

(** [self.df[self.df[by] == value][name]] *)
Definition subgroup (by_col value name : string) (df : Pandas.DataFrame)
  : option Pandas.Column :=
  b <- Pandas.get_col by_col df ;;
  c <- Pandas.get_col name (Pandas.select_rows (eq_mask value b) df) ;;
  Some c.

Definition get_brand_awareness (df : Pandas.DataFrame)
  : option (list (string * Breakdown)) :=
  fam <- Pandas.get_col isho_familiar_col df ;;
  let familiarity := sort_index (value_counts fam) in
  fb <- Pandas.get_col isho_feedback_col df ;;
  let feedback := value_counts fb in
  pu <- Pandas.get_col isho_bought_col df ;;
  let purchase := value_counts pu in
  Some [ ("familiarity",
          mkBreakdown familiarity (pct_series (Pandas.len df) familiarity));
         ("feedback",
          mkBreakdown feedback (pct_series (Pandas.len df) feedback));
         ("purchase",
          mkBreakdown purchase (pct_series (Pandas.len df) purchase)) ].

Definition get_brand_perceptions (df : Pandas.DataFrame)
  : option (list (string * Breakdown)) :=
  ba <- subgroup isho_bought_col "Yes" isho_words_col df ;;
  let buyers_associations := value_counts ba in
  nba <- subgroup isho_bought_col "No" isho_words_col df ;;
  let non_buyers_associations := value_counts nba in
  fc <- subgroup isho_bought_col "Yes" isho_factors_col df ;;
  factors <- get_dummies_sum fc ;;
  cmp <- subgroup isho_bought_col "Yes" isho_compared_col df ;;
  let comparison := value_counts cmp in
  ncmp <- subgroup isho_bought_col "No" isho_compared_col df ;;
  let non_buyer_comparison := value_counts ncmp in
  rc <- Pandas.get_col isho_recommend_col df ;;
  let recommendation := sort_index (value_counts rc) in
  let n := Pandas.len df in
  Some [ ("buyers_associations",
          mkBreakdown buyers_associations (pct_series n buyers_associations));
         ("non_buyers_associations",
          mkBreakdown non_buyers_associations
                      (pct_series n non_buyers_associations));
         ("factors", mkBreakdown factors (pct_series n factors));
         ("buyer_comparison", mkBreakdown comparison (pct_series n comparison));
         ("non_buyer_comparison",
          mkBreakdown non_buyer_comparison (pct_series n non_buyer_comparison));
         ("recommendation",
          mkBreakdown recommendation (pct_series n recommendation)) ].

Definition analyze_non_purchase_reasons (df : Pandas.DataFrame)
  : option Breakdown :=
  c <- Pandas.get_col isho_reason_col df ;;
  let reasons := value_counts c in
  Some (mkBreakdown reasons (pct_series (Pandas.len df) reasons)).

(** *** Notions used to state the properties of the breakdowns *)

(** Every column has one cell per row. *)
Definition aligned (df : Pandas.DataFrame) : Prop :=
  forall name c, Pandas.get_col name df = Some c ->
                 Pandas.col_len c = Pandas.len df.

(** Every value of a percentage Series lies between 0.0 and 100.0. *)
Definition within_100 (s : Series) : Prop :=
  Forall (fun e => (0 <= snd e <= 1000)%Z) s.

(** The Series [ps] gives, label for label, the share that each count of
    [cs] has in [n], in percent with one decimal: a tenth of a percent
    nearest to [100 * count / n], whichever way a tie falls. *)
Definition shares_of (n : nat) (cs ps : Series) : Prop :=
  Forall2 (fun c p =>
             fst p = fst c
             /\ (- Z.of_nat n
                 <= 2 * (snd p * Z.of_nat n) - 2000 * snd c
                 <= Z.of_nat n)%Z)
          cs ps.

(** No cell of the column is missing. *)
Definition no_missing (c : Pandas.Column) : Prop :=
  List.length (labels c) = Pandas.col_len c.

(** A Series that counts the members of a list of [m] labels, each label
    once: its values are at least 1 and sum to [m]. *)
Definition tallies (m : nat) (s : Series) : Prop :=
  total s = Z.of_nat m /\ Forall (fun e => (1 <= snd e)%Z) s.

(** *** Small tables *)

Definition one_row_two_types : Pandas.DataFrame :=
  Pandas.mkDataFrame [0]
    [ (furniture_type_col, Pandas.ObjCol [Some "Modern,Traditional"]) ].

Definition six_answers : Pandas.Column :=
  Pandas.ObjCol [Some "a"; Some "b"; Some "c"; Some "d"; Some "e"; Some "f"].

Definition three_answers : Pandas.Column :=
  Pandas.ObjCol [Some "a"; Some "b"; Some "c"].

Definition brand_example : Pandas.DataFrame :=
  Pandas.mkDataFrame [0; 1; 2; 3]
    [ (isho_familiar_col,
       Pandas.NumCol [Some 3%Q; Some 1%Q; Some 3%Q; Some 5%Q]);
      (isho_feedback_col,
       Pandas.ObjCol [Some "Yes"; Some "No"; Some "No"; Some "No"]);
      (isho_bought_col,
       Pandas.ObjCol [Some "Yes"; Some "No"; Some "No"; Some "No"]);
      (isho_words_col,
       Pandas.ObjCol [Some "Stylish"; Some "Expensive"; Some "Stylish";
                      Some "Not Specified"]);
      (isho_factors_col,
       Pandas.ObjCol [Some "Design,Price"; Some "Price"; Some "Quality";
                      Some "Design"]);
      (isho_compared_col,
       Pandas.ObjCol [Some "Better"; Some "Same"; Some "Same"; Some "Worse"]);
      (isho_recommend_col,
       Pandas.NumCol [Some 5%Q; Some 2%Q; Some 3%Q; Some 3%Q]);
      (isho_reason_col,
       Pandas.ObjCol [Some "Not Specified"; Some "Price"; Some "Price";
                      Some "No store nearby"]);
      (furniture_type_col,
       Pandas.ObjCol [Some "Modern,Traditional"; Some "Modern"; None;
                      Some "Eclectic"]) ].

End Analysis.

(** ** Significant correlations ([statistical_analysis.py]) *)

Module Statistical.

Definition numeric_cols : list string :=
  [ "age_numeric"; "income_numeric"; "isho_familiarity_score";
    "recommendation_score" ].

(** A square table of numbers with labelled rows and columns; [None] is
    NaN. *)
Definition Matrix : Type := list (string * list (string * option Q)).

Definition matrix_index (m : Matrix) : list string := map fst m.

Definition matrix_columns (m : Matrix) : list string :=
  match m with
  | [] => []
  | (_, row) :: _ => map fst row
  end.

Fixpoint assoc {A : Type} (k : string) (l : list (string * A)) : option A :=
  match l with
  | [] => None
  | (k', v) :: rest => if String.eqb k' k then Some v else assoc k rest
  end.

(** [m.loc[i, j]] *)
Definition loc (m : Matrix) (i j : string) : option Q :=
  row <- assoc i m ;; v <- assoc j row ;; v.

(** [x < 0.05]; a comparison with NaN is false. *)
Definition below_005 (x : option Q) : bool :=
  match x with
  | Some p => negb (Qle_bool (5 # 100) p)
  | None => false
  end.

(** [series.fillna(0)] *)
Definition fillna0 (l : list (option Q)) : list Q := map (default 0%Q) l.

(** [self.df[name]] as a column of numbers. *)
Definition numeric_column (df : Pandas.DataFrame) (name : string)
  : option (list (option Q)) :=
  c <- Pandas.get_col name df ;;
  match c with
  | Pandas.NumCol l => Some l
  | _ => None
  end.

Record Correlations : Type := mkCorrelations {
  correlation_matrix : Matrix;
  p_values : Matrix
}.

Section WithScipy.

(** The coefficient that [DataFrame.corr] computes for two columns. *)
Variable corr : list (option Q) -> list (option Q) -> option Q.

(** The p-value [stats.pearsonr(x, y)[1]].  Where [pearsonr] raises, on
    fewer than two rows, the method returns nothing; what follows is
    about the tables on which it returns. *)
Variable pearsonr_p : list Q -> list Q -> option Q.

Definition analyze_correlations (df : Pandas.DataFrame) : option Correlations :=
  cols <- Cleaner.traverse
            (fun name => l <- numeric_column df name ;; Some (name, l))
            numeric_cols ;;
  let corr_matrix :=
    map (fun ix => (fst ix,
                    map (fun jy => (fst jy, corr (snd ix) (snd jy))) cols))
        cols in
  let p_values :=
    map (fun ix =>
           (fst ix,
            map (fun jy =>
                   (fst jy,
                    if negb (String.eqb (fst ix) (fst jy))
                    then pearsonr_p (fillna0 (snd ix)) (fillna0 (snd jy))
                    else Some 1%Q))
                cols))
        cols in
  Some (mkCorrelations corr_matrix p_values).

End WithScipy.

(** One line of the list of significant correlations: the two names, the
    coefficient and the p-value. *)
Definition Line : Type := (string * string * option Q * option Q)%type.

(** The lines that [print_statistical_summary] prints under
    "Significant Correlations". *)
Definition significant_lines (results : Correlations) : list Line :=
  let corr_matrix := correlation_matrix results in
  let p_values := p_values results in
  flat_map
    (fun i =>
       flat_map
         (fun j =>
            if String.ltb i j && below_005 (loc p_values i j)
            then [(i, j, loc corr_matrix i j, loc p_values i j)]
            else [])
         (matrix_columns corr_matrix))
    (matrix_index corr_matrix).

(** The pairs [(i, j)] of a double loop that pass a test. *)
Definition pairs_if (c : string -> string -> bool) (idx cols : list string)
  : list (string * string) :=
  flat_map (fun i => flat_map (fun j => if c i j then [(i, j)] else []) cols)
           idx.

(** The pairs of names that are reported. *)
Definition reported (results : Correlations) : list (string * string) :=
  map (fun line : Line => (fst (fst (fst line)), snd (fst (fst line))))
      (significant_lines results).

(** A table of the four numeric features, and stand-ins for the two
    statistics in the worked example: the p-value is small exactly when
    the two columns are equal. *)
Definition features_example : Pandas.DataFrame :=
  Pandas.mkDataFrame [0; 1; 2]
    [ ("age_numeric", Pandas.NumCol [Some 21%Q; Some 55%Q; None]);
      ("income_numeric", Pandas.NumCol [Some 12500%Q; Some 75000%Q; Some 0%Q]);
      ("isho_familiarity_score", Pandas.NumCol [Some 3%Q; Some 5%Q; Some 1%Q]);
      ("recommendation_score", Pandas.NumCol [Some 3%Q; Some 5%Q; Some 1%Q]) ].

Definition same_columns_p (x y : list Q) : option Q :=
  if forallb (fun ab => Qeq_bool (fst ab) (snd ab)) (combine x y)
  then Some (1 # 1000)%Q else Some (1 # 2)%Q.

Definition no_corr (x y : list (option Q)) : option Q := None.

End Statistical.

(** ** Bootstrap ([advanced_analysis.py]) *)

Module Advanced.

(** The state of numpy's global generator: the raw values it yields from
    now on. *)
Definition RandomState : Type := nat -> nat.

(** One draw of an index below [high]: the raw value reduced modulo
    [high], which is how numpy masks a raw value when [high] is a power of
    two.  For another [high] numpy rejects and redraws, so that the number
    of raw values a draw consumes is not the one given here. *)
Definition randint (high : nat) (g : RandomState) : nat * RandomState :=
  (g 0 mod high, fun i => g (S i)).

Fixpoint choice_indices (high size : nat) (g : RandomState)
  : list nat * RandomState :=
  match size with
  | O => ([], g)
  | S k =>
      let (i, g1) := randint high g in
      let (rest, g2) := choice_indices high k g1 in
      (i :: rest, g2)
  end.

(** [np.random.choice(a, size=size, replace=True)] *)
Definition choice (a : list Q) (size : nat) (g : RandomState)
  : list Q * RandomState :=
  let (idx, g') := choice_indices (List.length a) size g in
  (map (fun i => nth i a 0%Q) idx, g').

(** *** Binary64 arithmetic

    The numbers of a column are float64 values, and an operation on them
    rounds its exact result to the nearest float64.  The rounding is given
    for magnitudes in the normal range; infinities and subnormal numbers
    are left out. *)

(** [m * 2 ^ k] as a rational. *)
Definition scale2 (m k : Z) : Q :=
  if (0 <=? k)%Z then inject_Z (m * 2 ^ k) else m # Z.to_pos (2 ^ (- k)).

(** [a / d * 2 ^ k] rounded to the nearest integer, a tie going to the
    even one. *)
Definition round_scaled (a d k : Z) : Z :=
  if (0 <=? k)%Z then Analysis.round_half_even (a * 2 ^ k) d
  else Analysis.round_half_even a (d * 2 ^ (- k)).

(** The binary exponent [e] of [a / d]: [2 ^ e <= a / d < 2 ^ (e + 1)]. *)
Definition binary_exponent (a d : Z) : Z :=
  let e0 := (Z.log2 a - Z.log2 d)%Z in
  if (if (0 <=? e0)%Z then (d * 2 ^ e0 <=? a)%Z else (d <=? a * 2 ^ (- e0))%Z)
  then e0 else (e0 - 1)%Z.

(** The float64 nearest to [x], a tie going to the even significand of 53
    bits. *)
Definition round_double (x : Q) : Q :=
  let q := Qred x in
  let n := Qnum q in
  let d := Zpos (Qden q) in
  if (n =? 0)%Z then 0%Q
  else
    let a := Z.abs n in
    let k := (52 - binary_exponent a d)%Z in
    Qred (scale2 (Z.sgn n * round_scaled a d k) (- k)).

Definition fadd (x y : Q) : Q := round_double (x + y).

Definition fdiv (x y : Q) : Q := round_double (x / y).

(** The sum of an array, added from left to right as numpy and pandas add
    fewer than eight values; the blocks in which they add a longer array
    are not followed. *)
Definition fsum (l : list Q) : Q := fold_left fadd l 0%Q.

(** The mean, [sum / count] in float64; NaN for an empty sample. *)
Definition mean (l : list Q) : option Q :=
  match l with
  | [] => None
  | _ => Some (fdiv (fsum l) (inject_Z (Z.of_nat (List.length l))))
  end.

Fixpoint insert_sorted (x : Q) (l : list Q) : list Q :=
  match l with
  | [] => [x]
  | h :: rest => if Qle_bool x h then x :: l else h :: insert_sorted x rest
  end.

Definition sort (l : list Q) : list Q := fold_right insert_sorted [] l.

(** [np.percentile(values, q)] with linear interpolation; NaN when a value
    is NaN or when there is no value. *)
Definition percentile (values : list (option Q)) (q : Q) : option Q :=
  if existsb is_none values then None
  else
    match Analysis.present values with
    | [] => None
    | v :: vs =>
        let sorted := sort (v :: vs) in
        let last := List.length vs in
        let position := (inject_Z (Z.of_nat last) * q / 100)%Q in
        let below := Z.to_nat (Qfloor position) in
        let fraction := (position - inject_Z (Qfloor position))%Q in
        let lo := nth (Nat.min below last) sorted 0%Q in
        let hi := nth (Nat.min (S below) last) sorted 0%Q in
        Some (lo + (hi - lo) * fraction)%Q
    end.

(** [SimpleImputer(strategy='mean')] on one column; it raises on a column
    with no value to take the mean of. *)
Definition impute_mean (l : list (option Q)) : option (list (option Q)) :=
  m <- mean (Analysis.present l) ;;
  Some (map (fun cell => Some (default m cell)) l).

Definition num_cols : list string :=
  [ "age_numeric"; "income_numeric"; "isho_familiarity_score";
    "recommendation_score" ].

Fixpoint impute_columns (names : list string) (df : Pandas.DataFrame)
  : option Pandas.DataFrame :=
  match names with
  | [] => Some df
  | name :: rest =>
      l <- Statistical.numeric_column df name ;;
      filled <- impute_mean l ;;
      impute_columns rest (Pandas.set_col name (Pandas.NumCol filled) df)
  end.

Definition handle_missing_data (df : Pandas.DataFrame)
  : option Pandas.DataFrame :=
  impute_columns num_cols df.

Record AdvancedAnalyzer : Type := mkAdvancedAnalyzer {
  df : Pandas.DataFrame;
  df_clean : Pandas.DataFrame
}.

(** [AdvancedAnalyzer.__init__] *)
Definition init (table : Pandas.DataFrame) : option AdvancedAnalyzer :=
  clean <- handle_missing_data table ;;
  Some (mkAdvancedAnalyzer table clean).

Record Bootstrap : Type := mkBootstrap {
  original_mean : option Q;
  bootstrap_means : list (option Q);
  ci_lower : option Q;
  ci_upper : option Q
}.

(** The loop of [perform_bootstrap_analysis]. *)
Fixpoint resample_means (rec_scores : list Q) (n_iterations : nat)
    (g : RandomState) : list (option Q) * RandomState :=
  match n_iterations with
  | O => ([], g)
  | S k =>
      let (sample, g1) := choice rec_scores (List.length rec_scores) g in
      let (rest, g2) := resample_means rec_scores k g1 in
      (mean sample :: rest, g2)
  end.

(** [np.percentile(a, q)] on a list: it raises [IndexError] on an empty
    one. *)
Definition np_percentile (values : list (option Q)) (q : Q)
  : option (option Q) :=
  match values with
  | [] => None
  | _ => Some (percentile values q)
  end.

(** [perform_bootstrap_analysis]: the entry [recommendation_bootstrap] of
    its result, and the generator state it leaves.  The histogram that
    the method draws and saves before it returns is left out: the result
    given here is the one the method returns when the drawing goes
    through. *)
Definition perform_bootstrap_analysis (self : AdvancedAnalyzer)
    (n_iterations : nat) (g : RandomState)
  : option (Bootstrap * RandomState) :=
  l <- Statistical.numeric_column (df_clean self) "recommendation_score" ;;
  let rec_scores := Analysis.present l in
  let original_mean := mean rec_scores in
  let (bootstrap_means, g') := resample_means rec_scores n_iterations g in
  ci_lower <- np_percentile bootstrap_means (25 # 10) ;;
  ci_upper <- np_percentile bootstrap_means (975 # 10) ;;
  Some (mkBootstrap original_mean bootstrap_means ci_lower ci_upper, g').

(** Equality of two results as numbers. *)
Definition same_number (x y : option Q) : Prop :=
  match x, y with
  | Some a, Some b => (a == b)%Q
  | None, None => True
  | _, _ => False
  end.

(** A table whose four numeric features are given, the other three being
    constant. *)
Definition features_table (scores : list (option Q)) : Pandas.DataFrame :=
  Pandas.mkDataFrame (seq 0 (List.length scores))
    [ ("age_numeric", Pandas.NumCol (map (fun _ => Some 21%Q) scores));
      ("income_numeric", Pandas.NumCol (map (fun _ => Some 12500%Q) scores));
      ("isho_familiarity_score",
       Pandas.NumCol (map (fun _ => Some 3%Q) scores));
      ("recommendation_score", Pandas.NumCol scores) ].

(** A generator state whose first 2000 raw values are 0 and whose next
    2000 are 1, and so on. *)
Definition slow_counter : RandomState := fun i => i / 2000.

(** Two invocations of [perform_bootstrap_analysis], one after the other:
    the second finds the generator as the first has left it. *)
Definition two_runs (self : AdvancedAnalyzer) (n_iterations : nat)
    (g : RandomState) : option (Bootstrap * Bootstrap) :=
  run1 <- perform_bootstrap_analysis self n_iterations g ;;
  run2 <- perform_bootstrap_analysis self n_iterations (snd run1) ;;
  Some (fst run1, fst run2).

Definition constant_scores : Pandas.DataFrame :=
  features_table [Some 4%Q; Some 4%Q; Some 4%Q].

Definition constant_analyzer : AdvancedAnalyzer :=
  Eval vm_compute in
    default (mkAdvancedAnalyzer constant_scores constant_scores)
            (init constant_scores).

Definition two_scores : Pandas.DataFrame := features_table [Some 1%Q; Some 5%Q].

(** The float64 that the literal [0.1] denotes, and a column of three of
    them. *)
Definition tenth : Q := 3602879701896397 # 36028797018963968.

Definition tenth_scores : Pandas.DataFrame :=
  features_table [Some tenth; Some tenth; Some tenth].

Definition tenth_analyzer : AdvancedAnalyzer :=
  Eval vm_compute in
    default (mkAdvancedAnalyzer tenth_scores tenth_scores) (init tenth_scores).

Definition two_scores_analyzer : AdvancedAnalyzer :=
  Eval vm_compute in
    default (mkAdvancedAnalyzer two_scores two_scores) (init two_scores).

End Advanced.

(** ** Further notions for the cleaner *)

Module CleanerNotions.
Import PyStr Cleaner.

(** The columns that [run_data_cleaning] reads by name, after the
    renaming. *)
Definition required_columns : list string :=
  [ "timestamp"; age_group_col; income_range_col; familiarity_col;
    recommend_col; bought_col ].

(** A code point below 128. *)
Definition is_ascii (c : ascii) : bool := nat_of_ascii c <? 128.

(** The cells of [series.map(d)]. *)
Definition mapped_cells (d : list (string * Q)) (c : Pandas.Column)
  : list (option Q) :=
  match Pandas.series_map d c with
  | Pandas.NumCol l => l
  | _ => []
  end.

(** The number that cleaning derives from a bracket label. *)
Definition bracket_value (d : list (string * Q)) (cell : option string)
  : option Q :=
  filled_score (s <- cell ;; Pandas.dict_get d s).

(** The names that cleaning writes to: the parsed timestamp, the
    indicators and the four numeric features. *)
Definition written_columns : list string :=
  ("timestamp" :: indicator_names multiple_choice_mapping
   ++ numeric_feature_names)%list.

End CleanerNotions.

(** ** Further notions for the breakdowns *)

Module AnalysisNotions.
Import PyStr Analysis.

(** The number of labels of a list that equal [x]. *)
Definition count_label (x : Label) (ls : list Label) : Z :=
  Z.of_nat (List.length (filter (label_eqb x) ls)).

(** Every two entries of a Series have different labels. *)
Fixpoint distinct_labels (s : Series) : Prop :=
  match s with
  | [] => True
  | e :: rest =>
      (forall e', In e' rest -> label_eqb (fst e) (fst e') = false)
      /\ distinct_labels rest
  end.

(** The value of the first entry whose label equals [x], or 0. *)
Definition lookup_count (x : Label) (s : Series) : Z :=
  match find (fun e => label_eqb x (fst e)) s with
  | Some e => snd e
  | None => 0%Z
  end.

(** The values of a Series do not increase. *)
Definition descending (s : Series) : Prop :=
  Sorted (fun a b => (snd b <= snd a)%Z) s.

(** The number of responses that have [t] among their items. *)
Definition mention_count (t : string) (cells : list (option string)) : Z :=
  Z.of_nat (List.length
              (filter (fun cell => existsb (String.eqb t) (items cell)) cells)).

(** Strictly ascending strings. *)
Definition ascending (ts : list string) : Prop :=
  StronglySorted (fun a b => String.ltb a b = true) ts.

(** The column has as many cells as the table has rows. *)
Definition aligned_len (c : Pandas.Column) (df : Pandas.DataFrame) : Prop :=
  Pandas.col_len c = Pandas.len df.

(** Two masks that keep no row in common. *)
Fixpoint disjoint_masks (m1 m2 : list bool) : Prop :=
  match m1, m2 with
  | b1 :: r1, b2 :: r2 => (b1 && b2 = false) /\ disjoint_masks r1 r2
  | _, _ => True
  end.

(** *** The other multi-select breakdowns of [PreferenceAnalyzer] *)

Definition purchase_factors_col : string :=
  "what_factors_are_most_important_to_you_when_buying_furniture".
Definition room_priority_col : string :=
  "which_room_do_you_prioritise_when_buying_furniture".

Definition analyze_purchase_factors (df : Pandas.DataFrame) : option Breakdown :=
  c <- Pandas.get_col purchase_factors_col df ;;
  purchase_factors <- get_dummies_sum c ;;
  let factor_counts := sort_values_desc purchase_factors in
  let factor_percentages := pct_series (Pandas.len df) factor_counts in
  Some (mkBreakdown factor_counts factor_percentages).

Definition analyze_room_priorities (df : Pandas.DataFrame) : option Breakdown :=
  c <- Pandas.get_col room_priority_col df ;;
  room_priorities <- get_dummies_sum c ;;
  let priority_counts := sort_values_desc room_priorities in
  let priority_percentages := pct_series (Pandas.len df) priority_counts in
  Some (mkBreakdown priority_counts priority_percentages).

(** *** [analyze_shopping_preferences] *)

Definition make_preference_col : string :=
  "do_you_prefer_ready-made_or_custom-made_furniture".
Definition channel_col : string := "how_do_you_typically_shop_for_furniture".
Definition info_sources_col : string :=
  "what_sources_of_information_do_you_rely_on_when_choosing_furniture".
Definition timing_col : string :=
  "in_which_time_of_the_year_do_you_prefer_buying_new_furniture".
Definition purchase_reasons_col : string := "why_do_you_usually_buy_furniture".

Definition analyze_shopping_preferences (df : Pandas.DataFrame)
  : option (list (string * Breakdown)) :=
  mk <- Pandas.get_col make_preference_col df ;;
  let make_preference := value_counts mk in
  ch <- Pandas.get_col channel_col df ;;
  let channel_preference := value_counts ch in
  src <- Pandas.get_col info_sources_col df ;;
  dummies <- get_dummies_sum src ;;
  let info_sources := sort_values_desc dummies in
  tm <- Pandas.get_col timing_col df ;;
  let timing_preference := value_counts tm in
  why <- Pandas.get_col purchase_reasons_col df ;;
  dummies <- get_dummies_sum why ;;
  let purchase_reasons := sort_values_desc dummies in
  let n := Pandas.len df in
  Some [ ("make_preference",
          mkBreakdown make_preference (pct_series n make_preference));
         ("channel_preference",
          mkBreakdown channel_preference (pct_series n channel_preference));
         ("info_sources",
          mkBreakdown info_sources (pct_series n info_sources));
         ("timing_preference",
          mkBreakdown timing_preference (pct_series n timing_preference));
         ("purchase_reasons",
          mkBreakdown purchase_reasons (pct_series n purchase_reasons)) ].

Definition shopping_example : Pandas.DataFrame :=
  Pandas.mkDataFrame [0; 1; 2]
    [ (make_preference_col,
       Pandas.ObjCol [Some "Ready-made"; Some "Custom-made"; Some "Ready-made"]);
      (channel_col, Pandas.ObjCol [Some "Online"; None; Some "In store"]);
      (info_sources_col,
       Pandas.ObjCol [Some "Friends,Social media"; Some "Friends"; None]);
      (timing_col, Pandas.ObjCol [Some "Eid"; Some "Eid"; Some "Winter"]);
      (purchase_reasons_col,
       Pandas.ObjCol [Some "For home decoration,Personal Preference";
                      Some "Personal Preference"; Some "Style & comfort"]) ].
Definition answers_example : Pandas.Column :=
  Pandas.ObjCol [Some "b"; Some "a"; None; Some "b"; Some "c"; Some "b"].

End AnalysisNotions.

(** ** Outliers, and further notions for the advanced analysis *)

Module AdvancedNotions.
Import Advanced.

(** The value at [position] between the neighbours of a sorted list whose
    last index is [last]: the interpolation of [percentile]. *)
Definition point (sorted : list Q) (last : nat) (position : Q) : Q :=
  let below := Z.to_nat (Qfloor position) in
  let fraction := (position - inject_Z (Qfloor position))%Q in
  let lo := nth (Nat.min below last) sorted 0%Q in
  let hi := nth (Nat.min (S below) last) sorted 0%Q in
  (lo + (hi - lo) * fraction)%Q.

(** The position of the [q]-th percentile among [S last] values. *)
Definition position (last : nat) (q : Q) : Q :=
  (inject_Z (Z.of_nat last) * q / 100)%Q.

(** Every value lies between [a] and [b]. *)
Definition within (a b : Q) (l : list Q) : Prop :=
  Forall (fun x => (a <= x <= b)%Q) l.

(** [series.quantile(q)]: the interpolated quantile of the values that are
    not missing; NaN when there is none. *)
Definition quantile (l : list (option Q)) (q : Q) : option Q :=
  percentile (map Some (Analysis.present l)) (q * 100)%Q.

(** Arithmetic with NaN. *)
Definition lift2 (f : Q -> Q -> Q) (x y : option Q) : option Q :=
  match x, y with
  | Some a, Some b => Some (f a b)
  | _, _ => None
  end.

(** [value < bound], false against NaN. *)
Definition lt_nan (x y : option Q) : bool :=
  match x, y with
  | Some a, Some b => negb (Qle_bool b a)
  | _, _ => false
  end.

Record OutlierReport : Type := mkOutlierReport {
  outliers : list (nat * option Q);
  bounds : option Q * option Q
}.

(** The body of the loop of [detect_outliers] for one numeric column: the
    flagged rows with their labels, and the two fences. *)
Definition outlier_report (index : list nat) (cells : list (option Q))
  : OutlierReport :=
  let Q1 := quantile cells (25 # 100) in
  let Q3 := quantile cells (75 # 100) in
  let IQR := lift2 Qminus Q3 Q1 in
  let lower_bound :=
    lift2 Qminus Q1 (lift2 Qmult (Some (15 # 10)) IQR) in
  let upper_bound :=
    lift2 Qplus Q3 (lift2 Qmult (Some (15 # 10)) IQR) in
  let mask :=
    map (fun cell => lt_nan cell lower_bound || lt_nan upper_bound cell)
        cells in
  mkOutlierReport (Pandas.mask_filter mask (combine index cells))
                  (lower_bound, upper_bound).

(** [detect_outliers(columns)]: one report for each column.  [None] is
    the [KeyError] of an absent column or the failure of [quantile] on a
    text column; columns of datetimes are left aside. *)
Definition detect_outliers (self : AdvancedAnalyzer) (columns : list string)
  : option (list (string * OutlierReport)) :=
  Cleaner.traverse
    (fun col =>
       cells <- Statistical.numeric_column (df_clean self) col ;;
       Some (col, outlier_report (Pandas.index (df_clean self)) cells))
    columns.

Definition outlier_scores : list (option Q) :=
  [Some 3%Q; Some 4%Q; Some 3%Q; Some 5%Q; Some 4%Q; Some 40%Q].

(** A table whose recommendation scores have a gap, and its analyzer. *)
Definition gap_scores : Pandas.DataFrame :=
  features_table [Some 1%Q; None; Some 5%Q].

Definition gap_analyzer : AdvancedAnalyzer :=
  Eval vm_compute in
    default (mkAdvancedAnalyzer gap_scores gap_scores) (init gap_scores).

End AdvancedNotions.

(* ================================================================== *)
(** * Part II: properties                                              *)
(* ================================================================== *)

Module PyStrFacts.
Import PyStr.

Ltac every_char c :=
  destruct c as [[|] [|] [|] [|] [|] [|] [|] [|]]; try reflexivity;
  try discriminate.

Lemma prefix_empty (s : string) : prefix "" s = true.
Proof. destruct s; reflexivity. Qed.

Lemma prefix_head (a c : ascii) (r t : string) :
  prefix (String a r) (String c t) = true -> a = c.
Proof. simpl. destruct (ascii_dec a c); [trivial | discriminate]. Qed.

Lemma prefix_single (a c : ascii) (t : string) :
  prefix (String a "") (String c t) = Ascii.eqb a c.
Proof.
  simpl. destruct (ascii_dec a c) as [e | n].
  - subst. now rewrite prefix_empty, Ascii.eqb_refl.
  - symmetry. now apply Ascii.eqb_neq.
Qed.

Lemma all_chars_app (p : ascii -> bool) (s t : string) :
  all_chars p (s ++ t) = all_chars p s && all_chars p t.
Proof.
  induction s as [| c s IH]; simpl; [reflexivity |].
  now rewrite IH, andb_assoc.
Qed.

Lemma all_chars_and (p q : ascii -> bool) (s : string) :
  all_chars p s = true -> all_chars q s = true ->
  all_chars (fun c => p c && q c) s = true.
Proof.
  induction s as [| c s IH]; simpl; [reflexivity |].
  intros [Hp Hs]%andb_prop [Hq Ht]%andb_prop.
  now rewrite Hp, Hq, IH.
Qed.

Lemma all_chars_weaken (p q : ascii -> bool) (s : string) :
  (forall c, p c = true -> q c = true) ->
  all_chars p s = true -> all_chars q s = true.
Proof.
  intros Hpq. induction s as [| c s IH]; simpl; [reflexivity |].
  intros [Hp Hs]%andb_prop. now rewrite (Hpq _ Hp), IH.
Qed.

Lemma has_char_all_chars (a : ascii) (s : string) :
  has_char a s = false <-> all_chars (fun c => negb (Ascii.eqb a c)) s = true.
Proof.
  induction s as [| c s IH]; simpl; [tauto |].
  rewrite orb_false_iff, andb_true_iff, negb_true_iff. tauto.
Qed.

(** *** [replace] keeps a property of the characters *)

Lemma all_chars_replace_from (p : ascii -> bool) (old new : string) :
  all_chars p new = true ->
  forall (s : string) (k : nat),
    all_chars p s = true -> all_chars p (replace_from old new k s) = true.
Proof.
  intros Hnew. induction s as [| c s IH]; intros k; [reflexivity |].
  cbn [all_chars replace_from]. intros [Hc Hs]%andb_prop.
  destruct k as [| k].
  - destruct (prefix old (String c s)).
    + now rewrite all_chars_app, Hnew, IH.
    + cbn [all_chars]. now rewrite Hc, IH.
  - now apply IH.
Qed.

Lemma all_chars_replace (p : ascii -> bool) (old new s : string) :
  all_chars p new = true -> all_chars p s = true ->
  all_chars p (replace old new s) = true.
Proof.
  intros Hn Hs. unfold replace. destruct old; [assumption |].
  now apply all_chars_replace_from.
Qed.

(** Replacing a single character removes it, when the replacement does not
    bring it back. *)
Lemma replace_char_gone (a : ascii) (new s : string) :
  has_char a new = false ->
  has_char a (replace (String a "") new s) = false.
Proof.
  intros Hnew. apply has_char_all_chars. apply has_char_all_chars in Hnew.
  unfold replace. induction s as [| c s IH]; [reflexivity |].
  cbn [replace_from]. rewrite prefix_single. cbn [length Nat.sub].
  destruct (Ascii.eqb a c) eqn:E.
  - now rewrite all_chars_app, Hnew, IH.
  - simpl. now rewrite E, IH.
Qed.

Lemma replace_keeps_gone (a : ascii) (old new s : string) :
  has_char a new = false -> has_char a s = false ->
  has_char a (replace old new s) = false.
Proof.
  rewrite !has_char_all_chars. apply all_chars_replace.
Qed.

(** A string without the first character of [old] is left alone. *)
Lemma replace_absent (a : ascii) (r new s : string) :
  has_char a s = false -> replace (String a r) new s = s.
Proof.
  unfold replace. induction s as [| c s IH]; [reflexivity |].
  simpl has_char. intros [Hc Hs]%orb_false_iff. cbn [replace_from].
  destruct (prefix (String a r) (String c s)) eqn:P.
  - apply prefix_head in P. subst. now rewrite Ascii.eqb_refl in Hc.
  - now rewrite IH.
Qed.

(** *** [strip] *)

Lemma all_chars_lstrip (p : ascii -> bool) (s : string) :
  all_chars p s = true -> all_chars p (lstrip s) = true.
Proof.
  induction s as [| c s IH]; simpl; [reflexivity |].
  intros H. destruct (isspace c); [| exact H].
  apply andb_prop in H. now apply IH.
Qed.

Lemma all_chars_rstrip (p : ascii -> bool) (s : string) :
  all_chars p s = true -> all_chars p (rstrip s) = true.
Proof.
  induction s as [| c s IH]; simpl; [reflexivity |].
  intros [Hc Hs]%andb_prop. specialize (IH Hs).
  destruct (rstrip s) as [| d r].
  - destruct (isspace c); simpl; [reflexivity | now rewrite Hc].
  - change (all_chars p (String c (String d r))) with
      (p c && all_chars p (String d r)). now rewrite Hc, IH.
Qed.

Lemma all_chars_strip (p : ascii -> bool) (s : string) :
  all_chars p s = true -> all_chars p (strip s) = true.
Proof. intros H. now apply all_chars_rstrip, all_chars_lstrip. Qed.

Lemma lstrip_nospace (s : string) :
  all_chars (fun c => negb (isspace c)) s = true -> lstrip s = s.
Proof.
  destruct s as [| c s]; simpl; [reflexivity |].
  intros [Hc _]%andb_prop. apply negb_true_iff in Hc. now rewrite Hc.
Qed.

Lemma rstrip_nospace (s : string) :
  all_chars (fun c => negb (isspace c)) s = true -> rstrip s = s.
Proof.
  induction s as [| c s IH]; simpl; [reflexivity |].
  intros [Hc Hs]%andb_prop. rewrite (IH Hs). apply negb_true_iff in Hc.
  rewrite Hc. now destruct s.
Qed.

Lemma strip_nospace (s : string) :
  all_chars (fun c => negb (isspace c)) s = true -> strip s = s.
Proof.
  intros H. unfold strip. rewrite (lstrip_nospace _ H). now apply rstrip_nospace.
Qed.

(** *** [smap] and [lower] *)

Lemma all_chars_smap (p : ascii -> bool) (f : ascii -> ascii) (s : string) :
  all_chars p (smap f s) = all_chars (fun c => p (f c)) s.
Proof. induction s as [| c s IH]; simpl; [reflexivity | now rewrite IH]. Qed.

Lemma smap_fixed (f : ascii -> ascii) (s : string) :
  all_chars (fun c => Ascii.eqb (f c) c) s = true -> smap f s = s.
Proof.
  induction s as [| c s IH]; simpl; [reflexivity |].
  intros [Hc Hs]%andb_prop. apply Ascii.eqb_eq in Hc. now rewrite Hc, IH.
Qed.

Lemma smap_smap (f g : ascii -> ascii) (s : string) :
  smap f (smap g s) = smap (fun c => f (g c)) s.
Proof. induction s as [| c s IH]; simpl; [reflexivity | now rewrite IH]. Qed.

Lemma smap_ext (f g : ascii -> ascii) (s : string) :
  (forall c, f c = g c) -> smap f s = smap g s.
Proof.
  intros E. induction s as [| c s IH]; simpl; [reflexivity | now rewrite E, IH].
Qed.

Lemma lower_char_idem (c : ascii) : lower_char (lower_char c) = lower_char c.
Proof. every_char c. Qed.

Lemma isspace_lower_char (c : ascii) : isspace (lower_char c) = isspace c.
Proof. every_char c. Qed.

Lemma lstrip_smap (f : ascii -> ascii) (s : string) :
  (forall c, isspace (f c) = isspace c) ->
  lstrip (smap f s) = smap f (lstrip s).
Proof.
  intros E. induction s as [| c s IH]; simpl; [reflexivity |].
  rewrite E. now destruct (isspace c).
Qed.

Lemma rstrip_smap (f : ascii -> ascii) (s : string) :
  (forall c, isspace (f c) = isspace c) ->
  rstrip (smap f s) = smap f (rstrip s).
Proof.
  intros E. induction s as [| c s IH]; simpl; [reflexivity |].
  rewrite IH, E. destruct (rstrip s); simpl; [| reflexivity].
  now destruct (isspace c).
Qed.

Lemma strip_smap (f : ascii -> ascii) (s : string) :
  (forall c, isspace (f c) = isspace c) ->
  strip (smap f s) = smap f (strip s).
Proof.
  intros E. unfold strip. now rewrite lstrip_smap, rstrip_smap.
Qed.

(** Replacing one character by one character is a character map. *)
Lemma replace_char_smap (a b : ascii) (s : string) :
  replace (String a "") (String b "") s
  = smap (fun c => if Ascii.eqb a c then b else c) s.
Proof.
  unfold replace. induction s as [| c s IH]; [reflexivity |].
  cbn [replace_from smap]. rewrite prefix_single. cbn [length Nat.sub].
  rewrite IH. now destruct (Ascii.eqb a c).
Qed.

(** Deleting a character commutes with a character map that neither
    creates nor destroys it. *)
Lemma delete_char_smap (a : ascii) (f : ascii -> ascii) (s : string) :
  (forall c, Ascii.eqb a (f c) = Ascii.eqb a c) ->
  replace (String a "") "" (smap f s) = smap f (replace (String a "") "" s).
Proof.
  intros E. unfold replace. induction s as [| c s IH]; [reflexivity |].
  cbn [replace_from smap]. rewrite !prefix_single, E. cbn [length Nat.sub].
  rewrite IH. now destruct (Ascii.eqb a c).
Qed.

End PyStrFacts.

Module CleanerFacts.
Import PyStr PyStrFacts Cleaner.

Lemma all_chars_true (p : ascii -> bool) (s : string) :
  (forall c, p c = true) -> all_chars p s = true.
Proof.
  intros H. induction s as [| c s IH]; simpl; [reflexivity |].
  now rewrite H, IH.
Qed.

Lemma replace_slash_smap (s : string) :
  replace "/" "_" s = smap slash_to_underscore s.
Proof. apply replace_char_smap. Qed.

Lemma no_slash_after_map (s : string) :
  has_char "/" (smap slash_to_underscore s) = false.
Proof.
  apply has_char_all_chars. rewrite all_chars_smap.
  apply all_chars_true. intros c. every_char c.
Qed.

(** The first three steps commute with the replacement of the slashes. *)
Lemma head_steps_slash (col : string) :
  replace "?" "" (lower (strip (smap slash_to_underscore col)))
  = smap slash_to_underscore (replace "?" "" (lower (strip col))).
Proof.
  rewrite strip_smap by (intros c; every_char c).
  unfold lower. rewrite smap_smap.
  rewrite (smap_ext _ (fun c => slash_to_underscore (lower_char c)))
    by (intros c; every_char c).
  rewrite <- smap_smap.
  apply delete_char_smap. intros c. every_char c.
Qed.

(** Each of the seven characters is absent from a normalised key. *)
Ltac char_gone :=
  repeat first
    [ apply replace_char_gone; reflexivity
    | apply replace_keeps_gone; [reflexivity |] ].

Lemma stripped_chars_gone (col : string) (c : ascii) :
  has_char c stripped_chars = true ->
  has_char c (clean_column_name col) = false.
Proof.
  unfold stripped_chars. cbn [has_char].
  rewrite !orb_true_iff, !Ascii.eqb_eq.
  intros [E | [E | [E | [E | [E | [E | [E | E]]]]]]];
    try discriminate E; subst c; unfold clean_column_name; char_gone.
Qed.

Lemma no_space_in_key (col : string) :
  has_char " " (clean_column_name col) = false.
Proof. unfold clean_column_name. char_gone. Qed.

(** C4, as the specification states it, fails: the specification strips
    the slash, [_clean_column_names] turns it into an underscore. *)
Lemma clean_column_name_differs_from_spec :
  clean_column_name "Living/Dining [room]?" = "living_dining_room"
  /\ spec_normalize "Living/Dining [room]?" = "livingdining_room"
  /\ clean_column_name "Living/Dining [room]?"
     <> spec_normalize "Living/Dining [room]?".
Proof. repeat split. discriminate. Qed.

(** C4 (amended): for every column key, [_clean_column_names] yields the
    key that the specification's normalisation (trim, lowercase, strip
    [? [ ] ( ) ,], collapse double spaces, spaces to underscores) yields
    once every slash has been replaced by an underscore instead of being
    stripped; and none of [? / [ ] ( ) ,] occurs in a normalised key. *)
Theorem clean_column_name_spec (col : string) :
  clean_column_name col = spec_normalize (replace "/" "_" col)
  /\ forall c : ascii,
       has_char c stripped_chars = true ->
       has_char c (clean_column_name col) = false.
Proof.
  split; [| apply stripped_chars_gone].
  unfold clean_column_name, spec_normalize.
  rewrite !replace_slash_smap, head_steps_slash.
  now rewrite (replace_absent "/" "" "" _ (no_slash_after_map _)).
Qed.

(** *** Idempotence *)

Lemma clean_column_name_fixed (t : string) :
  all_chars settled t = true ->
  (forall c, has_char c stripped_chars = true -> has_char c t = false) ->
  has_char " " t = false ->
  clean_column_name t = t.
Proof.
  intros Hs Hc Hsp. unfold clean_column_name.
  rewrite strip_nospace
    by (revert Hs; apply all_chars_weaken; unfold settled; intros c;
        now intros [H _]%andb_prop).
  unfold lower. rewrite smap_fixed
    by (revert Hs; apply all_chars_weaken; unfold settled; intros c;
        now intros [_ H]%andb_prop).
  rewrite (replace_absent "?") by (apply Hc; reflexivity).
  rewrite (replace_absent "/") by (apply Hc; reflexivity).
  rewrite (replace_absent "[") by (apply Hc; reflexivity).
  rewrite (replace_absent "]") by (apply Hc; reflexivity).
  rewrite (replace_absent "(") by (apply Hc; reflexivity).
  rewrite (replace_absent ")") by (apply Hc; reflexivity).
  rewrite (replace_absent ",") by (apply Hc; reflexivity).
  rewrite (replace_absent " " " ") by exact Hsp.
  now rewrite (replace_absent " " "") by exact Hsp.
Qed.

Lemma key_lowercase (col : string) :
  all_chars (fun c => Ascii.eqb (lower_char c) c) (clean_column_name col) = true.
Proof.
  unfold clean_column_name.
  repeat (apply all_chars_replace; [reflexivity |]).
  unfold lower. rewrite all_chars_smap. apply all_chars_true.
  intros c. rewrite lower_char_idem. apply Ascii.eqb_refl.
Qed.

Lemma key_plain_space_only (col : string) :
  all_chars plain_space_only col = true ->
  all_chars plain_space_only (clean_column_name col) = true.
Proof.
  intros H. unfold clean_column_name.
  repeat (apply all_chars_replace; [reflexivity |]).
  unfold lower. rewrite all_chars_smap.
  apply all_chars_strip.
  revert H. apply all_chars_weaken. intros c. every_char c.
Qed.

Lemma key_settled (col : string) :
  all_chars plain_space_only col = true ->
  all_chars settled (clean_column_name col) = true.
Proof.
  intros H. unfold settled. apply all_chars_and; [| apply key_lowercase].
  pose proof (key_plain_space_only col H) as Hp.
  pose proof (no_space_in_key col) as Hn.
  apply has_char_all_chars in Hn.
  pose proof (all_chars_and _ _ _ Hp Hn) as Hpn.
  revert Hpn. apply all_chars_weaken. intros c. every_char c.
Qed.

(** C7, as stated, fails: a tab laid bare by the removal of [?] survives
    the first normalisation and is trimmed by the second. *)
Lemma clean_column_name_not_idempotent :
  let col := String "?" (String tab "Age") in
  clean_column_name col = String tab "age"
  /\ clean_column_name (clean_column_name col) = "age"
  /\ clean_column_name (clean_column_name col) <> clean_column_name col.
Proof. repeat split. discriminate. Qed.

(** C7 (amended): the normalisation of [_clean_column_names] is idempotent
    on every string whose only whitespace characters are ordinary spaces. *)
Theorem clean_column_name_idempotent (col : string) :
  all_chars plain_space_only col = true ->
  clean_column_name (clean_column_name col) = clean_column_name col.
Proof.
  intros H. apply clean_column_name_fixed.
  - now apply key_settled.
  - apply stripped_chars_gone.
  - apply no_space_in_key.
Qed.

Lemma clean_column_name_idempotent_witness :
  all_chars plain_space_only "  What is your Age group? (years) " = true
  /\ clean_column_name
       (clean_column_name "  What is your Age group? (years) ")
     = clean_column_name "  What is your Age group? (years) ".
Proof.
  split; [reflexivity |].
  apply (clean_column_name_idempotent "  What is your Age group? (years) ").
  reflexivity.
Defined.

End CleanerFacts.

Module PandasFacts.
Import Pandas.

Lemma lookup_update_same (n : string) (c : Column) cols :
  lookup n (update n c cols) = Some c.
Proof.
  induction cols as [| [m c0] cols IH]; simpl.
  - now rewrite String.eqb_refl.
  - destruct (String.eqb m n) eqn:E; simpl; now rewrite E.
Qed.

Lemma lookup_update_other (n m : string) (c : Column) cols :
  String.eqb m n = false ->
  lookup m (update n c cols) = lookup m cols.
Proof.
  intros Hne. induction cols as [| [k c0] cols IH]; simpl.
  - rewrite String.eqb_sym. now rewrite Hne.
  - destruct (String.eqb k n) eqn:E; simpl.
    + apply String.eqb_eq in E. subst k.
      rewrite (String.eqb_sym n m). now rewrite Hne.
    + now rewrite IH.
Qed.

Lemma get_set_same (n : string) (c : Column) (df : DataFrame) :
  get_col n (set_col n c df) = Some c.
Proof. apply lookup_update_same. Qed.

Lemma get_set_other (n m : string) (c : Column) (df : DataFrame) :
  String.eqb m n = false ->
  get_col m (set_col n c df) = get_col m df.
Proof. apply lookup_update_other. Qed.

Lemma get_map_cols (f : Column -> Column) (n : string) (df : DataFrame) :
  get_col n (map_cols f df) = option_map f (get_col n df).
Proof.
  unfold get_col, map_cols. simpl.
  induction (columns df) as [| [m c] cols IH]; simpl; [reflexivity |].
  now destruct (String.eqb m n).
Qed.

Lemma get_select_rows (mask : list bool) (n : string) (df : DataFrame) :
  get_col n (select_rows mask df) = option_map (col_filter mask) (get_col n df).
Proof.
  unfold get_col, select_rows. simpl.
  induction (columns df) as [| [m c] cols IH]; simpl; [reflexivity |].
  now destruct (String.eqb m n).
Qed.

Lemma get_reset_index (n : string) (df : DataFrame) :
  get_col n (reset_index df) = get_col n df.
Proof. reflexivity. Qed.

Lemma mask_filter_In {A : Type} (mask : list bool) (l : list A) (x : A) :
  In x (mask_filter mask l) -> In x l.
Proof.
  revert l. induction mask as [| b mask IH]; intros [| y l]; simpl; try tauto.
  destruct b; simpl; intros H; [destruct H |]; auto.
Qed.

(** The kept cells are those of the rows the mask keeps: on a column
    computed cell by cell, a kept cell satisfies the test of the mask. *)
Lemma mask_filter_map_true {A B : Type} (p : A -> bool) (g : A -> B)
    (l : list A) (y : B) :
  In y (mask_filter (map p l) (map g l)) ->
  exists x, In x l /\ p x = true /\ y = g x.
Proof.
  induction l as [| x l IH]; simpl; [tauto |].
  destruct (p x) eqn:E; simpl.
  - intros [H | H].
    + exists x. auto.
    + destruct (IH H) as (x' & Hin & Hp & Hy). exists x'. auto.
  - intros H. destruct (IH H) as (x' & Hin & Hp & Hy). exists x'. auto.
Qed.

End PandasFacts.

Module PipelineFacts.
Import Pandas PandasFacts PyStr PyStrFacts Cleaner CleanerNotions.

(** *** Names *)

Lemma name_in_app (x : string) (a b : list string) :
  name_in x (a ++ b) = name_in x a || name_in x b.
Proof. apply existsb_app. Qed.

Lemma name_in_cons (x n : string) (l : list string) :
  name_in x (n :: l) = String.eqb x n || name_in x l.
Proof. reflexivity. Qed.

Lemma name_in_In (x : string) (l : list string) :
  name_in x l = false -> In x l -> False.
Proof.
  induction l as [| y l IH]; simpl; [tauto |].
  intros [Hy Hl]%orb_false_iff [E | Hin]; [| auto].
  subst. now rewrite String.eqb_refl in Hy.
Qed.

Lemma distinct_app (a b : list string) :
  distinct (a ++ b) = true ->
  distinct a = true /\ distinct b = true
  /\ forall x, In x a -> name_in x b = false.
Proof.
  induction a as [| y a IH]; simpl.
  - intros H. repeat split; [assumption | tauto].
  - intros [Hy Hd]%andb_prop. apply negb_true_iff in Hy.
    rewrite name_in_app in Hy. apply orb_false_iff in Hy as [Hya Hyb].
    destruct (IH Hd) as (Ha & Hb & Hab).
    rewrite Hya, Ha. repeat split; [assumption |].
    intros x [E | Hin]; [now subst | auto].
Qed.

(** *** What the indicator loops leave untouched *)

Lemma add_indicator_frame (column prefix choice : string) (df df' : DataFrame) :
  add_indicator column prefix choice df = Some df' ->
  index df' = index df
  /\ forall x, String.eqb x (indicator_name prefix choice) = false ->
               get_col x df' = get_col x df.
Proof.
  unfold add_indicator.
  destruct (get_col column df) as [c |]; [| discriminate]. simpl.
  destruct (filled_texts c) as [texts |]; [| discriminate]. simpl.
  intros [= <-]. split; [reflexivity |].
  intros x Hx. now apply get_set_other.
Qed.

Lemma add_indicators_frame (column prefix : string) (choices : list string) :
  forall df df' : DataFrame,
    add_indicators column prefix choices df = Some df' ->
    index df' = index df
    /\ forall x, name_in x (map (indicator_name prefix) choices) = false ->
                 get_col x df' = get_col x df.
Proof.
  induction choices as [| ch rest IH]; intros df df'; simpl.
  - intros [= <-]. auto.
  - destruct (add_indicator column prefix ch df) as [df1 |] eqn:E1;
      [| discriminate]. simpl. intros E2.
    destruct (add_indicator_frame _ _ _ _ _ E1) as [I1 G1].
    destruct (IH _ _ E2) as [I2 G2].
    split; [congruence |].
    intros x [Hx Hr]%orb_false_iff. rewrite G2, G1; auto.
Qed.

Lemma handle_questions_frame (qs : list Question) :
  forall df df' : DataFrame,
    handle_questions qs df = Some df' ->
    index df' = index df
    /\ forall x, name_in x (indicator_names qs) = false ->
                 get_col x df' = get_col x df.
Proof.
  induction qs as [| q rest IH]; intros df df'; simpl.
  - intros [= <-]. auto.
  - destruct (has_col (q_column q) df).
    + destruct (add_indicators (q_column q) (q_prefix q) (q_choices q) df)
        as [df1 |] eqn:E1; [| discriminate]. simpl. intros E2.
      destruct (add_indicators_frame _ _ _ _ _ E1) as [I1 G1].
      destruct (IH _ _ E2) as [I2 G2].
      split; [congruence |].
      intros x Hx. unfold indicator_names in Hx. simpl in Hx.
      rewrite name_in_app in Hx. apply orb_false_iff in Hx as [Hx1 Hx2].
      rewrite G2, G1; auto.
    + simpl. intros E2. destruct (IH _ _ E2) as [I2 G2].
      split; [assumption |].
      intros x Hx. unfold indicator_names in Hx. simpl in Hx.
      rewrite name_in_app in Hx. apply orb_false_iff in Hx as [Hx1 Hx2].
      now apply G2.
Qed.

(** *** What the indicator loops produce *)

Lemma add_indicators_result (column prefix : string) (cells : list (option string))
    (choices : list string) :
  forall df : DataFrame,
    get_col column df = Some (ObjCol cells) ->
    name_in column (map (indicator_name prefix) choices) = false ->
    distinct (map (indicator_name prefix) choices) = true ->
    exists df',
      add_indicators column prefix choices df = Some df'
      /\ forall ch, In ch choices ->
           get_col (indicator_name prefix ch) df'
           = Some (indicator_column ch (map (default "") cells)).
Proof.
  induction choices as [| c0 rest IH]; intros df Hcol Hne Hd; simpl.
  - exists df. split; [reflexivity | tauto].
  - simpl in Hne, Hd. apply orb_false_iff in Hne as [Hne0 Hne].
    apply andb_prop in Hd as [Hd0 Hd]. apply negb_true_iff in Hd0.
    unfold add_indicator at 1. rewrite Hcol. simpl.
    set (df1 := set_col (indicator_name prefix c0)
                  (indicator_column c0 (map (default "") cells)) df).
    assert (Hcol1 : get_col column df1 = Some (ObjCol cells))
      by (unfold df1; now rewrite get_set_other).
    destruct (IH df1 Hcol1 Hne Hd) as (df' & E & G).
    exists df'. split; [exact E |].
    intros ch [<- | Hin]; [| now apply G].
    destruct (add_indicators_frame _ _ _ _ _ E) as [_ F].
    rewrite F by exact Hd0. unfold df1. apply get_set_same.
Qed.

Lemma has_col_true (n : string) (df : DataFrame) :
  has_col n df = true -> exists c, get_col n df = Some c.
Proof.
  unfold has_col. destruct (get_col n df) as [c |]; [eauto | discriminate].
Qed.

Lemma has_col_false (n : string) (df : DataFrame) :
  has_col n df = false -> get_col n df = None.
Proof.
  unfold has_col. destruct (get_col n df) as [c |]; [discriminate | reflexivity].
Qed.

Lemma handle_questions_result (qs : list Question) :
  forall df : DataFrame,
    distinct (indicator_names qs) = true ->
    (forall q, In q qs -> name_in (q_column q) (indicator_names qs) = false) ->
    (forall q c, In q qs -> get_col (q_column q) df = Some c ->
                 exists cells, c = ObjCol cells) ->
    exists df',
      handle_questions qs df = Some df'
      /\ forall q ch cells,
           In q qs -> In ch (q_choices q) ->
           get_col (q_column q) df = Some (ObjCol cells) ->
           get_col (indicator_name (q_prefix q) ch) df'
           = Some (indicator_column ch (map (default "") cells)).
Proof.
  induction qs as [| q0 rest IH]; intros df Hd Hq Hobj.
  - exists df. split; [reflexivity |]. intros q ch cells [].
  - unfold indicator_names in Hd. simpl in Hd.
    destruct (distinct_app _ _ Hd) as (Hd0 & Hdr & Hcross).
    assert (Hq0 : forall q, In q (q0 :: rest) ->
              name_in (q_column q)
                      (map (indicator_name (q_prefix q0)) (q_choices q0)) = false
              /\ name_in (q_column q) (indicator_names rest) = false).
    { intros q Hin. specialize (Hq q Hin). unfold indicator_names in Hq.
      simpl in Hq. rewrite name_in_app in Hq. now apply orb_false_iff in Hq. }
    cbn [handle_questions].
    destruct (has_col (q_column q0) df) eqn:Hhas.
    + destruct (has_col_true _ _ Hhas) as [c Hc].
      destruct (Hobj q0 c (or_introl eq_refl) Hc) as [cells0 ->].
      destruct (add_indicators_result _ (q_prefix q0) cells0 (q_choices q0) df Hc
                  (proj1 (Hq0 q0 (or_introl eq_refl))) Hd0) as (df1 & E1 & G1).
      rewrite E1. simpl.
      destruct (add_indicators_frame _ _ _ _ _ E1) as [_ F1].
      assert (Hsame : forall q, In q (q0 :: rest) ->
                get_col (q_column q) df1 = get_col (q_column q) df).
      { intros q Hin. apply F1. apply (Hq0 q Hin). }
      destruct (IH df1 Hdr) as (df' & E & G).
      { intros q Hin. apply (Hq0 q (or_intror Hin)). }
      { intros q c Hin. rewrite (Hsame q (or_intror Hin)).
        apply Hobj. now right. }
      exists df'. split; [exact E |].
      destruct (handle_questions_frame _ _ _ E) as [_ F].
      intros q ch cells [<- | Hin] Hch Hcol.
      * rewrite F.
        -- rewrite Hc in Hcol. injection Hcol as <-. now apply G1.
        -- apply Hcross. apply in_map_iff. eauto.
      * apply G; [assumption | assumption |].
        now rewrite (Hsame q (or_intror Hin)).
    + simpl. pose proof (has_col_false _ _ Hhas) as Hnone.
      destruct (IH df Hdr) as (df' & E & G).
      { intros q Hin. apply (Hq0 q (or_intror Hin)). }
      { intros q c Hin. apply Hobj. now right. }
      exists df'. split; [exact E |].
      intros q ch cells [<- | Hin] Hch Hcol.
      * rewrite Hnone in Hcol. discriminate.
      * now apply G.
Qed.

(** *** Substrings *)

Lemma sapp_assoc (a b c : string) : (a ++ b) ++ c = a ++ (b ++ c).
Proof. induction a as [| x a IH]; simpl; [reflexivity | now rewrite IH]. Qed.

Lemma sapp_nil_r (a : string) : a ++ "" = a.
Proof. induction a as [| x a IH]; simpl; [reflexivity | now rewrite IH]. Qed.

Lemma smap_app (f : ascii -> ascii) (a b : string) :
  smap f (a ++ b) = smap f a ++ smap f b.
Proof. induction a as [| x a IH]; simpl; [reflexivity | now rewrite IH]. Qed.

Lemma prefix_spec (a s : string) :
  prefix a s = true <-> exists rest, s = a ++ rest.
Proof.
  revert s. induction a as [| x a IH]; intros s.
  - rewrite prefix_empty. split; [| reflexivity]. intros _. now exists s.
  - destruct s as [| y s]; simpl.
    + split; [discriminate | intros [r Hr]; discriminate Hr].
    + destruct (ascii_dec x y) as [-> | Hne].
      * rewrite IH. split; intros [r Hr]; exists r; [now rewrite Hr |].
        now injection Hr.
      * split; [discriminate |]. intros [r Hr]. injection Hr as E _.
        now elim Hne.
Qed.

Lemma contains_cons (a : string) (c : ascii) (s : string) :
  contains a (String c s) = prefix a (String c s) || contains a s.
Proof. reflexivity. Qed.

Lemma contains_spec (a s : string) : contains a s = true <-> substr a s.
Proof.
  split.
  - induction s as [| c s IH].
    + cbn [contains]. rewrite orb_false_r. intros H.
      apply prefix_spec in H as [r Hr]. exists "", r. exact Hr.
    + rewrite contains_cons. intros [H | H]%orb_prop.
      * apply prefix_spec in H as [r Hr]. exists "", r. exact Hr.
      * destruct (IH H) as (p & q & E). exists (String c p), q.
        simpl. now rewrite E.
  - intros (p & q & E). subst s. induction p as [| c p IH].
    + simpl append.
      assert (P : prefix a (a ++ q) = true) by (apply prefix_spec; eauto).
      destruct (a ++ q); simpl; simpl in P; now rewrite P.
    + change (String c p ++ a ++ q) with (String c (p ++ a ++ q)).
      rewrite contains_cons, IH. apply orb_true_r.
Qed.

Lemma substr_trans (a b c : string) : substr a b -> substr b c -> substr a c.
Proof.
  intros (p & q & E) (p' & q' & E'). subst.
  exists (p' ++ p), (q ++ q'). now rewrite !sapp_assoc.
Qed.

Lemma substr_lower (a s : string) : substr a s -> substr (lower a) (lower s).
Proof.
  intros (p & q & E). subst. exists (lower p), (lower q).
  unfold lower. now rewrite !smap_app.
Qed.

Lemma lstrip_substr (s : string) : substr (lstrip s) s.
Proof.
  induction s as [| c s IH]; simpl.
  - now exists "", "".
  - destruct (isspace c).
    + destruct IH as (p & q & E). exists (String c p), q. simpl. now rewrite <- E.
    + exists "", "". simpl. now rewrite sapp_nil_r.
Qed.

Lemma rstrip_prefix (s : string) : exists q, s = rstrip s ++ q.
Proof.
  induction s as [| c s [q IH]]; simpl.
  - now exists "".
  - destruct (rstrip s) as [| d r] eqn:E.
    + destruct (isspace c).
      * now exists (String c s).
      * exists s. reflexivity.
    + exists q. simpl. simpl in IH. now rewrite <- IH.
Qed.

Lemma strip_substr (s : string) : substr (strip s) s.
Proof.
  apply substr_trans with (lstrip s); [| apply lstrip_substr].
  unfold strip. destruct (rstrip_prefix (lstrip s)) as [q E].
  now exists "", q.
Qed.

Lemma split_head (sep : ascii) (s : string) :
  exists w ws q, split sep s = w :: ws /\ s = w ++ q.
Proof.
  induction s as [| c s (w & ws & q & E & Es)]; simpl.
  - now exists "", [], "".
  - destruct (Ascii.eqb c sep).
    + now exists "", (split sep s), (String c s).
    + rewrite E. exists (String c w), ws, q. simpl. now rewrite <- Es.
Qed.

Lemma split_substr (sep : ascii) (s item : string) :
  In item (split sep s) -> substr item s.
Proof.
  revert item. induction s as [| c s IH]; intros item; simpl.
  - intros [<- | []]. now exists "", "".
  - destruct (Ascii.eqb c sep).
    + intros [<- | H].
      * now exists "", (String c s).
      * destruct (IH _ H) as (p & q & E). exists (String c p), q.
        simpl. now rewrite <- E.
    + destruct (split_head sep s) as (w & ws & q & E & Es).
      rewrite E in IH |- *. intros [<- | H].
      * exists "", q. simpl. now rewrite <- Es.
      * destruct (IH item (or_intror H)) as (p & q' & E').
        exists (String c p), q'. simpl. now rewrite <- E'.
Qed.

(** *** The indicators of one response *)

Lemma indicator_bit (choice text : string) :
  (indicator choice text = 0 \/ indicator choice text = 1)%Z.
Proof. unfold indicator. destruct (str_contains_nocase choice text); auto. Qed.

Lemma indicator_one_iff (choice text : string) :
  indicator choice text = 1%Z <-> occurs_nocase choice text.
Proof.
  unfold indicator, occurs_nocase, str_contains_nocase.
  rewrite <- contains_spec.
  destruct (contains (lower choice) (lower text)); split;
    try reflexivity; discriminate.
Qed.

Lemma indicator_blank (choice : string) :
  choice <> "" -> indicator choice "" = 0%Z.
Proof. destruct choice; [congruence | reflexivity]. Qed.

Lemma mentions_occurs (text choice : string) :
  mentions text choice = true -> occurs_nocase choice text.
Proof.
  unfold mentions. intros H. apply existsb_exists in H as (item & Hin & E).
  apply String.eqb_eq in E. unfold occurs_nocase. rewrite <- E.
  apply substr_lower.
  apply substr_trans with item; [apply strip_substr |].
  now apply split_substr with ","%char.
Qed.

Lemma indicator_sum_nonneg (choices : list string) (text : string) :
  (0 <= indicator_sum choices text)%Z.
Proof.
  unfold indicator_sum. induction choices as [| ch rest IH]; [simpl; lia |].
  cbn [map fold_right].
  destruct (indicator_bit ch text) as [E | E]; rewrite E; lia.
Qed.

Lemma mentioned_le_indicator_sum (choices : list string) (text : string) :
  (Z.of_nat (mentioned_count choices text) <= indicator_sum choices text)%Z.
Proof.
  unfold mentioned_count, indicator_sum.
  induction choices as [| ch rest IH]; [simpl; lia |].
  cbn [filter map fold_right]. destruct (mentions text ch) eqn:M.
  - apply mentions_occurs, indicator_one_iff in M. rewrite M.
    cbn [List.length]. lia.
  - destruct (indicator_bit ch text) as [E | E]; rewrite E; lia.
Qed.

Lemma choices_not_blank (q : Question) (ch : string) :
  In q multiple_choice_mapping -> In ch (q_choices q) -> ch <> "".
Proof.
  intros Hq Hch.
  assert (H : forallb (fun q => forallb (fun ch => negb (String.eqb ch ""))
                                  (q_choices q))
                multiple_choice_mapping = true) by reflexivity.
  rewrite forallb_forall in H. specialize (H q Hq).
  rewrite forallb_forall in H. specialize (H ch Hch).
  apply negb_true_iff in H. now apply String.eqb_neq.
Qed.

Lemma question_columns_apart (q : Question) :
  In q multiple_choice_mapping ->
  name_in (q_column q) (indicator_names multiple_choice_mapping) = false.
Proof.
  intros Hq.
  assert (H : forallb (fun q => negb (name_in (q_column q)
                         (indicator_names multiple_choice_mapping)))
                multiple_choice_mapping = true) by reflexivity.
  rewrite forallb_forall in H. now apply negb_true_iff, H.
Qed.

(** C6: on a table whose column labels are unique and whose question
    columns, where present, are text columns,
    [_handle_multiple_choice_columns] returns a table that has, for each
    of the three questions present and each of its known labels, one
    indicator column; its value in a row is 0 or 1, it is 1 exactly when
    the label occurs in the row's response as a substring, letter case
    aside, and it is 0 for a missing response; so the indicators of a row
    sum to at least the number of known labels the response mentions. *)
Theorem handle_multiple_choice_columns_indicators (df : DataFrame) :
  unique_labels df = true ->
  (forall q c, In q multiple_choice_mapping ->
               get_col (q_column q) df = Some c ->
               exists cells, c = ObjCol cells) ->
  exists df',
    _handle_multiple_choice_columns df = Some df'
    /\ forall q cells,
         In q multiple_choice_mapping ->
         get_col (q_column q) df = Some (ObjCol cells) ->
         (forall ch, In ch (q_choices q) ->
            get_col (indicator_name (q_prefix q) ch) df'
            = Some (NumCol (map (fun cell =>
                                   Some (inject_Z (indicator ch (default "" cell))))
                                cells))
            /\ forall cell : option string,
                 (indicator ch (default "" cell) = 0
                  \/ indicator ch (default "" cell) = 1)%Z
                 /\ (indicator ch (default "" cell) = 1%Z
                     <-> occurs_nocase ch (default "" cell))
                 /\ (cell = None -> indicator ch (default "" cell) = 0%Z))
         /\ forall cell : option string,
              (Z.of_nat (mentioned_count (q_choices q) (default "" cell))
               <= indicator_sum (q_choices q) (default "" cell))%Z.
Proof.
  intros _ Hobj.
  destruct (handle_questions_result multiple_choice_mapping df)
    as (df' & E & G); [reflexivity | apply question_columns_apart | exact Hobj |].
  exists df'. split; [exact E |].
  intros q cells Hq Hcol. split.
  - intros ch Hch. split.
    + rewrite (G q ch cells Hq Hch Hcol). unfold indicator_column.
      now rewrite map_map.
    + intros cell. split; [apply indicator_bit |].
      split; [apply indicator_one_iff |].
      intros ->. apply indicator_blank. now apply choices_not_blank with q.
  - intros cell. apply mentioned_le_indicator_sum.
Qed.

Lemma handle_multiple_choice_columns_indicators_witness :
  exists df',
    _handle_multiple_choice_columns survey_example_renamed = Some df'
    /\ get_col "furniture_type_traditional" df'
       = Some (NumCol [Some 1%Q; Some 0%Q; Some 0%Q; Some 0%Q]).
Proof.
  destruct (handle_multiple_choice_columns_indicators survey_example_renamed)
    as (df' & E & G).
  - reflexivity.
  - intros q c Hq. simpl in Hq.
    destruct Hq as [<- | [<- | [<- | []]]]; vm_compute; intros [= <-]; eauto.
  - exists df'. split; [exact E |].
    destruct (G (mkQuestion "what_type_of_furniture_do_you_prefer"
                   "furniture_type"
                   [ "Modern"; "Traditional"; "Minimalist"; "Multipurpose";
                     "Eclectic" ])
                [Some "Modern, Traditional"; None; Some "minimalist";
                 Some "Eclectic"]) as [Hcols _].
    + simpl. auto.
    + reflexivity.
    + destruct (Hcols "Traditional") as [Hc _]; [simpl; auto |].
      exact Hc.
Defined.

(** *** The steps of [run_data_cleaning], read backwards *)

Lemma to_numeric_cells (sf : string -> option Q) (c : Column) :
  to_numeric sf c = NumCol (numeric_cells sf c).
Proof. unfold numeric_cells. now destruct c. Qed.

Lemma create_numeric_features_inv (sf : string -> option Q) (df df' : DataFrame) :
  _create_numeric_features sf df = Some df' ->
  exists age income fam rec,
    get_col familiarity_col df = Some fam
    /\ get_col recommend_col df = Some rec
    /\ df' = set_col "recommendation_score" (to_numeric sf rec)
               (set_col "isho_familiarity_score" (to_numeric sf fam)
                  (set_col "income_numeric" (series_map income_map income)
                     (set_col "age_numeric" (series_map age_map age) df))).
Proof.
  unfold _create_numeric_features.
  destruct (get_col age_group_col df) as [age |]; [| discriminate].
  cbn [bind]. rewrite get_set_other by reflexivity.
  destruct (get_col income_range_col df) as [income |]; [| discriminate].
  cbn [bind]. rewrite !get_set_other by reflexivity.
  destruct (get_col familiarity_col df) as [fam |]; [| discriminate].
  cbn [bind]. rewrite !get_set_other by reflexivity.
  destruct (get_col recommend_col df) as [rec |]; [| discriminate].
  cbn [bind]. intros [= <-]. now exists age, income, fam, rec.
Qed.

Lemma filter_valid_responses_inv (pre out : DataFrame) :
  _filter_valid_responses pre = Some out ->
  exists l, get_col bought_col pre = Some (ObjCol l)
            /\ out = reset_index (select_rows (map is_yes l) pre).
Proof.
  unfold _filter_valid_responses.
  destruct (get_col bought_col pre) as [[l | l | l] |]; try discriminate.
  cbn [bind]. intros [= <-]. now exists l.
Qed.

(** The columns of the table before the filter, in terms of the renamed
    input table. *)
Lemma cleaned_unfiltered_inv (td : Column -> option Column)
    (sf : string -> option Q) (df pre : DataFrame) :
  cleaned_unfiltered td sf df = Some pre ->
  index pre = index df
  /\ (forall x,
        name_in x ("timestamp" :: indicator_names multiple_choice_mapping
                   ++ numeric_feature_names) = false ->
        get_col x pre
        = option_map (fun c => fillna_column (clean_text_column c))
                     (get_col x (_clean_column_names df)))
  /\ exists fam rec,
       get_col familiarity_col (_clean_column_names df) = Some fam
       /\ get_col recommend_col (_clean_column_names df) = Some rec
       /\ get_col "isho_familiarity_score" pre
          = Some (NumCol (map filled_score (numeric_cells sf fam)))
       /\ get_col "recommendation_score" pre
          = Some (NumCol (map filled_score (numeric_cells sf rec))).
Proof.
  unfold cleaned_unfiltered.
  destruct (get_col "timestamp" (_clean_column_names df)) as [ts |];
    [| discriminate]. cbn [bind].
  destruct (td ts) as [ts' |]; [| discriminate]. cbn [bind].
  destruct (_handle_multiple_choice_columns _) as [df2 |] eqn:E2;
    [| discriminate]. cbn [bind].
  destruct (_create_numeric_features sf df2) as [df3 |] eqn:E3;
    [| discriminate]. cbn [bind]. intros [= <-].
  destruct (handle_questions_frame _ _ _ E2) as [I2 F2].
  destruct (create_numeric_features_inv _ _ _ E3)
    as (age & income & fam & rec & Hfam & Hrec & ->).
  split; [exact I2 |]. split.
  - intros x Hx. rewrite name_in_cons in Hx.
    apply orb_false_iff in Hx as [Hts Hx].
    rewrite name_in_app in Hx. apply orb_false_iff in Hx as [Hind Hnum].
    unfold numeric_feature_names in Hnum. rewrite !name_in_cons in Hnum.
    repeat (apply orb_false_iff in Hnum as [? Hnum]).
    unfold _handle_missing_values, _clean_text_columns.
    rewrite !get_map_cols, !get_set_other by assumption.
    rewrite (F2 x Hind), get_set_other by assumption.
    now destruct (get_col x (_clean_column_names df)).
  - rewrite F2, get_set_other in Hfam by reflexivity.
    rewrite F2, get_set_other in Hrec by reflexivity.
    exists fam, rec. repeat split; [exact Hfam | exact Hrec | |].
    + unfold _handle_missing_values, _clean_text_columns.
      rewrite !get_map_cols, get_set_other, get_set_same by reflexivity.
      now rewrite to_numeric_cells.
    + unfold _handle_missing_values, _clean_text_columns.
      rewrite !get_map_cols, get_set_same.
      now rewrite to_numeric_cells.
Qed.

Lemma bought_column_inv (c : Column) (l : list (option string)) :
  fillna_column (clean_text_column c) = ObjCol l ->
  exists raw, c = ObjCol raw /\ l = map (fun cell => Some (clean_text cell)) raw.
Proof.
  destruct c as [raw | raw | raw]; simpl; try discriminate.
  intros [= <-]. exists raw. split; [reflexivity |]. now rewrite map_map.
Qed.

(** [run_data_cleaning], read backwards. *)
Lemma run_data_cleaning_inv (td : Column -> option Column)
    (sf : string -> option Q) (df out : DataFrame) :
  run_data_cleaning td sf df = Some out ->
  exists pre bought,
    cleaned_unfiltered td sf df = Some pre
    /\ get_col bought_col (_clean_column_names df) = Some (ObjCol bought)
    /\ get_col bought_col pre
       = Some (ObjCol (map (fun cell => Some (clean_text cell)) bought))
    /\ out = reset_index (select_rows (kept_rows bought) pre).
Proof.
  unfold run_data_cleaning.
  destruct (cleaned_unfiltered td sf df) as [pre |] eqn:E; [| discriminate].
  cbn [bind]. intros Hf.
  destruct (filter_valid_responses_inv _ _ Hf) as (l & Hl & ->).
  destruct (cleaned_unfiltered_inv _ _ _ _ E) as (_ & Hcols & _).
  pose proof (Hcols bought_col eq_refl) as Hb. rewrite Hb in Hl.
  destruct (get_col bought_col (_clean_column_names df)) as [c |];
    [| discriminate]. cbn [option_map] in Hl, Hb. injection Hl as Hl.
  destruct (bought_column_inv _ _ Hl) as (raw & Ec & El).
  exists pre, raw. repeat split.
  - now rewrite Ec.
  - now rewrite Hb, Hl, El.
  - unfold kept_rows. now rewrite El, map_map.
Qed.

(** *** The filter on the purchase question *)

Lemma lower_char_is_n (c : ascii) :
  Ascii.eqb (lower_char c) "n" = Ascii.eqb c "n" || Ascii.eqb c "N".
Proof. every_char c. Qed.

Lemma lower_char_is_o (c : ascii) :
  Ascii.eqb (lower_char c) "o" = Ascii.eqb c "o" || Ascii.eqb c "O".
Proof. every_char c. Qed.

Lemma lower_no (s : string) :
  lower s = "no" -> s = "no" \/ s = "No" \/ s = "nO" \/ s = "NO".
Proof.
  destruct s as [| c1 [| c2 [| c3 s]]]; simpl; try discriminate.
  intros [= H1 H2].
  apply Ascii.eqb_eq in H1, H2.
  rewrite lower_char_is_n in H1. rewrite lower_char_is_o in H2.
  apply orb_prop in H1, H2.
  destruct H1 as [->%Ascii.eqb_eq | ->%Ascii.eqb_eq];
    destruct H2 as [->%Ascii.eqb_eq | ->%Ascii.eqb_eq]; auto.
Qed.

Lemma no_is_not_kept (s : string) :
  lower s = "no" -> is_yes (Some (clean_text (Some s))) = false.
Proof.
  intros H. destruct (lower_no s H) as [-> | [-> | [-> | ->]]]; reflexivity.
Qed.

Lemma is_yes_spec (cell : option string) :
  is_yes cell = true -> exists s, cell = Some s /\ lower s = "yes".
Proof.
  destruct cell as [s |]; simpl; [| discriminate].
  intros H. exists s. split; [reflexivity |]. now apply String.eqb_eq.
Qed.

(** C5: in the table returned by [run_data_cleaning] every row has a
    purchase answer that equals "yes", letter case aside; a row whose
    answer is "No" in any letter case is not kept; the kept rows are the
    rows of the table before the filter, in their order, every column
    filtered by the same mask, and they are labelled 0, 1, 2, ... *)
Theorem run_data_cleaning_keeps_buyers (td : Column -> option Column)
    (sf : string -> option Q) (df out : DataFrame) :
  run_data_cleaning td sf df = Some out ->
  exists pre bought,
    cleaned_unfiltered td sf df = Some pre
    /\ index pre = index df
    /\ get_col bought_col (_clean_column_names df) = Some (ObjCol bought)
    /\ (exists kept,
          get_col bought_col out = Some (ObjCol kept)
          /\ forall cell, In cell kept ->
               exists s, cell = Some s /\ lower s = "yes")
    /\ (forall s, lower s = "no" -> kept_rows [Some s] = [false])
    /\ index out
       = seq 0 (List.length (mask_filter (kept_rows bought) (index df)))
    /\ forall name c,
         get_col name pre = Some c ->
         get_col name out = Some (col_filter (kept_rows bought) c).
Proof.
  intros H.
  destruct (run_data_cleaning_inv _ _ _ _ H) as (pre & bought & E & Hraw & Hpre & ->).
  destruct (cleaned_unfiltered_inv _ _ _ _ E) as (Hidx & _ & _).
  exists pre, bought. repeat split; try assumption.
  - exists (mask_filter (kept_rows bought)
              (map (fun cell => Some (clean_text cell)) bought)).
    split.
    + now rewrite get_reset_index, get_select_rows, Hpre.
    + intros cell Hin. unfold kept_rows in Hin.
      apply mask_filter_map_true in Hin as (x & _ & Hyes & ->).
      now apply is_yes_spec.
  - intros s Hs. unfold kept_rows. cbn [map]. now rewrite no_is_not_kept.
  - simpl. now rewrite Hidx.
  - intros name c Hc. now rewrite get_reset_index, get_select_rows, Hc.
Qed.

Lemma run_data_cleaning_keeps_buyers_witness :
  exists kept,
    get_col bought_col survey_example_cleaned = Some (ObjCol kept)
    /\ forall cell, In cell kept -> exists s, cell = Some s /\ lower s = "yes".
Proof.
  destruct (run_data_cleaning_keeps_buyers epoch_nanoseconds decimal_literal
              survey_example survey_example_cleaned)
    as (pre & bought & _ & _ & _ & Hkept & _).
  - vm_compute. reflexivity.
  - exact Hkept.
Defined.

(** *** The two scores *)

(** *** When cleaning returns *)

Lemma question_not_written (q : Question) :
  In q multiple_choice_mapping ->
  String.eqb (q_column q) "timestamp" = false.
Proof.
  simpl. intros [<- | [<- | [<- | []]]]; reflexivity.
Qed.

(** The source columns as the feature step finds them are those of the
    renamed table. *)
Lemma source_column_unchanged (x : string) (ts' : Column) (df df2 : DataFrame) :
  _handle_multiple_choice_columns (set_col "timestamp" ts' df) = Some df2 ->
  name_in x written_columns = false ->
  get_col x df2 = get_col x df.
Proof.
  intros E Hx. unfold written_columns in Hx. rewrite name_in_cons in Hx.
  apply orb_false_iff in Hx as [Hts Hx].
  rewrite name_in_app in Hx. apply orb_false_iff in Hx as [Hind _].
  destruct (handle_questions_frame _ _ _ E) as [_ F].
  now rewrite (F x Hind), get_set_other.
Qed.

(** The steps of [run_data_cleaning] that can fail: reading the
    timestamp, the text of a question column, the four source columns and
    the purchase question.  None of them looks into a cell of the two
    rating columns. *)
Lemma run_data_cleaning_succeeds (td : Column -> option Column)
    (sf : string -> option Q) (df : DataFrame) (ts ts' : Column)
    (bought : list (option string)) :
  get_col "timestamp" (_clean_column_names df) = Some ts ->
  td ts = Some ts' ->
  (forall q c, In q multiple_choice_mapping ->
               get_col (q_column q) (_clean_column_names df) = Some c ->
               exists cells, c = ObjCol cells) ->
  has_col age_group_col (_clean_column_names df) = true ->
  has_col income_range_col (_clean_column_names df) = true ->
  has_col familiarity_col (_clean_column_names df) = true ->
  has_col recommend_col (_clean_column_names df) = true ->
  get_col bought_col (_clean_column_names df) = Some (ObjCol bought) ->
  exists out,
    run_data_cleaning td sf df = Some out
    /\ get_col bought_col out
       = Some (ObjCol (mask_filter (kept_rows bought)
                         (map (fun cell => Some (clean_text cell)) bought))).
Proof.
  intros Hts Htd Hq Ha Hi Hf Hr Hb.
  set (r := _clean_column_names df) in *.
  destruct (handle_questions_result multiple_choice_mapping
              (set_col "timestamp" ts' r)) as (df2 & E2 & _);
    [reflexivity | apply question_columns_apart | |].
  { intros q c Hin. rewrite get_set_other by now apply question_not_written.
    now apply Hq. }
  change (_handle_multiple_choice_columns (set_col "timestamp" ts' r) = Some df2)
    in E2.
  assert (S : forall x, name_in x written_columns = false ->
                        get_col x df2 = get_col x r)
    by (intros x; now apply source_column_unchanged with ts').
  unfold has_col in Ha, Hi, Hf, Hr.
  destruct (get_col age_group_col r) as [age |] eqn:Ea; [| discriminate].
  destruct (get_col income_range_col r) as [income |] eqn:Ei; [| discriminate].
  destruct (get_col familiarity_col r) as [fam |] eqn:Ef; [| discriminate].
  destruct (get_col recommend_col r) as [rec |] eqn:Er; [| discriminate].
  assert (E3 : exists df3, _create_numeric_features sf df2 = Some df3
                 /\ get_col bought_col df3 = Some (ObjCol bought)).
  { unfold _create_numeric_features.
    rewrite (S age_group_col eq_refl), Ea. cbn [bind].
    rewrite get_set_other, (S income_range_col eq_refl), Ei by reflexivity.
    cbn [bind].
    rewrite !get_set_other, (S familiarity_col eq_refl), Ef by reflexivity.
    cbn [bind].
    rewrite !get_set_other, (S recommend_col eq_refl), Er by reflexivity.
    cbn [bind]. eexists. split; [reflexivity |].
    rewrite !get_set_other by reflexivity.
    now rewrite (S bought_col eq_refl). }
  destruct E3 as (df3 & E3 & Hb3).
  unfold run_data_cleaning, cleaned_unfiltered. fold r.
  rewrite Hts. cbn [bind]. rewrite Htd. cbn [bind]. rewrite E2. cbn [bind].
  rewrite E3. cbn [bind].
  unfold _filter_valid_responses, _handle_missing_values, _clean_text_columns.
  rewrite !get_map_cols, Hb3. cbn [option_map clean_text_column fillna_column bind].
  eexists. split; [reflexivity |].
  rewrite get_reset_index, get_select_rows, !get_map_cols, Hb3.
  cbn [option_map clean_text_column fillna_column col_filter].
  rewrite !map_map. reflexivity.
Qed.

(** *** The scores *)

Lemma filled_score_some (x : option Q) : filled_score x <> None.
Proof. discriminate. Qed.

(** C3, as stated, fails: in the table that [run_data_cleaning] returns
    for the small survey, the row whose familiarity answer is [abc] has
    the score 0, not a missing score, and the row whose answer is [7] has
    the score 7, outside 1..5. *)
Lemma cleaned_score_filled_with_zero :
  run_data_cleaning epoch_nanoseconds decimal_literal survey_example
  = Some survey_example_cleaned
  /\ get_col familiarity_col survey_example_cleaned
     = Some (ObjCol [Some "3"; Some "abc"; Some "7"])
  /\ get_col "isho_familiarity_score" survey_example_cleaned
     = Some (NumCol [Some 3%Q; Some 0%Q; Some 7%Q])
  /\ nth 1 [Some 3%Q; Some 0%Q; Some 7%Q] None <> None
  /\ ~ (7 <= 5)%Q.
Proof.
  split; [vm_compute; reflexivity |].
  split; [reflexivity |]. split; [reflexivity |].
  split; [discriminate |]. intros H. now apply H.
Qed.

(** C3 (amended).  Cleaning does not fail on account of what a rating
    cell holds: [run_data_cleaning] returns a table whenever, after the
    renaming, the column labels are unique, the timestamp column is
    present and is parsed, the question columns that are present and the
    purchase question are text columns and the four source columns are
    present, whatever the cells of the two rating columns are.  And in
    the table it returns, the two score columns hold, for the kept rows,
    the number read from the raw cell, and 0 where the raw cell is missing
    or is not a number: a raw "3" read as 3 gives the score 3, a raw text
    that is no number, such as "abc", gives the score 0; no score is
    missing after cleaning, and no range is imposed on it. *)
Theorem run_data_cleaning_scores (td : Column -> option Column)
    (sf : string -> option Q) (df : DataFrame) :
  (forall ts ts' bought,
     unique_labels (_clean_column_names df) = true ->
     get_col "timestamp" (_clean_column_names df) = Some ts ->
     td ts = Some ts' ->
     (forall q c, In q multiple_choice_mapping ->
                  get_col (q_column q) (_clean_column_names df) = Some c ->
                  exists cells, c = ObjCol cells) ->
     has_col age_group_col (_clean_column_names df) = true ->
     has_col income_range_col (_clean_column_names df) = true ->
     has_col familiarity_col (_clean_column_names df) = true ->
     has_col recommend_col (_clean_column_names df) = true ->
     get_col bought_col (_clean_column_names df) = Some (ObjCol bought) ->
     exists out, run_data_cleaning td sf df = Some out)
  /\ forall out,
       run_data_cleaning td sf df = Some out ->
       exists fam rec bought,
         get_col familiarity_col (_clean_column_names df) = Some fam
         /\ get_col recommend_col (_clean_column_names df) = Some rec
         /\ get_col bought_col (_clean_column_names df) = Some (ObjCol bought)
         /\ get_col "isho_familiarity_score" out
            = Some (NumCol (mask_filter (kept_rows bought)
                              (map filled_score (numeric_cells sf fam))))
         /\ get_col "recommendation_score" out
            = Some (NumCol (mask_filter (kept_rows bought)
                              (map filled_score (numeric_cells sf rec))))
         /\ (forall c cells, c = fam \/ c = rec -> c = ObjCol cells ->
               map filled_score (numeric_cells sf c)
               = map (score_of_text sf) cells)
         /\ (forall c cells, c = fam \/ c = rec -> c = NumCol cells ->
               numeric_cells sf c = cells)
         /\ (forall s q, sf s = Some q -> score_of_text sf (Some s) = Some q)
         /\ (forall s, sf s = None -> score_of_text sf (Some s) = Some 0%Q)
         /\ score_of_text sf None = Some 0%Q
         /\ forall x, filled_score x <> None.
Proof.
  split.
  { intros ts ts' bought _ Hts Htd Hq Ha Hi Hf Hr Hb.
    destruct (run_data_cleaning_succeeds td sf df ts ts' bought
                Hts Htd Hq Ha Hi Hf Hr Hb) as (out & E & _).
    now exists out. }
  intros out H.
  destruct (run_data_cleaning_inv _ _ _ _ H) as (pre & bought & E & Hraw & _ & ->).
  destruct (cleaned_unfiltered_inv _ _ _ _ E)
    as (_ & _ & fam & rec & Hfam & Hrec & Sfam & Srec).
  exists fam, rec, bought.
  split; [exact Hfam |]. split; [exact Hrec |]. split; [exact Hraw |].
  split; [now rewrite get_reset_index, get_select_rows, Sfam |].
  split; [now rewrite get_reset_index, get_select_rows, Srec |].
  split.
  { intros c cells _ ->. unfold numeric_cells, score_of_text. simpl.
    now rewrite map_map. }
  split; [now intros c cells _ -> |].
  split; [intros s q Hs; unfold score_of_text; simpl; now rewrite Hs |].
  split; [intros s Hs; unfold score_of_text; simpl; now rewrite Hs |].
  split; [reflexivity | apply filled_score_some].
Qed.

Lemma run_data_cleaning_scores_witness :
  (exists out,
      run_data_cleaning epoch_nanoseconds decimal_literal survey_example
      = Some out)
  /\ get_col "isho_familiarity_score" survey_example_cleaned
     = Some (NumCol (mask_filter [true; true; false; true]
                       (map (score_of_text decimal_literal)
                            [Some "3"; Some "abc"; Some "5"; Some "7"]))).
Proof.
  split.
  - apply (proj1 (run_data_cleaning_scores epoch_nanoseconds decimal_literal
                    survey_example)
             (NumCol [Some 1700000000%Q; Some 1700000060%Q;
                      Some 1700000120%Q; Some 1700000180%Q])
             (DtCol [Some 1700000000%Z; Some 1700000060%Z;
                     Some 1700000120%Z; Some 1700000180%Z])
             [Some "Yes"; Some "yes "; Some "No"; Some "YES"]);
      try reflexivity.
    intros q c Hq. simpl in Hq.
    destruct Hq as [<- | [<- | [<- | []]]]; vm_compute; intros [= <-]; eauto.
  - destruct (proj2 (run_data_cleaning_scores epoch_nanoseconds
                       decimal_literal survey_example)
                survey_example_cleaned)
      as (fam & rec & bought & Hfam & _ & Hb & Hscore & _ & Htext & _).
    + vm_compute. reflexivity.
    + vm_compute in Hfam. injection Hfam as <-.
      vm_compute in Hb. injection Hb as <-.
      rewrite Hscore. rewrite (Htext _ _ (or_introl eq_refl) eq_refl).
      reflexivity.
Defined.

End PipelineFacts.

Module AnalysisFacts.
Import Pandas PandasFacts Analysis.

Local Open Scope Z_scope.

(** *** Counting *)

Lemma total_cons (e : Label * Z) (s : Series) :
  total (e :: s) = snd e + total s.
Proof. reflexivity. Qed.

Lemma total_tally (x : Label) (acc : Series) :
  total (tally x acc) = total acc + 1.
Proof.
  induction acc as [| [y n] acc IH]; simpl; [reflexivity |].
  destruct (label_eqb x y); rewrite !total_cons; simpl; lia.
Qed.

Lemma tally_positive (x : Label) (acc : Series) :
  Forall (fun e => 1 <= snd e) acc ->
  Forall (fun e => 1 <= snd e) (tally x acc).
Proof.
  induction 1 as [| [y n] acc Hy Hacc IH]; simpl.
  - repeat constructor. simpl. lia.
  - simpl in Hy. destruct (label_eqb x y); constructor; simpl; auto; lia.
Qed.

Lemma count_values_from (ls : list Label) :
  forall (acc : Series) (m : nat),
    tallies m acc ->
    tallies (m + List.length ls)
            (fold_left (fun acc x => tally x acc) ls acc).
Proof.
  induction ls as [| x ls IH]; intros acc m [Ht Hp]; simpl.
  - rewrite Nat.add_0_r. now split.
  - replace (m + S (List.length ls))%nat with (S m + List.length ls)%nat by lia.
    apply IH. split; [| now apply tally_positive].
    rewrite total_tally, Ht. lia.
Qed.

Lemma count_values_tallies (ls : list Label) :
  tallies (List.length ls) (count_values ls).
Proof.
  apply (count_values_from ls [] 0%nat). split; [reflexivity | constructor].
Qed.

Lemma total_insert_desc (e : Label * Z) (s : Series) :
  total (insert_desc e s) = snd e + total s.
Proof.
  induction s as [| h s IH]; simpl; [reflexivity |].
  destruct (snd h <=? snd e); rewrite !total_cons; [reflexivity |].
  rewrite IH. lia.
Qed.

Lemma Forall_insert_desc (P : Label * Z -> Prop) (e : Label * Z) (s : Series) :
  P e -> Forall P s -> Forall P (insert_desc e s).
Proof.
  intros He. induction 1 as [| h s Hh Hs IH]; simpl.
  - now repeat constructor.
  - destruct (snd h <=? snd e); repeat constructor; auto.
Qed.

Lemma length_insert_desc (e : Label * Z) (s : Series) :
  List.length (insert_desc e s) = S (List.length s).
Proof.
  induction s as [| h s IH]; simpl; [reflexivity |].
  destruct (snd h <=? snd e); simpl; [reflexivity | now rewrite IH].
Qed.

Lemma total_sort_values_desc (s : Series) : total (sort_values_desc s) = total s.
Proof.
  induction s as [| e s IH]; simpl; [reflexivity |].
  rewrite total_insert_desc, total_cons, IH. reflexivity.
Qed.

Lemma Forall_sort_values_desc (P : Label * Z -> Prop) (s : Series) :
  Forall P s -> Forall P (sort_values_desc s).
Proof.
  induction 1; simpl; [constructor | now apply Forall_insert_desc].
Qed.

Lemma length_sort_values_desc (s : Series) :
  List.length (sort_values_desc s) = List.length s.
Proof.
  induction s as [| e s IH]; simpl; [reflexivity |].
  now rewrite length_insert_desc, IH.
Qed.

Lemma total_insert_label (e : Label * Z) (s : Series) :
  total (insert_label e s) = snd e + total s.
Proof.
  induction s as [| h s IH]; simpl; [reflexivity |].
  destruct (label_leb (fst e) (fst h)); rewrite !total_cons; [reflexivity |].
  rewrite IH. lia.
Qed.

Lemma Forall_insert_label (P : Label * Z -> Prop) (e : Label * Z) (s : Series) :
  P e -> Forall P s -> Forall P (insert_label e s).
Proof.
  intros He. induction 1 as [| h s Hh Hs IH]; simpl.
  - now repeat constructor.
  - destruct (label_leb (fst e) (fst h)); repeat constructor; auto.
Qed.

Lemma total_sort_index (s : Series) : total (sort_index s) = total s.
Proof.
  induction s as [| e s IH]; simpl; [reflexivity |].
  rewrite total_insert_label, total_cons, IH. reflexivity.
Qed.

Lemma Forall_sort_index (P : Label * Z -> Prop) (s : Series) :
  Forall P s -> Forall P (sort_index s).
Proof.
  induction 1; simpl; [constructor | now apply Forall_insert_label].
Qed.

Lemma tallies_sort_values_desc (m : nat) (s : Series) :
  tallies m s -> tallies m (sort_values_desc s).
Proof.
  intros [Ht Hp]. split; [now rewrite total_sort_values_desc |].
  now apply Forall_sort_values_desc.
Qed.

Lemma tallies_sort_index (m : nat) (s : Series) :
  tallies m s -> tallies m (sort_index s).
Proof.
  intros [Ht Hp]. split; [now rewrite total_sort_index |].
  now apply Forall_sort_index.
Qed.

Lemma value_counts_tallies (c : Column) :
  tallies (List.length (labels c)) (value_counts c).
Proof. apply tallies_sort_values_desc, count_values_tallies. Qed.

Lemma total_nonneg (s : Series) :
  Forall (fun e => 0 <= snd e) s -> 0 <= total s.
Proof.
  induction 1 as [| e s He Hs IH]; [unfold total; simpl; lia |].
  rewrite total_cons. lia.
Qed.

Lemma value_le_total (s : Series) :
  Forall (fun e => 0 <= snd e) s ->
  Forall (fun e => 0 <= snd e <= total s) s.
Proof.
  induction 1 as [| e s He Hs IH]; [constructor |].
  pose proof (total_nonneg s Hs) as Hn.
  constructor; rewrite total_cons; [lia |].
  revert IH. apply Forall_impl. intros a. lia.
Qed.

(** *** Rounding *)

Lemma round_half_even_near (a b : Z) :
  0 < b ->
  - b <= 2 * (round_half_even a b * b) - 2 * a <= b.
Proof.
  intros Hb. unfold round_half_even.
  pose proof (Z.div_mod a b ltac:(lia)) as Hdm.
  pose proof (Z.mod_pos_bound a b Hb) as Hm.
  set (q := a / b) in *. set (r := a mod b) in *.
  destruct (2 * r <? b) eqn:E1; [apply Z.ltb_lt in E1; nia |].
  apply Z.ltb_ge in E1.
  destruct (b <? 2 * r) eqn:E2; [apply Z.ltb_lt in E2; nia |].
  apply Z.ltb_ge in E2.
  destruct (Z.even q); nia.
Qed.

Lemma pct_near (n : nat) (c : Z) :
  (0 < n)%nat ->
  - Z.of_nat n <= 2 * (pct n c * Z.of_nat n) - 2000 * c <= Z.of_nat n.
Proof.
  intros Hn. unfold pct.
  pose proof (round_half_even_near (1000 * c) (Z.of_nat n) ltac:(lia)). lia.
Qed.

Lemma pct_within (n : nat) (c : Z) :
  (0 < n)%nat -> 0 <= c <= Z.of_nat n -> 0 <= pct n c <= 1000.
Proof.
  intros Hn Hc. pose proof (pct_near n c Hn) as H. nia.
Qed.

Lemma total_pct_series (n : nat) (e : Label * Z) (s : Series) :
  total (pct_series n (e :: s)) = pct n (snd e) + total (pct_series n s).
Proof. reflexivity. Qed.

Lemma length_pct_series (n : nat) (s : Series) :
  List.length (pct_series n s) = List.length s.
Proof. apply length_map. Qed.

(** The percentages of a Series sum to the percentage of its total, within
    0.05 for each of its values. *)
Lemma pct_series_near (n : nat) (s : Series) :
  (0 < n)%nat ->
  - Z.of_nat n * Z.of_nat (List.length s)
  <= 2 * (total (pct_series n s) * Z.of_nat n) - 2000 * total s
  <= Z.of_nat n * Z.of_nat (List.length s).
Proof.
  intros Hn. induction s as [| e s IH].
  - unfold total. simpl. lia.
  - rewrite total_pct_series, total_cons.
    pose proof (pct_near n (snd e) Hn) as He.
    cbn [List.length]. rewrite Nat2Z.inj_succ. nia.
Qed.

Lemma pct_series_within (n : nat) (s : Series) :
  (0 < n)%nat ->
  Forall (fun e => 0 <= snd e <= Z.of_nat n) s ->
  within_100 (pct_series n s).
Proof.
  intros Hn. unfold within_100, pct_series. rewrite Forall_map.
  apply Forall_impl. intros e He. simpl. now apply pct_within.
Qed.

(** *** Single-select breakdowns *)

Lemma tallies_empty (s : Series) : tallies 0 s -> s = [].
Proof.
  intros [Ht Hp]. destruct s as [| e s]; [reflexivity |].
  apply Forall_cons_iff in Hp as [He Hs].
  assert (0 <= total s).
  { apply total_nonneg. revert Hs. apply Forall_impl. intros a. lia. }
  rewrite total_cons in Ht. simpl in Ht. lia.
Qed.

Lemma tallies_bounds (m n : nat) (s : Series) :
  tallies m s -> (m <= n)%nat ->
  within_100 (pct_series n s)
  /\ 2 * total (pct_series n s) <= 2000 + Z.of_nat (List.length (pct_series n s))
  /\ (m = n -> (0 < n)%nat ->
      2000 - Z.of_nat (List.length (pct_series n s))
      <= 2 * total (pct_series n s)).
Proof.
  intros Ht Hmn. destruct (Nat.eq_dec n 0) as [-> | Hn].
  - assert (m = 0%nat) by lia. subst m. rewrite (tallies_empty s Ht).
    repeat split; [constructor | simpl; lia | lia].
  - assert (Hpos : (0 < n)%nat) by lia.
    destruct Ht as [Ht Hp].
    assert (H0 : Forall (fun e => 0 <= snd e) s)
      by (revert Hp; apply Forall_impl; intros a; lia).
    pose proof (pct_series_near n s Hpos) as Hnear.
    rewrite length_pct_series. repeat split.
    + apply pct_series_within; [assumption |].
      pose proof (value_le_total s H0) as Hle.
      revert Hle. apply Forall_impl. intros a. lia.
    + nia.
    + intros -> _. nia.
Qed.

Lemma tallies_total_total (m : nat) (s : Series) :
  tallies m s -> total s = Z.of_nat m.
Proof. now intros [Ht _]. Qed.

(** *** Columns *)

Lemma length_present {A : Type} (l : list (option A)) :
  (List.length (present l) <= List.length l)%nat.
Proof.
  induction l as [| [a |] l IH]; simpl; lia.
Qed.

Lemma length_labels (c : Column) : (List.length (labels c) <= col_len c)%nat.
Proof.
  destruct c as [l | l | l]; simpl; rewrite length_map; apply length_present.
Qed.

Lemma length_mask_filter {A : Type} (mask : list bool) (l : list A) :
  (List.length (mask_filter mask l) <= List.length l)%nat.
Proof.
  revert l. induction mask as [| b mask IH]; intros [| x l]; simpl; try lia.
  specialize (IH l). destruct b; simpl; lia.
Qed.

Lemma col_len_filter (mask : list bool) (c : Column) :
  (col_len (col_filter mask c) <= col_len c)%nat.
Proof. destruct c; simpl; apply length_mask_filter. Qed.

Lemma subgroup_len (by_col value name : string) (df : DataFrame) (c : Column) :
  aligned df ->
  subgroup by_col value name df = Some c ->
  (col_len c <= len df)%nat.
Proof.
  intros Hal. unfold subgroup.
  destruct (get_col by_col df) as [b |]; [| discriminate]. cbn [bind].
  rewrite get_select_rows.
  destruct (get_col name df) as [c0 |] eqn:E; [| discriminate].
  cbn [option_map bind]. intros [= <-].
  rewrite <- (Hal _ _ E). apply col_len_filter.
Qed.

(** *** Multi-select breakdowns *)

Lemma dummy_bit (tag : string) (cell : option string) :
  0 <= dummy tag cell <= 1.
Proof. unfold dummy. destruct (existsb _ _); lia. Qed.

Lemma dummy_sum_bound (tag : string) (cells : list (option string)) :
  0 <= fold_right Z.add 0 (map (dummy tag) cells)
  <= Z.of_nat (List.length cells).
Proof.
  induction cells as [| c cells IH]; [simpl; lia |].
  cbn [map fold_right List.length]. rewrite Nat2Z.inj_succ.
  pose proof (dummy_bit tag c). lia.
Qed.

Lemma get_dummies_sum_bound (c : Column) (s : Series) :
  get_dummies_sum c = Some s ->
  Forall (fun e => 0 <= snd e <= Z.of_nat (col_len c)) s.
Proof.
  destruct c as [cells | l | l]; try discriminate. simpl.
  intros [= <-]. rewrite Forall_map. apply Forall_forall.
  intros tag _. simpl. apply dummy_sum_bound.
Qed.

Lemma get_dummies_sum_empty (c : Column) (s : Series) :
  get_dummies_sum c = Some s -> col_len c = 0%nat -> s = [].
Proof.
  destruct c as [cells | l | l]; try discriminate. simpl.
  intros [= <-] Hl. destruct cells; [reflexivity | discriminate].
Qed.

Lemma dummies_within (n : nat) (c : Column) (s : Series) :
  get_dummies_sum c = Some s -> (col_len c <= n)%nat ->
  within_100 (pct_series n s).
Proof.
  intros Hs Hle. destruct (Nat.eq_dec n 0) as [-> | Hn].
  - rewrite (get_dummies_sum_empty c s Hs); [constructor | lia].
  - apply pct_series_within; [lia |].
    pose proof (get_dummies_sum_bound c s Hs) as Hb.
    revert Hb. apply Forall_impl. intros e. lia.
Qed.

Lemma within_100_sorted (n : nat) (s : Series) :
  within_100 (pct_series n s) ->
  within_100 (pct_series n (sort_values_desc s)).
Proof.
  unfold within_100, pct_series. rewrite !Forall_map.
  apply Forall_sort_values_desc.
Qed.

(** *** The breakdowns of the analyzers *)

Lemma column_bounds (n : nat) (c : Column) :
  (col_len c <= n)%nat ->
  within_100 (pct_series n (value_counts c))
  /\ 2 * total (pct_series n (value_counts c))
     <= 2000 + Z.of_nat (List.length (pct_series n (value_counts c)))
  /\ within_100 (pct_series n (sort_index (value_counts c)))
  /\ 2 * total (pct_series n (sort_index (value_counts c)))
     <= 2000
        + Z.of_nat (List.length (pct_series n (sort_index (value_counts c)))).
Proof.
  intros Hle. pose proof (length_labels c) as Hl.
  pose proof (value_counts_tallies c) as Ht.
  destruct (tallies_bounds _ n _ Ht ltac:(lia)) as (H1 & H2 & _).
  destruct (tallies_bounds _ n _ (tallies_sort_index _ _ Ht) ltac:(lia))
    as (H3 & H4 & _).
  auto.
Qed.

(** C1, as stated, fails.  A multi-select breakdown counts a row under
    every label it mentions: one row answering [Modern,Traditional] gives
    100.0 + 100.0.  Rounding moves a single-select sum off 100: six
    answers, all different, give 6 x 16.7 = 100.2, three give
    3 x 33.3 = 99.9. *)
Lemma percentages_do_not_sum_to_100 :
  (exists b,
      analyze_furniture_types one_row_two_types = Some b
      /\ total (percentages b) = 2000
      /\ ~ total (percentages b) <= 1000)
  /\ no_missing six_answers
  /\ total (pct_series 6 (value_counts six_answers)) = 1002
  /\ no_missing three_answers
  /\ total (pct_series 3 (value_counts three_answers)) = 999.
Proof.
  split.
  - eexists. split; [reflexivity |]. split; [reflexivity |].
    vm_compute. intros H. now apply H.
  - repeat split.
Qed.

(** C1 (amended): in a table whose columns have one cell per row, every
    percentage of a breakdown lies between 0 and 100, for the multi-select
    breakdown of [analyze_furniture_types] and for each breakdown of
    [get_brand_perceptions]; the percentages of a single-select breakdown
    with k categories sum to at most 100 + 0.05 k, and with no missing
    value and at least one row to no less than 100 - 0.05 k.  (Sums are
    in tenths of a percent, doubled.) *)
Theorem percentages_bounds (df : DataFrame) :
  aligned df ->
  (forall b, analyze_furniture_types df = Some b ->
             within_100 (percentages b))
  /\ (forall r key b,
        get_brand_perceptions df = Some r -> In (key, b) r ->
        within_100 (percentages b)
        /\ (key <> "factors"%string ->
            2 * total (percentages b)
            <= 2000 + Z.of_nat (List.length (percentages b))))
  /\ (forall name c,
        get_col name df = Some c ->
        let p := pct_series (len df) (value_counts c) in
        within_100 p
        /\ 2 * total p <= 2000 + Z.of_nat (List.length p)
        /\ (no_missing c -> (0 < len df)%nat ->
            2000 - Z.of_nat (List.length p) <= 2 * total p)).
Proof.
  intros Hal. split; [| split].
  - intros b. unfold analyze_furniture_types.
    destruct (get_col furniture_type_col df) as [c |] eqn:Ec; [| discriminate].
    cbn [bind].
    destruct (get_dummies_sum c) as [s |] eqn:Es; [| discriminate].
    cbn [bind]. intros [= <-]. cbn [percentages].
    apply within_100_sorted. apply (dummies_within _ c); [assumption |].
    rewrite (Hal _ _ Ec). lia.
  - intros r key b. unfold get_brand_perceptions.
    destruct (subgroup isho_bought_col "Yes" isho_words_col df)
      as [ba |] eqn:E1; [| discriminate]. cbn [bind].
    destruct (subgroup isho_bought_col "No" isho_words_col df)
      as [nba |] eqn:E2; [| discriminate]. cbn [bind].
    destruct (subgroup isho_bought_col "Yes" isho_factors_col df)
      as [fc |] eqn:E3; [| discriminate]. cbn [bind].
    destruct (get_dummies_sum fc) as [factors |] eqn:E4; [| discriminate].
    cbn [bind].
    destruct (subgroup isho_bought_col "Yes" isho_compared_col df)
      as [cmp |] eqn:E5; [| discriminate]. cbn [bind].
    destruct (subgroup isho_bought_col "No" isho_compared_col df)
      as [ncmp |] eqn:E6; [| discriminate]. cbn [bind].
    destruct (get_col isho_recommend_col df) as [rc |] eqn:E7;
      [| discriminate]. cbn [bind].
    intros [= <-] Hin.
    pose proof (column_bounds (len df) ba (subgroup_len _ _ _ _ _ Hal E1)) as B1.
    pose proof (column_bounds (len df) nba (subgroup_len _ _ _ _ _ Hal E2)) as B2.
    pose proof (column_bounds (len df) cmp (subgroup_len _ _ _ _ _ Hal E5)) as B5.
    pose proof (column_bounds (len df) ncmp (subgroup_len _ _ _ _ _ Hal E6)) as B6.
    assert (L7 : (col_len rc <= len df)%nat) by (rewrite (Hal _ _ E7); lia).
    pose proof (column_bounds (len df) rc L7) as B7.
    pose proof (dummies_within (len df) fc factors E4
                  (subgroup_len _ _ _ _ _ Hal E3)) as B4.
    cbn [In] in Hin.
    destruct Hin as [[= <- <-] | [[= <- <-] | [[= <- <-] | [[= <- <-]
                    | [[= <- <-] | [[= <- <-] | []]]]]]];
      cbn [percentages]; split; tauto.
  - intros name c Ec. cbv zeta.
    pose proof (value_counts_tallies c) as Ht.
    pose proof (length_labels c) as Hl. rewrite (Hal _ _ Ec) in Hl.
    destruct (tallies_bounds _ (len df) _ Ht Hl) as (H1 & H2 & H3).
    repeat split; [exact H1 | exact H2 |].
    intros Hno Hpos. apply H3; [| exact Hpos].
    unfold no_missing in Hno. rewrite Hno. now apply Hal with name.
Qed.

Lemma aligned_check (df : DataFrame) :
  forallb (fun nc => Nat.eqb (col_len (snd nc)) (len df)) (columns df) = true ->
  aligned df.
Proof.
  intros H name c. unfold get_col.
  induction (columns df) as [| [n c0] cols IH]; simpl; [discriminate |].
  simpl in H. apply andb_prop in H as [H0 H].
  destruct (String.eqb n name); [| now apply IH].
  intros [= <-]. now apply Nat.eqb_eq.
Qed.

Lemma brand_example_aligned : aligned brand_example.
Proof. apply aligned_check. reflexivity. Qed.

Lemma percentages_bounds_witness :
  aligned brand_example
  /\ exists b,
       analyze_furniture_types brand_example = Some b
       /\ within_100 (percentages b).
Proof.
  split; [exact brand_example_aligned |].
  eexists. split; [reflexivity |].
  apply (proj1 (percentages_bounds brand_example brand_example_aligned)).
  reflexivity.
Defined.

Lemma pct_series_shares (n : nat) (s : Series) :
  (0 < n)%nat -> shares_of n s (pct_series n s).
Proof.
  intros Hn. unfold shares_of, pct_series.
  induction s as [| e s IH]; cbn [map]; constructor; [| exact IH].
  split; [reflexivity |]. cbn [snd]. now apply pct_near.
Qed.

(** C10: in the brand analyzer every percentages Series, those of the
    buyer-only and non-buyer-only breakdowns included, gives label for
    label the count as a share of the number of rows of the whole table:
    the value with one decimal nearest to 100 x count / len(df).  The
    size of the subgroup is not the denominator: one buyer among four
    rows, counted once, is reported as 25.0. *)
Theorem brand_percentages_over_all_rows (df : DataFrame) :
  (0 < len df)%nat ->
  (forall r key b,
      get_brand_awareness df = Some r -> In (key, b) r ->
      shares_of (len df) (counts b) (percentages b))
  /\ (forall r key b,
        get_brand_perceptions df = Some r -> In (key, b) r ->
        shares_of (len df) (counts b) (percentages b))
  /\ (forall b,
        analyze_non_purchase_reasons df = Some b ->
        shares_of (len df) (counts b) (percentages b)).
Proof.
  intros Hn. split; [| split].
  - intros r key b. unfold get_brand_awareness.
    destruct (get_col isho_familiar_col df); [| discriminate]. cbn [bind].
    destruct (get_col isho_feedback_col df); [| discriminate]. cbn [bind].
    destruct (get_col isho_bought_col df); [| discriminate]. cbn [bind].
    intros [= <-] Hin. cbn [In] in Hin.
    destruct Hin as [[= <- <-] | [[= <- <-] | [[= <- <-] | []]]];
      cbn [counts percentages]; now apply pct_series_shares.
  - intros r key b. unfold get_brand_perceptions.
    repeat match goal with
           | |- context [bind ?m _] =>
               destruct m; [cbn [bind] | discriminate]
           end.
    intros [= <-] Hin. cbn [In] in Hin.
    destruct Hin as [[= <- <-] | [[= <- <-] | [[= <- <-] | [[= <- <-]
                    | [[= <- <-] | [[= <- <-] | []]]]]]];
      cbn [counts percentages]; now apply pct_series_shares.
  - intros b. unfold analyze_non_purchase_reasons.
    destruct (get_col isho_reason_col df); [| discriminate]. cbn [bind].
    intros [= <-]. cbn [counts percentages]. now apply pct_series_shares.
Qed.

Lemma brand_percentages_over_all_rows_witness :
  exists b,
    In ("buyers_associations"%string, b)
       (default [] (get_brand_perceptions brand_example))
    /\ counts b = [(LStr "Stylish", 1)]
    /\ percentages b = [(LStr "Stylish", 250)]
    /\ shares_of 4 (counts b) (percentages b).
Proof.
  exists (mkBreakdown [(LStr "Stylish", 1)] [(LStr "Stylish", 250)]).
  assert (Hin : In ("buyers_associations"%string,
                    mkBreakdown [(LStr "Stylish", 1)] [(LStr "Stylish", 250)])
                   (default [] (get_brand_perceptions brand_example)))
    by (vm_compute; auto).
  split; [exact Hin |]. split; [reflexivity |]. split; [reflexivity |].
  destruct (brand_percentages_over_all_rows brand_example) as (_ & H & _).
  - vm_compute. lia.
  - apply (H (default [] (get_brand_perceptions brand_example))
             "buyers_associations"%string);
      [vm_compute; reflexivity | exact Hin].
Defined.

End AnalysisFacts.

Module StatisticalFacts.
Import Pandas Statistical.

Lemma map_flat_map {A B C : Type} (f : B -> C) (g : A -> list B) (l : list A) :
  map f (flat_map g l) = flat_map (fun a => map f (g a)) l.
Proof.
  induction l as [| a l IH]; simpl; [reflexivity |].
  now rewrite map_app, IH.
Qed.

Lemma reported_pairs (res : Correlations) :
  reported res
  = pairs_if (fun i j => String.ltb i j && below_005 (loc (p_values res) i j))
             (matrix_index (correlation_matrix res))
             (matrix_columns (correlation_matrix res)).
Proof.
  unfold reported, significant_lines, pairs_if. rewrite map_flat_map.
  apply flat_map_ext. intros i. rewrite map_flat_map.
  apply flat_map_ext. intros j.
  now destruct (String.ltb i j && below_005 (loc (p_values res) i j)).
Qed.

Lemma in_pairs_if (c : string -> string -> bool) (idx cols : list string)
    (i j : string) :
  In (i, j) (pairs_if c idx cols) <-> In i idx /\ In j cols /\ c i j = true.
Proof.
  unfold pairs_if. rewrite in_flat_map. split.
  - intros (a & Ha & H). apply in_flat_map in H as (b & Hb & H).
    destruct (c a b) eqn:E; [| destruct H].
    destruct H as [[= <- <-] | []]. auto.
  - intros (Hi & Hj & Hc). exists i. split; [assumption |].
    apply in_flat_map. exists j. split; [assumption |].
    rewrite Hc. now left.
Qed.

Lemma NoDup_row (c : string -> string -> bool) (i : string)
    (cols : list string) :
  NoDup cols ->
  NoDup (flat_map (fun j => if c i j then [(i, j)] else []) cols).
Proof.
  induction 1 as [| x cols Hx Hcols IH]; simpl; [constructor |].
  destruct (c i x); simpl; [| assumption].
  constructor; [| assumption].
  intros Hin. apply in_flat_map in Hin as (b & Hb & Hin).
  destruct (c i b); [| destruct Hin].
  destruct Hin as [[= ->] | []]. contradiction.
Qed.

Lemma NoDup_pairs_if (c : string -> string -> bool) (idx cols : list string) :
  NoDup idx -> NoDup cols -> NoDup (pairs_if c idx cols).
Proof.
  intros Hidx Hcols. induction Hidx as [| x idx Hx Hidx IH]; [constructor |].
  change (pairs_if c (x :: idx) cols)
    with (flat_map (fun j => if c x j then [(x, j)] else []) cols
          ++ pairs_if c idx cols)%list.
  apply NoDup_app; [now apply NoDup_row | assumption |].
  intros [a b] Ha Hb.
  apply in_flat_map in Ha as (j & Hj & Ha).
  destruct (c x j); [| destruct Ha]. destruct Ha as [[= <- <-] | []].
  apply in_pairs_if in Hb as (Hb & _). contradiction.
Qed.

Lemma below_005_spec (x : option Q) :
  below_005 x = true <-> exists p, x = Some p /\ (p < 5 # 100)%Q.
Proof.
  destruct x as [p |]; simpl.
  - rewrite negb_true_iff. split.
    + intros H. exists p. split; [reflexivity |].
      apply Qnot_le_lt. intros Hle. apply Qle_bool_iff in Hle. congruence.
    + intros (q & [= <-] & Hlt).
      destruct (Qle_bool (5 # 100) p) eqn:E; [| reflexivity].
      apply Qle_bool_iff in E. exfalso. now apply (Qlt_not_le _ _ Hlt).
  - split; [discriminate | intros (p & H & _); discriminate].
Qed.

Lemma numeric_cols_NoDup : NoDup numeric_cols.
Proof.
  unfold numeric_cols.
  repeat (constructor; [simpl; intuition discriminate |]). constructor.
Qed.

(** The names of the four features are in alphabetical order. *)
Lemma numeric_cols_ordered (i j : string) :
  In i numeric_cols -> In j numeric_cols -> i <> j ->
  String.ltb i j = true \/ String.ltb j i = true.
Proof.
  unfold numeric_cols. simpl.
  intros [<- | [<- | [<- | [<- | []]]]] [<- | [<- | [<- | [<- | []]]]] Hne;
    try (now elim Hne); auto.
Qed.

Lemma ltb_irrefl_pair (i j : string) :
  String.ltb i j = true -> String.ltb j i = false.
Proof.
  unfold String.ltb. rewrite (String.compare_antisym j i).
  destruct (String.compare i j); simpl; congruence.
Qed.

Section WithScipy.

Variable corr : list (option Q) -> list (option Q) -> option Q.
Variable pearsonr_p : list Q -> list Q -> option Q.

Lemma analyze_correlations_inv (df : DataFrame) (res : Correlations) :
  analyze_correlations corr pearsonr_p df = Some res ->
  matrix_index (correlation_matrix res) = numeric_cols
  /\ matrix_columns (correlation_matrix res) = numeric_cols
  /\ forall i j x y,
       In i numeric_cols -> In j numeric_cols -> String.ltb i j = true ->
       numeric_column df i = Some x -> numeric_column df j = Some y ->
       loc (p_values res) i j = pearsonr_p (fillna0 x) (fillna0 y).
Proof.
  unfold analyze_correlations. cbn [Cleaner.traverse numeric_cols].
  destruct (numeric_column df "age_numeric") as [x1 |] eqn:E1;
    [| discriminate]. cbn [bind].
  destruct (numeric_column df "income_numeric") as [x2 |] eqn:E2;
    [| discriminate]. cbn [bind].
  destruct (numeric_column df "isho_familiarity_score") as [x3 |] eqn:E3;
    [| discriminate]. cbn [bind].
  destruct (numeric_column df "recommendation_score") as [x4 |] eqn:E4;
    [| discriminate]. cbn [bind].
  intros [= <-]. split; [reflexivity |]. split; [reflexivity |].
  intros i j x y Hi Hj Hlt Hx Hy. simpl in Hi, Hj.
  destruct Hi as [<- | [<- | [<- | [<- | []]]]];
    destruct Hj as [<- | [<- | [<- | [<- | []]]]];
    vm_compute in Hlt; try discriminate Hlt;
    vm_compute; congruence.
Qed.

(** C8: among the lines printed under "Significant Correlations", no pair
    of columns occurs twice, in either order; a line is printed for the
    pair [i], [j] only with [i < j], which holds for exactly one order of
    two distinct features; and the pair is reported exactly when the
    p-value of [pearsonr] on the two columns, missing values filled with
    0, is strictly less than 0.05. *)
Theorem significant_pairs_reported_once (df : DataFrame) (res : Correlations) :
  analyze_correlations corr pearsonr_p df = Some res ->
  NoDup (reported res)
  /\ (forall i j, In (i, j) (reported res) ->
        In i numeric_cols /\ In j numeric_cols /\ String.ltb i j = true
        /\ ~ In (j, i) (reported res))
  /\ (forall i j, In i numeric_cols -> In j numeric_cols -> i <> j ->
        String.ltb i j = true \/ String.ltb j i = true)
  /\ (forall i j x y,
        In i numeric_cols -> In j numeric_cols -> String.ltb i j = true ->
        numeric_column df i = Some x -> numeric_column df j = Some y ->
        (In (i, j) (reported res)
         <-> exists p, pearsonr_p (fillna0 x) (fillna0 y) = Some p
                       /\ (p < 5 # 100)%Q)).
Proof.
  intros H. destruct (analyze_correlations_inv df res H) as (Hidx & Hcols & Hloc).
  rewrite reported_pairs, Hidx, Hcols. split; [| split; [| split]].
  - apply NoDup_pairs_if; apply numeric_cols_NoDup.
  - intros i j Hin. apply in_pairs_if in Hin as (Hi & Hj & Hc).
    apply andb_prop in Hc as [Hlt _]. repeat split; try assumption.
    intros Hrev. apply in_pairs_if in Hrev as (_ & _ & Hc').
    apply andb_prop in Hc' as [Hlt' _].
    rewrite (ltb_irrefl_pair _ _ Hlt) in Hlt'. discriminate.
  - apply numeric_cols_ordered.
  - intros i j x y Hi Hj Hlt Hx Hy.
    rewrite in_pairs_if, Hlt, (Hloc i j x y Hi Hj Hlt Hx Hy).
    rewrite <- below_005_spec. simpl. tauto.
Qed.

End WithScipy.

Lemma significant_pairs_reported_once_witness :
  exists res,
    analyze_correlations no_corr same_columns_p features_example = Some res
    /\ NoDup (reported res)
    /\ reported res = [("isho_familiarity_score", "recommendation_score")]%string.
Proof.
  eexists. split; [reflexivity |].
  split; [| reflexivity].
  apply (significant_pairs_reported_once no_corr same_columns_p
           features_example).
  reflexivity.
Defined.

End StatisticalFacts.

Module AdvancedFacts.
Import Pandas PandasFacts Analysis Statistical Advanced.

(** *** Resampling a constant column *)

Lemma choice_indices_spec (high size : nat) :
  (0 < high)%nat ->
  forall g : RandomState,
    List.length (fst (choice_indices high size g)) = size
    /\ Forall (fun i => (i < high)%nat) (fst (choice_indices high size g)).
Proof.
  intros Hh. induction size as [| k IH]; intros g; simpl.
  - split; [reflexivity | constructor].
  - destruct (choice_indices high k (fun i => g (S i))) as [rest g2] eqn:E.
    specialize (IH (fun i => g (S i))). rewrite E in IH. simpl in IH.
    destruct IH as [Hl Hf]. simpl. split; [now rewrite Hl |].
    constructor; [| assumption]. apply Nat.mod_upper_bound. lia.
Qed.

Lemma map_constant {A B : Type} (f : A -> B) (b : B) (l : list A) :
  Forall (fun a => f a = b) l -> map f l = repeat b (List.length l).
Proof.
  induction 1 as [| a l Ha Hl IH]; simpl; [reflexivity |].
  now rewrite Ha, IH.
Qed.

Lemma choice_constant (v : Q) (n size : nat) (g : RandomState) :
  (0 < n)%nat ->
  fst (choice (repeat v n) size g) = repeat v size.
Proof.
  intros Hn. unfold choice. rewrite repeat_length.
  destruct (choice_indices_spec n size Hn g) as [Hl Hf].
  destruct (choice_indices n size g) as [idx g']. simpl in *.
  rewrite <- Hl. apply map_constant.
  revert Hf. apply Forall_impl. intros i Hi. now apply nth_repeat_lt.
Qed.

Lemma resample_means_constant (v : Q) (n k : nat) :
  (0 < n)%nat ->
  forall g : RandomState,
    fst (resample_means (repeat v n) k g) = repeat (mean (repeat v n)) k.
Proof.
  intros Hn. induction k as [| k IH]; intros g; [reflexivity |].
  cbn [resample_means]. rewrite repeat_length.
  pose proof (choice_constant v n n g Hn) as Hc.
  destruct (choice (repeat v n) n g) as [sample g1]. simpl in Hc. subst sample.
  specialize (IH g1).
  destruct (resample_means (repeat v n) k g1) as [rest g2]. simpl in IH.
  subst rest. reflexivity.
Qed.

(** *** Whole numbers in binary64 *)

Section WholeNumbers.
Local Open Scope Z_scope.

Lemma round_half_even_1 (a : Z) : Analysis.round_half_even a 1 = a.
Proof.
  unfold Analysis.round_half_even. rewrite Z.mod_1_r, Z.div_1_r. reflexivity.
Qed.

Lemma round_double_comp (x y : Q) : (x == y)%Q -> round_double x = round_double y.
Proof. intros H. unfold round_double. now rewrite (Qred_complete _ _ H). Qed.

Lemma Qred_inject_Z (z : Z) : Qred (inject_Z z) = inject_Z z.
Proof. apply Qcanon.Qred_identity. simpl. apply Z.gcd_1_r. Qed.

Lemma scale2_shift (z k : Z) :
  0 <= k -> (scale2 (z * 2 ^ k) (- k) == inject_Z z)%Q.
Proof.
  intros Hk. unfold scale2. destruct (Z.eq_dec k 0) as [-> | Hne].
  - simpl. rewrite Z.mul_1_r. rewrite Z.mul_1_r. reflexivity.
  - assert (E : (0 <=? - k) = false) by (apply Z.leb_gt; lia).
    rewrite E, Z.opp_involutive. unfold Qeq. simpl.
    rewrite Z2Pos.id by (apply Z.pow_pos_nonneg; lia). lia.
Qed.

(** A whole number of magnitude at most 2^53 is a binary64 number. *)
Lemma round_double_Z (z : Z) :
  Z.abs z <= 2 ^ 53 -> (round_double (inject_Z z) == inject_Z z)%Q.
Proof.
  intros Hz. unfold round_double. rewrite Qred_inject_Z. cbn [Qnum Qden inject_Z].
  destruct (Z.eqb_spec z 0) as [-> | Hne]; [reflexivity |].
  rewrite Qred_correct.
  set (a := Z.abs z). assert (Ha : 0 < a) by (unfold a; lia).
  assert (He : binary_exponent a 1 = Z.log2 a).
  { unfold binary_exponent. change (Z.log2 1) with 0. rewrite Z.sub_0_r.
    pose proof (Z.log2_nonneg a) as Hl.
    destruct (Z.leb_spec 0 (Z.log2 a)) as [_ | H]; [| lia].
    rewrite Z.mul_1_l.
    destruct (Z.leb_spec (2 ^ Z.log2 a) a) as [_ | H]; [reflexivity |].
    pose proof (Z.log2_spec a Ha). lia. }
  rewrite He.
  pose proof (Z.log2_spec a Ha) as [Hlo Hhi].
  pose proof (Z.log2_nonneg a) as Hl.
  assert (Hle : Z.log2 a <= 53).
  { change 53 with (Z.log2 (2 ^ 53)). apply Z.log2_le_mono. exact Hz. }
  assert (Hsg : Z.sgn z * a = z) by (unfold a; destruct z; reflexivity).
  set (k := 52 - Z.log2 a) in *.
  destruct (Z.le_gt_cases 0 k) as [Hk | Hk].
  - unfold round_scaled.
    destruct (Z.leb_spec 0 k) as [_ | H]; [| lia].
    rewrite round_half_even_1, Z.mul_assoc, Hsg. now apply scale2_shift.
  - assert (Ek : k = -1) by lia.
    assert (El : Z.log2 a = 53) by lia.
    rewrite El in Hlo. assert (Ea : a = 2 ^ 53) by lia.
    rewrite Ek. unfold round_scaled, scale2. cbn [Z.leb Z.opp Z.compare].
    rewrite Ea.
    change (Analysis.round_half_even (2 ^ 53) (1 * 2 ^ 1)) with (2 ^ 52).
    replace (Z.sgn z * 2 ^ 52 * 2 ^ 1) with z; [reflexivity |].
    rewrite <- Z.mul_assoc. change (2 ^ 52 * 2 ^ 1) with (2 ^ 53).
    rewrite <- Ea. symmetry. exact Hsg.
Qed.

Lemma fold_fadd_comp (l : list Q) (x y : Q) :
  (x == y)%Q -> (fold_left fadd l x == fold_left fadd l y)%Q.
Proof.
  intros H. destruct l as [| c l]; [exact H |].
  cbn [fold_left]. unfold fadd at 2 4.
  rewrite (round_double_comp (x + c) (y + c)) by now rewrite H.
  reflexivity.
Qed.

(** Whole numbers add up without rounding while the sums stay within
    2^53. *)
Lemma fsum_repeat (z : Z) (n : nat) :
  forall j : nat,
    Z.abs (Z.of_nat (j + n) * z) <= 2 ^ 53 ->
    (fold_left fadd (repeat (inject_Z z) n) (inject_Z (Z.of_nat j * z))
     == inject_Z (Z.of_nat (j + n) * z))%Q.
Proof.
  induction n as [| n IH]; intros j Hb.
  - rewrite Nat.add_0_r. reflexivity.
  - cbn [repeat fold_left].
    assert (Hj : Z.abs (Z.of_nat (S j) * z) <= 2 ^ 53).
    { rewrite Z.abs_mul in *. rewrite !Z.abs_eq in * by lia.
      pose proof (Z.abs_nonneg z). nia. }
    assert (E : (fadd (inject_Z (Z.of_nat j * z)) (inject_Z z)
                 == inject_Z (Z.of_nat (S j) * z))%Q).
    { unfold fadd.
      rewrite (round_double_comp _ (inject_Z (Z.of_nat (S j) * z))).
      - now apply round_double_Z.
      - rewrite <- inject_Z_plus.
        replace (Z.of_nat j * z + z) with (Z.of_nat (S j) * z) by lia.
        reflexivity. }
    rewrite (fold_fadd_comp _ _ _ E).
    replace (j + S n)%nat with (S j + n)%nat by lia.
    apply IH. replace (S j + n)%nat with (j + S n)%nat by lia. exact Hb.
Qed.

Lemma mean_whole (z : Z) (n : nat) :
  (0 < n)%nat -> Z.abs (Z.of_nat n * z) <= 2 ^ 53 ->
  exists m, mean (repeat (inject_Z z) n) = Some m /\ (m == inject_Z z)%Q.
Proof.
  intros Hn Hb. destruct n as [| n]; [lia |].
  eexists. split; [reflexivity |].
  change (inject_Z z :: repeat (inject_Z z) n) with (repeat (inject_Z z) (S n)).
  rewrite repeat_length. unfold fdiv, fsum.
  pose proof (fsum_repeat z (S n) 0 Hb) as Hs.
  change (inject_Z (Z.of_nat 0 * z)) with 0%Q in Hs.
  rewrite (round_double_comp _ (inject_Z z)).
  - apply round_double_Z.
    rewrite Z.abs_mul, (Z.abs_eq (Z.of_nat (S n))) in Hb by lia.
    pose proof (Z.abs_nonneg z). nia.
  - rewrite Hs. cbn [Nat.add]. rewrite inject_Z_mult.
    field. intros H. unfold Qeq in H. simpl in H. lia.
Qed.

End WholeNumbers.

(** *** The percentile of equal values *)

Lemma sort_repeat (m : Q) (k : nat) : sort (repeat m k) = repeat m k.
Proof.
  induction k as [| k IH]; [reflexivity |].
  cbn [repeat sort fold_right]. fold (sort (repeat m k)). rewrite IH.
  destruct k as [| k]; [reflexivity |].
  cbn [repeat insert_sorted].
  assert (H : Qle_bool m m = true) by (apply Qle_bool_iff, Qle_refl).
  now rewrite H.
Qed.

Lemma present_repeat {A : Type} (a : A) (k : nat) :
  present (repeat (Some a) k) = repeat a k.
Proof.
  induction k as [| k IH]; [reflexivity |].
  cbn [repeat present flat_map]. fold (present (repeat (Some a) k)).
  now rewrite IH.
Qed.

Lemma no_nan_repeat (m : Q) (k : nat) :
  existsb is_none (repeat (Some m) k) = false.
Proof. induction k as [| k IH]; [reflexivity | exact IH]. Qed.

Lemma percentile_constant (m q : Q) (k : nat) :
  (0 < k)%nat ->
  exists x, percentile (repeat (Some m) k) q = Some x /\ (x == m)%Q.
Proof.
  intros Hk. destruct k as [| k]; [lia |].
  unfold percentile. rewrite no_nan_repeat, present_repeat.
  cbn [repeat]. change (m :: repeat m k) with (repeat m (S k)).
  rewrite sort_repeat, repeat_length.
  eexists. split; [reflexivity |].
  rewrite !nth_repeat_lt by lia. ring.
Qed.

(** *** The imputed table *)

Lemma fill_present (m : Q) (l : list (option Q)) :
  existsb is_none l = false ->
  map (fun cell => Some (default m cell)) l = l.
Proof.
  induction l as [| [x |] l IH]; simpl; try discriminate; [reflexivity |].
  intros H. now rewrite IH.
Qed.

Lemma impute_mean_present (l : list (option Q)) :
  existsb is_none l = false -> l <> [] -> impute_mean l = Some l.
Proof.
  intros Hl Hne. unfold impute_mean.
  destruct l as [| [x |] l]; [congruence | | discriminate].
  cbn [present flat_map app mean bind].
  now rewrite fill_present.
Qed.

Lemma numeric_column_set_other (name other : string) (c : Column)
    (table : DataFrame) :
  String.eqb name other = false ->
  numeric_column (set_col other c table) name = numeric_column table name.
Proof.
  intros H. unfold numeric_column. now rewrite get_set_other.
Qed.

Lemma numeric_column_set_same (name : string) (l : list (option Q))
    (table : DataFrame) :
  numeric_column (set_col name (NumCol l) table) name = Some l.
Proof. unfold numeric_column. now rewrite get_set_same. Qed.

Lemma init_recommendation (table : DataFrame) (self : AdvancedAnalyzer)
    (l : list (option Q)) :
  init table = Some self ->
  get_col "recommendation_score" table = Some (NumCol l) ->
  exists filled,
    impute_mean l = Some filled
    /\ numeric_column (df_clean self) "recommendation_score" = Some filled.
Proof.
  unfold init, handle_missing_data. cbn [impute_columns num_cols].
  destruct (numeric_column table "age_numeric") as [a |]; [| discriminate].
  cbn [bind]. destruct (impute_mean a) as [a' |]; [| discriminate].
  cbn [bind]. rewrite numeric_column_set_other by reflexivity.
  destruct (numeric_column table "income_numeric") as [b |]; [| discriminate].
  cbn [bind]. destruct (impute_mean b) as [b' |]; [| discriminate].
  cbn [bind]. rewrite !numeric_column_set_other by reflexivity.
  destruct (numeric_column table "isho_familiarity_score") as [c |];
    [| discriminate].
  cbn [bind]. destruct (impute_mean c) as [c' |]; [| discriminate].
  cbn [bind]. rewrite !numeric_column_set_other by reflexivity.
  intros H Hcol. unfold numeric_column at 1 in H. rewrite Hcol in H.
  cbn [bind] in H. destruct (impute_mean l) as [filled |]; [| discriminate].
  cbn [bind] in H. injection H as <-. cbn [df_clean].
  exists filled. split; [reflexivity | apply numeric_column_set_same].
Qed.

Lemma bootstrap_constant (self : AdvancedAnalyzer) (k n : nat) (z : Z)
    (g g' : RandomState) (r : Bootstrap) :
  numeric_column (df_clean self) "recommendation_score"
  = Some (repeat (Some (inject_Z z)) n) ->
  (0 < n)%nat -> (Z.abs (Z.of_nat n * z) <= 2 ^ 53)%Z ->
  perform_bootstrap_analysis self k g = Some (r, g') ->
  same_number (original_mean r) (Some (inject_Z z))
  /\ same_number (ci_lower r) (Some (inject_Z z))
  /\ same_number (ci_upper r) (Some (inject_Z z)).
Proof.
  intros Hcol Hn Hb. unfold perform_bootstrap_analysis.
  rewrite Hcol. cbn [bind]. rewrite present_repeat.
  pose proof (resample_means_constant (inject_Z z) n k Hn g) as Hm.
  destruct (resample_means (repeat (inject_Z z) n) k g) as [means g1].
  simpl in Hm. subst means.
  destruct (mean_whole z n Hn Hb) as (m & Em & Hmv). rewrite Em.
  destruct k as [| k]; [discriminate |].
  destruct (percentile_constant m (25 # 10) (S k) ltac:(lia))
    as (lo & Elo & Hlo).
  destruct (percentile_constant m (975 # 10) (S k) ltac:(lia))
    as (hi & Ehi & Hhi).
  unfold np_percentile. cbn [repeat bind]. cbn [repeat] in Elo, Ehi.
  intros [= <- _]. cbn [original_mean ci_lower ci_upper].
  rewrite Elo, Ehi. simpl.
  repeat split; [exact Hmv | now rewrite Hlo | now rewrite Hhi].
Qed.

(** C9, as stated, fails: float64 sums round.  On a column of three times
    0.1 the method reports 0.10000000000000002 as original mean and as
    both ends of the interval, which is not the value of the column. *)
Lemma bootstrap_of_constant_tenths :
  init tenth_scores = Some tenth_analyzer
  /\ get_col "recommendation_score" tenth_scores
     = Some (NumCol (repeat (Some tenth) 3))
  /\ exists r g',
       perform_bootstrap_analysis tenth_analyzer 1000 slow_counter
       = Some (r, g')
       /\ same_number (original_mean r)
                      (Some (7205759403792795 # 72057594037927936))
       /\ same_number (ci_lower r)
                      (Some (7205759403792795 # 72057594037927936))
       /\ same_number (ci_upper r)
                      (Some (7205759403792795 # 72057594037927936))
       /\ ~ same_number (original_mean r) (Some tenth)
       /\ ~ same_number (ci_lower r) (Some tenth)
       /\ ~ same_number (ci_upper r) (Some tenth).
Proof.
  split; [reflexivity |]. split; [reflexivity |].
  destruct (perform_bootstrap_analysis tenth_analyzer 1000 slow_counter)
    as [[r g'] |] eqn:E; [| vm_compute in E; discriminate E].
  exists r, g'. split; [reflexivity |].
  vm_compute in E. injection E as <- _.
  repeat split; try reflexivity; intros H; discriminate H.
Qed.

(** C9 (amended): when the recommendation_score column holds n >= 1 times
    the same whole number v with n * |v| <= 2^53, as a column of ratings
    does, the result that [perform_bootstrap_analysis] returns with 1000
    iterations, whatever the state of the generator, has original mean,
    2.5th and 97.5th percentile all exactly v: every sum is exact in
    float64 then. *)
Theorem bootstrap_of_constant_column (table : DataFrame)
    (self : AdvancedAnalyzer) (g g' : RandomState) (n : nat) (z : Z)
    (r : Bootstrap) :
  init table = Some self ->
  get_col "recommendation_score" table
  = Some (NumCol (repeat (Some (inject_Z z)) n)) ->
  (1 <= n)%nat ->
  (Z.abs (Z.of_nat n * z) <= 2 ^ 53)%Z ->
  perform_bootstrap_analysis self 1000 g = Some (r, g') ->
  same_number (original_mean r) (Some (inject_Z z))
  /\ same_number (ci_lower r) (Some (inject_Z z))
  /\ same_number (ci_upper r) (Some (inject_Z z)).
Proof.
  intros Hinit Hcol Hn Hb.
  apply bootstrap_constant with n; [| lia | exact Hb].
  destruct (init_recommendation _ _ _ Hinit Hcol) as (filled & Hf & ->).
  rewrite impute_mean_present in Hf;
    [symmetry; exact Hf | apply no_nan_repeat |].
  destruct n; [lia | discriminate].
Qed.

Lemma bootstrap_of_constant_column_witness :
  exists r g',
    perform_bootstrap_analysis constant_analyzer 1000 slow_counter
    = Some (r, g')
    /\ same_number (original_mean r) (Some 4%Q)
    /\ same_number (ci_lower r) (Some 4%Q)
    /\ same_number (ci_upper r) (Some 4%Q).
Proof.
  destruct (perform_bootstrap_analysis constant_analyzer 1000 slow_counter)
    as [[r g'] |] eqn:E; [| vm_compute in E; discriminate E].
  exists r, g'. split; [reflexivity |].
  apply (bootstrap_of_constant_column constant_scores constant_analyzer
           slow_counter g' 3 4 r).
  - reflexivity.
  - reflexivity.
  - lia.
  - vm_compute. discriminate.
  - exact E.
Defined.

(** *** Two runs *)

(** C2: two invocations of [perform_bootstrap_analysis] on the same
    analyzer, one after the other, do not return the same result.  The
    method draws from the global generator and never seeds it, so the
    second invocation resamples with other draws: on the scores 1 and 5,
    from a generator whose first 2000 raw values are 0 and whose next 2000
    are 1, the first invocation reports the interval [1, 1] and the second
    [5, 5]; only the original mean is the same. *)
Theorem bootstrap_not_reproducible :
  init two_scores = Some two_scores_analyzer
  /\ match two_runs two_scores_analyzer 1000 slow_counter with
     | Some (r1, r2) =>
         same_number (original_mean r1) (original_mean r2)
         /\ same_number (ci_lower r1) (Some 1%Q)
         /\ same_number (ci_upper r1) (Some 1%Q)
         /\ same_number (ci_lower r2) (Some 5%Q)
         /\ same_number (ci_upper r2) (Some 5%Q)
         /\ ~ same_number (ci_lower r1) (ci_lower r2)
         /\ ~ same_number (ci_upper r1) (ci_upper r2)
         /\ ~ same_number (hd None (bootstrap_means r1))
                          (hd None (bootstrap_means r2))
     | None => False
     end.
Proof.
  split; [reflexivity |]. vm_compute.
  repeat split; try reflexivity; intros H; discriminate H.
Qed.

End AdvancedFacts.

Module CleanerExamples.
Import PyStr Cleaner.

Example clean1 :
  clean_column_name "  What is your Age group? " = "what_is_your_age_group".
Proof. reflexivity. Qed.

Example clean2 :
  clean_column_name "Rate (on a scale of 1 to 5),  now/then [x]"
  = "rate_on_a_scale_of_1_to_5_now_then_x".
Proof. reflexivity. Qed.

Example clean3 : clean_column_name "a   b" = "a__b".
Proof. reflexivity. Qed.

Example clean4 :
  clean_column_name (String "?" (String tab "a")) = String tab "a"
  /\ clean_column_name (String tab "a") = "a".
Proof. split; reflexivity. Qed.

Example split1 : split "," "a,b,,c" = ["a"; "b"; ""; "c"].
Proof. reflexivity. Qed.

End CleanerExamples.

(* ================================================================== *)
(** * Part III: further properties of the code                         *)
(* ================================================================== *)

Module CleanerMore.
Import Pandas PandasFacts PyStr PyStrFacts Cleaner CleanerFacts PipelineFacts
       CleanerNotions.

(** *** Normalised keys *)

(** X1: a normalised column key holds no space and no letter that
    [str.lower] would change. *)
Theorem clean_column_name_lowercase_no_space (col : string) :
  has_char " " (clean_column_name col) = false
  /\ lower (clean_column_name col) = clean_column_name col.
Proof.
  split; [apply no_space_in_key |].
  unfold lower. apply smap_fixed. apply key_lowercase.
Qed.

(** *** [strip] *)

Lemma lstrip_head (s : string) :
  lstrip s = "" \/ exists c t, lstrip s = String c t /\ isspace c = false.
Proof.
  induction s as [| c s IH]; simpl; [now left |].
  destruct (isspace c) eqn:E; [exact IH |]. right. now exists c, s.
Qed.

Lemma rstrip_idem (s : string) : rstrip (rstrip s) = rstrip s.
Proof.
  induction s as [| c s IH]; [reflexivity |].
  cbn [rstrip]. destruct (rstrip s) as [| d r] eqn:E.
  - destruct (isspace c) eqn:Ec; [reflexivity |].
    cbn [rstrip]. now rewrite Ec.
  - cbn [rstrip]. cbn [rstrip] in IH. now rewrite IH.
Qed.

Lemma rstrip_keeps_head (c : ascii) (t : string) :
  isspace c = false -> exists t', rstrip (String c t) = String c t'.
Proof.
  intros Hc. cbn [rstrip]. destruct (rstrip t) as [| d r].
  - rewrite Hc. now exists "".
  - now exists (String d r).
Qed.

Lemma strip_idem (s : string) : strip (strip s) = strip s.
Proof.
  unfold strip.
  destruct (lstrip_head s) as [E | (c & t & E & Hc)]; rewrite E.
  - reflexivity.
  - destruct (rstrip_keeps_head c t Hc) as [t' Et]. rewrite Et.
    cbn [lstrip]. rewrite Hc, <- Et. apply rstrip_idem.
Qed.

Lemma all_chars_sfilter (p : ascii -> bool) (s : string) :
  all_chars p (sfilter p s) = true.
Proof.
  induction s as [| c s IH]; simpl; [reflexivity |].
  destruct (p c) eqn:E; simpl; [now rewrite E |]. exact IH.
Qed.

Lemma clean_text_shape (cell : option string) :
  all_chars is_ascii (clean_text cell) = true
  /\ strip (clean_text cell) = clean_text cell.
Proof.
  unfold clean_text. split; [| apply strip_idem].
  apply all_chars_strip. unfold remove_non_ascii. apply all_chars_sfilter.
Qed.

(** *** Text columns of the cleaned table *)

Lemma lookup_map_cols_inv (f : Column -> Column) (n : string)
    (df : DataFrame) (c' : Column) :
  get_col n (map_cols f df) = Some c' ->
  exists c, get_col n df = Some c /\ c' = f c.
Proof.
  rewrite get_map_cols. destruct (get_col n df) as [c |]; [| discriminate].
  intros [= <-]. now exists c.
Qed.

Lemma cleaned_unfiltered_shape (td : Column -> option Column)
    (sf : string -> option Q) (df pre : DataFrame) :
  cleaned_unfiltered td sf df = Some pre ->
  exists df3, pre = _handle_missing_values (_clean_text_columns df3).
Proof.
  unfold cleaned_unfiltered.
  destruct (get_col "timestamp" (_clean_column_names df)) as [ts |];
    [| discriminate]. cbn [bind].
  destruct (td ts) as [ts' |]; [| discriminate]. cbn [bind].
  destruct (_handle_multiple_choice_columns _) as [df2 |]; [| discriminate].
  cbn [bind].
  destruct (_create_numeric_features sf df2) as [df3 |]; [| discriminate].
  cbn [bind]. intros [= <-]. now exists df3.
Qed.

(** X2: in the table returned by [run_data_cleaning] no cell of a text
    column is missing, and every text holds ASCII characters only and has
    no whitespace at either end. *)
Theorem run_data_cleaning_text_cells (td : Column -> option Column)
    (sf : string -> option Q) (df out : DataFrame) (name : string)
    (cells : list (option string)) :
  run_data_cleaning td sf df = Some out ->
  get_col name out = Some (ObjCol cells) ->
  forall cell, In cell cells ->
    exists s, cell = Some s
              /\ all_chars is_ascii s = true
              /\ strip s = s.
Proof.
  intros Hrun Hcol cell Hin.
  destruct (run_data_cleaning_inv _ _ _ _ Hrun) as (pre & bought & E & _ & _ & ->).
  rewrite get_reset_index, get_select_rows in Hcol.
  destruct (get_col name pre) as [c |] eqn:Ec; [| discriminate].
  cbn [option_map] in Hcol. injection Hcol as Hcol.
  destruct (cleaned_unfiltered_shape _ _ _ _ E) as [df3 ->].
  unfold _handle_missing_values in Ec.
  apply lookup_map_cols_inv in Ec as (c1 & Ec1 & ->).
  unfold _clean_text_columns in Ec1.
  apply lookup_map_cols_inv in Ec1 as (c2 & _ & ->).
  destruct c2 as [raw | raw | raw]; simpl in Hcol; try discriminate.
  injection Hcol as <-. apply mask_filter_In in Hin.
  rewrite map_map in Hin. apply in_map_iff in Hin as (x & <- & _).
  simpl. exists (clean_text x). split; [reflexivity |]. apply clean_text_shape.
Qed.

Lemma run_data_cleaning_text_cells_witness :
  exists s, Some "yes" = Some s /\ all_chars is_ascii s = true /\ strip s = s.
Proof.
  apply (run_data_cleaning_text_cells epoch_nanoseconds decimal_literal
           survey_example survey_example_cleaned bought_col
           [Some "Yes"; Some "yes"; Some "YES"]).
  - vm_compute. reflexivity.
  - reflexivity.
  - simpl. auto.
Defined.

(** X3: a text column that cleaning does not write to comes out as the
    kept rows of its raw cells, each turned into text, stripped of
    non-ASCII characters and trimmed; a missing raw cell comes out as the
    text [nan], so the filling with "Not Specified" finds nothing to fill
    in it. *)
Theorem run_data_cleaning_text_column (td : Column -> option Column)
    (sf : string -> option Q) (df out : DataFrame) (name : string)
    (raw : list (option string)) :
  run_data_cleaning td sf df = Some out ->
  name_in name written_columns = false ->
  get_col name (_clean_column_names df) = Some (ObjCol raw) ->
  exists bought,
    get_col bought_col (_clean_column_names df) = Some (ObjCol bought)
    /\ get_col name out
       = Some (ObjCol (mask_filter (kept_rows bought)
                         (map (fun cell => Some (clean_text cell)) raw)))
    /\ clean_text None = "nan".
Proof.
  intros Hrun Hname Hraw.
  destruct (run_data_cleaning_inv _ _ _ _ Hrun) as (pre & bought & E & Hb & _ & ->).
  destruct (cleaned_unfiltered_inv _ _ _ _ E) as (_ & Hcols & _).
  exists bought. split; [exact Hb |]. split; [| reflexivity].
  rewrite get_reset_index, get_select_rows, (Hcols name Hname), Hraw.
  simpl. now rewrite map_map.
Qed.

Lemma run_data_cleaning_text_column_witness :
  exists bought,
    get_col bought_col (_clean_column_names survey_example)
    = Some (ObjCol bought)
    /\ get_col income_range_col survey_example_cleaned
       = Some (ObjCol (mask_filter (kept_rows bought)
                         (map (fun cell => Some (clean_text cell))
                              [Some "Below BDT 25,000"; None; None;
                               Some "Above 200,000"])))
    /\ clean_text None = "nan".
Proof.
  apply (run_data_cleaning_text_column epoch_nanoseconds decimal_literal
           survey_example survey_example_cleaned income_range_col).
  - vm_compute. reflexivity.
  - reflexivity.
  - reflexivity.
Defined.

(** *** The indicator loops and the other columns *)

Lemma has_col_set_col (x n : string) (c : Column) (df : DataFrame) :
  has_col x df = true -> has_col x (set_col n c df) = true.
Proof.
  intros H. unfold has_col. destruct (String.eqb x n) eqn:E.
  - apply String.eqb_eq in E. subst. now rewrite get_set_same.
  - now rewrite get_set_other.
Qed.

Lemma add_indicators_keeps (column prefix : string) (choices : list string)
    (x : string) :
  forall df df' : DataFrame,
    add_indicators column prefix choices df = Some df' ->
    has_col x df = true -> has_col x df' = true.
Proof.
  induction choices as [| ch rest IH]; intros df df'; simpl.
  - now intros [= <-].
  - unfold add_indicator.
    destruct (get_col column df) as [c |]; [| discriminate]. cbn [bind].
    destruct (filled_texts c) as [texts |]; [| discriminate]. cbn [bind].
    intros E Hx. apply (IH _ _ E). now apply has_col_set_col.
Qed.

Lemma handle_questions_keeps (qs : list Question) (x : string) :
  forall df df' : DataFrame,
    handle_questions qs df = Some df' ->
    has_col x df = true -> has_col x df' = true.
Proof.
  induction qs as [| q rest IH]; intros df df'; simpl.
  - now intros [= <-].
  - destruct (has_col (q_column q) df).
    + destruct (add_indicators (q_column q) (q_prefix q) (q_choices q) df)
        as [df1 |] eqn:E1; [| discriminate]. cbn [bind].
      intros E Hx. apply (IH _ _ E). now apply (add_indicators_keeps _ _ _ _ _ _ E1).
    + cbn [bind]. apply IH.
Qed.

Lemma handle_questions_absent (qs : list Question) (df : DataFrame) :
  (forall q, In q qs -> has_col (q_column q) df = false) ->
  handle_questions qs df = Some df.
Proof.
  induction qs as [| q rest IH]; intros H; [reflexivity |].
  cbn [handle_questions]. rewrite (H q (or_introl eq_refl)). cbn [bind].
  apply IH. intros q' Hq'. apply H. now right.
Qed.

(** X4: when [_handle_multiple_choice_columns] returns, the rows are the
    same, every column present before is still present, every column
    other than the 17 indicator columns is unchanged, and a table with
    none of the three question columns is returned as it is. *)
Theorem handle_multiple_choice_columns_frame (df df' : DataFrame) :
  _handle_multiple_choice_columns df = Some df' ->
  index df' = index df
  /\ (forall x, has_col x df = true -> has_col x df' = true)
  /\ (forall x, name_in x (indicator_names multiple_choice_mapping) = false ->
                get_col x df' = get_col x df)
  /\ ((forall q, In q multiple_choice_mapping ->
                 has_col (q_column q) df = false) ->
      df' = df).
Proof.
  unfold _handle_multiple_choice_columns. intros H.
  destruct (handle_questions_frame _ _ _ H) as [Hi Hf].
  split; [exact Hi |]. split; [| split; [exact Hf |]].
  - intros x. now apply handle_questions_keeps with multiple_choice_mapping.
  - intros Habs. rewrite (handle_questions_absent _ _ Habs) in H.
    now injection H.
Qed.

Lemma handle_multiple_choice_columns_frame_witness :
  index (default survey_example_renamed
           (_handle_multiple_choice_columns survey_example_renamed))
  = index survey_example_renamed.
Proof.
  apply (handle_multiple_choice_columns_frame survey_example_renamed).
  vm_compute. reflexivity.
Defined.

(** *** When [run_data_cleaning] returns *)

Lemma has_col_get (x : string) (df : DataFrame) (c : Column) :
  get_col x df = Some c -> has_col x df = true.
Proof. unfold has_col. now intros ->. Qed.

Lemma create_numeric_features_steps (sf : string -> option Q)
    (df df' : DataFrame) :
  _create_numeric_features sf df = Some df' ->
  exists age income fam rec,
    get_col age_group_col df = Some age
    /\ get_col income_range_col df = Some income
    /\ get_col familiarity_col df = Some fam
    /\ get_col recommend_col df = Some rec
    /\ df' = set_col "recommendation_score" (to_numeric sf rec)
               (set_col "isho_familiarity_score" (to_numeric sf fam)
                  (set_col "income_numeric" (series_map income_map income)
                     (set_col "age_numeric" (series_map age_map age) df))).
Proof.
  unfold _create_numeric_features.
  destruct (get_col age_group_col df) as [age |]; [| discriminate].
  cbn [bind]. rewrite get_set_other by reflexivity.
  destruct (get_col income_range_col df) as [income |]; [| discriminate].
  cbn [bind]. rewrite !get_set_other by reflexivity.
  destruct (get_col familiarity_col df) as [fam |]; [| discriminate].
  cbn [bind]. rewrite !get_set_other by reflexivity.
  destruct (get_col recommend_col df) as [rec |]; [| discriminate].
  cbn [bind]. intros [= <-]. now exists age, income, fam, rec.
Qed.

Lemma cleaned_unfiltered_steps (td : Column -> option Column)
    (sf : string -> option Q) (df pre : DataFrame) :
  cleaned_unfiltered td sf df = Some pre ->
  exists ts ts' df2 df3,
    get_col "timestamp" (_clean_column_names df) = Some ts
    /\ td ts = Some ts'
    /\ _handle_multiple_choice_columns
         (set_col "timestamp" ts' (_clean_column_names df)) = Some df2
    /\ _create_numeric_features sf df2 = Some df3
    /\ pre = _handle_missing_values (_clean_text_columns df3).
Proof.
  unfold cleaned_unfiltered.
  destruct (get_col "timestamp" (_clean_column_names df)) as [ts |];
    [| discriminate]. cbn [bind].
  destruct (td ts) as [ts' |] eqn:Etd; [| discriminate]. cbn [bind].
  destruct (_handle_multiple_choice_columns _) as [df2 |] eqn:E2;
    [| discriminate]. cbn [bind].
  destruct (_create_numeric_features sf df2) as [df3 |] eqn:E3;
    [| discriminate]. cbn [bind]. intros [= <-].
  now exists ts, ts', df2, df3.
Qed.

Lemma run_data_cleaning_requires (td : Column -> option Column)
    (sf : string -> option Q) (df out : DataFrame) (name : string) :
  run_data_cleaning td sf df = Some out ->
  In name required_columns ->
  has_col name (_clean_column_names df) = true.
Proof.
  intros Hrun Hin.
  destruct (run_data_cleaning_inv _ _ _ _ Hrun) as (pre & bought & E & Hb & _).
  destruct (cleaned_unfiltered_steps _ _ _ _ E)
    as (ts & ts' & df2 & df3 & Hts & _ & E2 & E3 & _).
  destruct (create_numeric_features_steps _ _ _ E3)
    as (age & income & fam & rec & Ha & Hi & Hf & Hr & _).
  rewrite (source_column_unchanged age_group_col _ _ _ E2) in Ha
    by reflexivity.
  rewrite (source_column_unchanged income_range_col _ _ _ E2) in Hi
    by reflexivity.
  rewrite (source_column_unchanged familiarity_col _ _ _ E2) in Hf
    by reflexivity.
  rewrite (source_column_unchanged recommend_col _ _ _ E2) in Hr
    by reflexivity.
  unfold required_columns in Hin. simpl in Hin.
  destruct Hin as [<- | [<- | [<- | [<- | [<- | [<- | []]]]]]];
    eapply has_col_get; eassumption.
Qed.

(** X5: [run_data_cleaning] fails when, after the renaming, the table
    lacks the timestamp, the age group, the income range, the familiarity
    rating, the recommendation rating or the purchase question. *)
Theorem run_data_cleaning_missing_column (td : Column -> option Column)
    (sf : string -> option Q) (df : DataFrame) (name : string) :
  In name required_columns ->
  get_col name (_clean_column_names df) = None ->
  run_data_cleaning td sf df = None.
Proof.
  intros Hin Hnone.
  destruct (run_data_cleaning td sf df) as [out |] eqn:E; [| reflexivity].
  pose proof (run_data_cleaning_requires _ _ _ _ _ E Hin) as H.
  unfold has_col in H. rewrite Hnone in H. discriminate.
Qed.

Lemma run_data_cleaning_missing_column_witness :
  run_data_cleaning epoch_nanoseconds decimal_literal
    (mkDataFrame [0%nat] [("Timestamp", NumCol [Some 1700000000%Q])])
  = None.
Proof.
  apply (run_data_cleaning_missing_column epoch_nanoseconds decimal_literal
           (mkDataFrame [0%nat] [("Timestamp", NumCol [Some 1700000000%Q])])
           bought_col).
  - simpl. auto 10.
  - reflexivity.
Defined.

(** X6: [run_data_cleaning] returns a table whenever, after the renaming,
    the column labels are unique, the timestamp column is present and is
    parsed, the question columns that are present and the purchase
    question are text columns, and the four source columns of the numeric
    features are present. *)
Theorem run_data_cleaning_returns (td : Column -> option Column)
    (sf : string -> option Q) (df : DataFrame) (ts ts' : Column)
    (bought : list (option string)) :
  unique_labels (_clean_column_names df) = true ->
  get_col "timestamp" (_clean_column_names df) = Some ts ->
  td ts = Some ts' ->
  (forall q c, In q multiple_choice_mapping ->
               get_col (q_column q) (_clean_column_names df) = Some c ->
               exists cells, c = ObjCol cells) ->
  has_col age_group_col (_clean_column_names df) = true ->
  has_col income_range_col (_clean_column_names df) = true ->
  has_col familiarity_col (_clean_column_names df) = true ->
  has_col recommend_col (_clean_column_names df) = true ->
  get_col bought_col (_clean_column_names df) = Some (ObjCol bought) ->
  exists out,
    run_data_cleaning td sf df = Some out
    /\ get_col bought_col out
       = Some (ObjCol (mask_filter (kept_rows bought)
                         (map (fun cell => Some (clean_text cell)) bought))).
Proof.
  intros _. apply run_data_cleaning_succeeds.
Qed.

Lemma run_data_cleaning_returns_witness :
  exists out,
    run_data_cleaning epoch_nanoseconds decimal_literal survey_example = Some out
    /\ get_col bought_col out
       = Some (ObjCol (mask_filter
                         (kept_rows [Some "Yes"; Some "yes "; Some "No";
                                     Some "YES"])
                         (map (fun cell => Some (clean_text cell))
                              [Some "Yes"; Some "yes "; Some "No"; Some "YES"]))).
Proof.
  apply (run_data_cleaning_returns epoch_nanoseconds decimal_literal survey_example
           (NumCol [Some 1700000000%Q; Some 1700000060%Q; Some 1700000120%Q;
                    Some 1700000180%Q])
           (DtCol [Some 1700000000%Z; Some 1700000060%Z; Some 1700000120%Z;
                   Some 1700000180%Z])).
  - reflexivity.
  - reflexivity.
  - reflexivity.
  - intros q c Hq. simpl in Hq.
    destruct Hq as [<- | [<- | [<- | []]]]; vm_compute; intros [= <-]; eauto.
  - reflexivity.
  - reflexivity.
  - reflexivity.
  - reflexivity.
  - reflexivity.
Defined.

(** *** The two bracket features *)

Lemma series_map_cells (d : list (string * Q)) (c : Column) :
  series_map d c = NumCol (mapped_cells d c).
Proof. unfold mapped_cells. now destruct c. Qed.

Lemma dict_get_In (d : list (string * Q)) (k : string) (v : Q) :
  dict_get d k = Some v -> In v (map snd d).
Proof.
  induction d as [| [k' v'] d IH]; simpl; [discriminate |].
  destruct (String.eqb k' k); [intros [= <-]; now left | auto].
Qed.

Lemma bracket_value_range (d : list (string * Q)) (cell : option string) :
  In (bracket_value d cell) (map Some (0%Q :: map snd d)).
Proof.
  unfold bracket_value, filled_score.
  destruct cell as [s |]; cbn [bind]; [| now left].
  destruct (dict_get d s) as [v |] eqn:E; [| now left].
  right. apply in_map. now apply dict_get_In with s.
Qed.

(** X7: in the table returned by [run_data_cleaning], age_numeric and
    income_numeric hold, for the kept rows, the midpoint that the mapping
    gives to the bracket label and 0 for a missing or unknown label; so
    each value is 0 or one of the five midpoints, and none is missing. *)
Theorem run_data_cleaning_brackets (td : Column -> option Column)
    (sf : string -> option Q) (df out : DataFrame) :
  run_data_cleaning td sf df = Some out ->
  exists age income bought,
    get_col age_group_col (_clean_column_names df) = Some age
    /\ get_col income_range_col (_clean_column_names df) = Some income
    /\ get_col bought_col (_clean_column_names df) = Some (ObjCol bought)
    /\ get_col "age_numeric" out
       = Some (NumCol (mask_filter (kept_rows bought)
                         (map filled_score (mapped_cells age_map age))))
    /\ get_col "income_numeric" out
       = Some (NumCol (mask_filter (kept_rows bought)
                         (map filled_score (mapped_cells income_map income))))
    /\ (forall d cells,
          map filled_score (mapped_cells d (ObjCol cells))
          = map (bracket_value d) cells)
    /\ (forall cell,
          In (bracket_value age_map cell)
             (map Some [0; 17; 21; 59 # 2; 79 # 2; 55]%Q))
    /\ (forall cell,
          In (bracket_value income_map cell)
             (map Some [0; 12500; 37500; 75000; 150000; 250000]%Q)).
Proof.
  intros Hrun.
  destruct (run_data_cleaning_inv _ _ _ _ Hrun) as (pre & bought & E & Hb & _ & ->).
  destruct (cleaned_unfiltered_steps _ _ _ _ E)
    as (ts & ts' & df2 & df3 & _ & _ & E2 & E3 & ->).
  destruct (create_numeric_features_steps _ _ _ E3)
    as (age & income & fam & rec & Ha & Hi & _ & _ & ->).
  rewrite (source_column_unchanged age_group_col _ _ _ E2) in Ha
    by reflexivity.
  rewrite (source_column_unchanged income_range_col _ _ _ E2) in Hi
    by reflexivity.
  exists age, income, bought.
  split; [exact Ha |]. split; [exact Hi |]. split; [exact Hb |].
  unfold _handle_missing_values, _clean_text_columns.
  split; [| split; [| split; [| split]]].
  - rewrite get_reset_index, get_select_rows, !get_map_cols.
    rewrite !get_set_other, get_set_same by reflexivity.
    now rewrite series_map_cells.
  - rewrite get_reset_index, get_select_rows, !get_map_cols.
    rewrite !get_set_other, get_set_same by reflexivity.
    now rewrite series_map_cells.
  - intros d cells. unfold mapped_cells, bracket_value. simpl.
    now rewrite map_map.
  - intros cell. apply (bracket_value_range age_map).
  - intros cell. apply (bracket_value_range income_map).
Qed.

Lemma run_data_cleaning_brackets_witness :
  exists age income bought,
    get_col age_group_col (_clean_column_names survey_example) = Some age
    /\ get_col income_range_col (_clean_column_names survey_example)
       = Some income
    /\ get_col bought_col (_clean_column_names survey_example)
       = Some (ObjCol bought)
    /\ get_col "age_numeric" survey_example_cleaned
       = Some (NumCol (mask_filter (kept_rows bought)
                         (map filled_score (mapped_cells age_map age)))).
Proof.
  destruct (run_data_cleaning_brackets epoch_nanoseconds decimal_literal
              survey_example survey_example_cleaned)
    as (age & income & bought & Ha & Hi & Hb & Hage & _).
  - vm_compute. reflexivity.
  - exists age, income, bought. auto.
Defined.

(** *** Filtering twice *)

Lemma mask_filter_all_true {A : Type} (k : nat) (l : list A) :
  (List.length l <= k)%nat -> mask_filter (repeat true k) l = l.
Proof.
  revert l. induction k as [| k IH]; intros [| x l]; simpl; try reflexivity.
  - lia.
  - intros H. rewrite IH; [reflexivity | lia].
Qed.

(** The number of positions a mask keeps. *)
Lemma length_mask_filter_same {A : Type} (p : A -> bool) (l : list A) :
  map p (mask_filter (map p l) l)
  = repeat true (List.length (mask_filter (map p l) l)).
Proof.
  induction l as [| x l IH]; simpl; [reflexivity |].
  destruct (p x) eqn:E; simpl; [now rewrite E, IH | exact IH].
Qed.

Lemma length_mask_filter_bound {A B : Type} (p : A -> bool) (l : list A)
    (l0 : list B) :
  (List.length (mask_filter (map p l) l0)
   <= List.length (mask_filter (map p l) l))%nat.
Proof.
  revert l0. induction l as [| x l IH]; intros [| y l0]; simpl; try lia.
  specialize (IH l0). destruct (p x); simpl; lia.
Qed.

Lemma col_filter_all_true (k : nat) (c : Column) :
  (col_len c <= k)%nat -> col_filter (repeat true k) c = c.
Proof.
  destruct c as [l | l | l]; simpl; intros H;
    now rewrite mask_filter_all_true.
Qed.

Lemma col_len_filter_bound {A : Type} (p : A -> bool) (l : list A) (c : Column) :
  (col_len (col_filter (map p l) c)
   <= List.length (mask_filter (map p l) l))%nat.
Proof. destruct c; simpl; apply length_mask_filter_bound. Qed.

(** X8: [_filter_valid_responses] is idempotent: applied to the table it
    has returned, it returns that table again. *)
Theorem filter_valid_responses_idempotent (df out : DataFrame) :
  _filter_valid_responses df = Some out ->
  _filter_valid_responses out = Some out.
Proof.
  intros H. destruct (filter_valid_responses_inv _ _ H) as (l & Hl & ->).
  unfold _filter_valid_responses at 1.
  rewrite get_reset_index, get_select_rows, Hl.
  cbn [option_map col_filter bind]. f_equal.
  rewrite length_mask_filter_same.
  set (k := List.length (mask_filter (map is_yes l) l)).
  unfold reset_index, select_rows. cbn [index columns]. f_equal.
  - f_equal. rewrite mask_filter_all_true; rewrite length_seq;
      [reflexivity | apply length_mask_filter_bound].
  - rewrite map_map. apply map_ext. intros [n c]. cbn [fst snd]. f_equal.
    apply col_filter_all_true. apply col_len_filter_bound.
Qed.

Lemma filter_valid_responses_idempotent_witness :
  _filter_valid_responses survey_example_cleaned = Some survey_example_cleaned.
Proof.
  destruct (cleaned_unfiltered epoch_nanoseconds decimal_literal survey_example)
    as [pre |] eqn:E; [| vm_compute in E; discriminate E].
  apply (filter_valid_responses_idempotent pre).
  vm_compute in E. injection E as <-. vm_compute. reflexivity.
Defined.

End CleanerMore.

Module AnalysisMore.
Import Pandas PandasFacts PyStr Analysis AnalysisFacts AnalysisNotions.

Local Open Scope Z_scope.

(** *** Equality of labels *)

Lemma label_eqb_refl (x : Label) : label_eqb x x = true.
Proof.
  destruct x; simpl;
    [apply String.eqb_refl | apply Qeq_bool_refl | apply Z.eqb_refl].
Qed.

Lemma label_eqb_sym (x y : Label) : label_eqb x y = label_eqb y x.
Proof.
  destruct x, y; simpl; try reflexivity;
    [apply String.eqb_sym | apply Qeq_bool_comm | apply Z.eqb_sym].
Qed.

Lemma label_eqb_trans (x y z : Label) :
  label_eqb x y = true -> label_eqb y z = true -> label_eqb x z = true.
Proof.
  destruct x, y, z; simpl; try discriminate.
  - intros ->%String.eqb_eq. trivial.
  - apply Qeq_bool_trans.
  - intros ->%Z.eqb_eq. trivial.
Qed.

(** Equal labels match the same labels. *)
Lemma label_eqb_same (x y z : Label) :
  label_eqb x y = true -> label_eqb x z = label_eqb y z.
Proof.
  intros H. destruct (label_eqb y z) eqn:E.
  - now apply label_eqb_trans with y.
  - destruct (label_eqb x z) eqn:E'; [| reflexivity].
    rewrite <- E. symmetry. apply label_eqb_trans with x; [| assumption].
    now rewrite label_eqb_sym.
Qed.

(** *** What [tally] does to a count *)

Lemma lookup_count_cons (y : Label) (e : Label * Z) (s : Series) :
  lookup_count y (e :: s)
  = if label_eqb y (fst e) then snd e else lookup_count y s.
Proof. unfold lookup_count. simpl. now destruct (label_eqb y (fst e)). Qed.

Lemma lookup_count_tally (x y : Label) (acc : Series) :
  lookup_count y (tally x acc)
  = lookup_count y acc + (if label_eqb y x then 1 else 0).
Proof.
  induction acc as [| [z n] acc IH].
  - simpl tally. rewrite lookup_count_cons. cbn [fst snd].
    unfold lookup_count. simpl. now destruct (label_eqb y x).
  - cbn [tally]. destruct (label_eqb x z) eqn:Exz.
    + rewrite !lookup_count_cons. cbn [fst snd].
      rewrite (label_eqb_sym y x), (label_eqb_same x z y Exz),
        (label_eqb_sym z y).
      destruct (label_eqb y z); lia.
    + rewrite !lookup_count_cons. cbn [fst snd].
      destruct (label_eqb y z) eqn:Eyz; [| exact IH].
      rewrite (label_eqb_same y z x Eyz), (label_eqb_sym z x), Exz. lia.
Qed.

Lemma count_label_cons (y x : Label) (ls : list Label) :
  count_label y (x :: ls)
  = (if label_eqb y x then 1 else 0) + count_label y ls.
Proof.
  unfold count_label. cbn [filter]. destruct (label_eqb y x); [| lia].
  cbn [List.length]. rewrite Nat2Z.inj_succ. lia.
Qed.

Lemma lookup_count_fold (y : Label) (ls : list Label) :
  forall acc : Series,
    lookup_count y (fold_left (fun acc x => tally x acc) ls acc)
    = lookup_count y acc + count_label y ls.
Proof.
  induction ls as [| x ls IH]; intros acc; simpl.
  - unfold count_label. simpl. lia.
  - rewrite IH, lookup_count_tally, count_label_cons. lia.
Qed.

Lemma lookup_count_values (y : Label) (ls : list Label) :
  lookup_count y (count_values ls) = count_label y ls.
Proof. unfold count_values. now rewrite lookup_count_fold. Qed.

(** *** Distinct labels *)

Lemma In_tally (x : Label) (acc : Series) (e : Label * Z) :
  In e (tally x acc) ->
  e = (x, 1) \/ exists e', In e' acc /\ fst e = fst e'.
Proof.
  induction acc as [| [z n] acc IH]; simpl.
  - intros [<- | []]. now left.
  - destruct (label_eqb x z).
    + intros [<- | H]; right.
      * exists (z, n). split; [now left | reflexivity].
      * exists e. split; [now right | reflexivity].
    + intros [<- | H].
      * right. exists (z, n). split; [now left | reflexivity].
      * destruct (IH H) as [-> | (e' & He' & Hf)]; [now left |].
        right. exists e'. split; [now right | assumption].
Qed.

Lemma tally_distinct (x : Label) (acc : Series) :
  distinct_labels acc -> distinct_labels (tally x acc).
Proof.
  induction acc as [| [z n] acc IH]; simpl.
  - intros _. split; [intros e' [] | exact I].
  - intros [Hz Hacc]. destruct (label_eqb x z) eqn:E; simpl.
    + split; assumption.
    + split; [| now apply IH].
      intros e' He'. destruct (In_tally _ _ _ He') as [-> | (e'' & Hin & Hf)].
      * simpl. now rewrite label_eqb_sym.
      * rewrite Hf. now apply Hz.
Qed.

Lemma count_values_distinct (ls : list Label) :
  distinct_labels (count_values ls).
Proof.
  unfold count_values.
  assert (H : forall acc, distinct_labels acc ->
                distinct_labels (fold_left (fun acc x => tally x acc) ls acc)).
  { induction ls as [| x ls IH]; intros acc Hacc; simpl; [assumption |].
    apply IH. now apply tally_distinct. }
  apply H. exact I.
Qed.

Lemma In_insert_desc (e a : Label * Z) (s : Series) :
  In a (insert_desc e s) <-> a = e \/ In a s.
Proof.
  induction s as [| h s IH]; simpl; [intuition congruence |].
  destruct (snd h <=? snd e); simpl; [intuition congruence |].
  rewrite IH. intuition congruence.
Qed.

Lemma In_sort_values_desc (a : Label * Z) (s : Series) :
  In a (sort_values_desc s) <-> In a s.
Proof.
  induction s as [| e s IH]; simpl; [tauto |].
  rewrite In_insert_desc, IH. intuition congruence.
Qed.

Lemma insert_desc_distinct (e : Label * Z) (s : Series) :
  (forall e', In e' s -> label_eqb (fst e) (fst e') = false) ->
  distinct_labels s -> distinct_labels (insert_desc e s).
Proof.
  induction s as [| h s IH]; simpl.
  - intros _ _. split; [intros e' [] | exact I].
  - intros He [Hh Hs]. destruct (snd h <=? snd e); simpl.
    + repeat split; assumption.
    + split.
      * intros e' He'. apply In_insert_desc in He' as [-> | Hin].
        -- rewrite label_eqb_sym. apply He. now left.
        -- now apply Hh.
      * apply IH; [| assumption]. intros e' Hin. apply He. now right.
Qed.

Lemma sort_values_desc_distinct (s : Series) :
  distinct_labels s -> distinct_labels (sort_values_desc s).
Proof.
  induction s as [| e s IH]; simpl; [trivial |].
  intros [He Hs]. apply insert_desc_distinct; [| now apply IH].
  intros e' Hin. apply He. now apply In_sort_values_desc.
Qed.

Lemma lookup_count_distinct (y : Label) (s : Series) (e : Label * Z) :
  distinct_labels s -> In e s -> label_eqb y (fst e) = true ->
  lookup_count y s = snd e.
Proof.
  induction s as [| h s IH]; simpl; [intros _ [] |].
  intros [Hh Hs] Hin Hy. rewrite lookup_count_cons.
  destruct Hin as [-> | Hin]; [now rewrite Hy |].
  destruct (label_eqb y (fst h)) eqn:E; [| now apply IH].
  exfalso. specialize (Hh e Hin).
  rewrite <- (label_eqb_same y (fst h) (fst e) E), Hy in Hh. discriminate.
Qed.

(** *** Sorted output *)

Lemma insert_desc_sorted (e : Label * Z) (s : Series) :
  descending s -> descending (insert_desc e s).
Proof.
  unfold descending. induction 1 as [| h s Hs IH Hh]; simpl.
  - repeat constructor.
  - destruct (snd h <=? snd e) eqn:E.
    + apply Z.leb_le in E. repeat constructor; assumption.
    + apply Z.leb_gt in E. constructor; [exact IH |].
      destruct s as [| h' s]; simpl.
      * constructor. lia.
      * destruct (snd h' <=? snd e); constructor; [lia |].
        now inversion Hh.
Qed.

Lemma sort_values_desc_sorted (s : Series) : descending (sort_values_desc s).
Proof.
  induction s as [| e s IH]; simpl; [constructor |].
  now apply insert_desc_sorted.
Qed.

Lemma count_label_positive (x : Label) (ls : list Label) :
  In x ls -> 1 <= count_label x ls.
Proof.
  induction ls as [| y ls IH]; simpl; [intros [] |].
  rewrite count_label_cons. intros [-> | Hin].
  - rewrite label_eqb_refl. unfold count_label. lia.
  - specialize (IH Hin). destruct (label_eqb x y); lia.
Qed.

(** X9: [value_counts] is a correct tally.  Each entry gives the number
    of non-missing cells of the column that equal its label, which is at
    least 1; every non-missing cell has an entry; no label occurs in two
    entries; and the entries come in descending order of their counts. *)
Theorem value_counts_correct (c : Column) :
  (forall x n, In (x, n) (value_counts c) ->
               n = count_label x (labels c) /\ 1 <= n)
  /\ (forall x, In x (labels c) ->
        exists x', In (x', count_label x (labels c)) (value_counts c)
                   /\ label_eqb x x' = true)
  /\ distinct_labels (value_counts c)
  /\ descending (value_counts c).
Proof.
  pose proof (count_values_distinct (labels c)) as Hd.
  split; [| split; [| split]].
  - intros x n Hin.
    destruct (value_counts_tallies c) as [_ Hp].
    rewrite Forall_forall in Hp. pose proof (Hp (x, n) Hin) as Hn.
    unfold value_counts in Hin.
    apply (proj1 (In_sort_values_desc _ _)) in Hin.
    pose proof (lookup_count_distinct x _ _ Hd Hin (label_eqb_refl x)) as H.
    rewrite lookup_count_values in H. simpl in H. split; [now symmetry |].
    exact Hn.
  - intros x Hin. pose proof (count_label_positive x _ Hin) as Hpos.
    pose proof (lookup_count_values x (labels c)) as Hl.
    unfold lookup_count in Hl.
    destruct (find (fun e => label_eqb x (fst e)) (count_values (labels c)))
      as [[x' n] |] eqn:F; [| lia].
    apply find_some in F as [Hin' Hx]. simpl in Hx, Hl. subst n.
    exists x'. split; [| exact Hx].
    unfold value_counts. now apply (proj2 (In_sort_values_desc _ _)).
  - now apply sort_values_desc_distinct.
  - apply sort_values_desc_sorted.
Qed.

(** *** Buyers and non-buyers *)

Lemma eq_mask_disjoint (v1 v2 : string) (c : Column) :
  v1 <> v2 -> disjoint_masks (eq_mask v1 c) (eq_mask v2 c).
Proof.
  intros Hne. destruct c as [l | l | l]; simpl;
    induction l as [| cell l IH]; simpl; try exact I; split; try exact IH;
    try reflexivity.
  destruct cell as [s |]; [| reflexivity].
  destruct (String.eqb s v1) eqn:E1; [| reflexivity].
  apply String.eqb_eq in E1. subst s. simpl.
  now apply String.eqb_neq.
Qed.

Lemma disjoint_masks_lengths {A : Type} (m1 m2 : list bool) (l : list A) :
  disjoint_masks m1 m2 ->
  (List.length (mask_filter m1 l) + List.length (mask_filter m2 l)
   <= List.length l)%nat.
Proof.
  revert m2 l. induction m1 as [| b1 m1 IH]; intros m2 l; simpl; intros H.
  - pose proof (length_mask_filter m2 l). lia.
  - destruct l as [| x l]; [destruct m2; simpl; lia |].
    destruct m2 as [| b2 m2]; simpl.
    + pose proof (length_mask_filter m1 l). destruct b1; simpl; lia.
    + destruct H as [Hb H]. specialize (IH m2 l H).
      destruct b1, b2; simpl in *; try discriminate; lia.
Qed.

Lemma disjoint_masks_labels (m1 m2 : list bool) (c : Column) :
  disjoint_masks m1 m2 ->
  (List.length (labels (col_filter m1 c))
   + List.length (labels (col_filter m2 c)) <= col_len c)%nat.
Proof.
  intros H.
  pose proof (length_labels (col_filter m1 c)).
  pose proof (length_labels (col_filter m2 c)).
  assert (col_len (col_filter m1 c) + col_len (col_filter m2 c)
          <= col_len c)%nat
    by (destruct c; simpl; now apply disjoint_masks_lengths).
  lia.
Qed.

Lemma subgroup_inv (by_col value name : string) (df : DataFrame) (c' : Column) :
  subgroup by_col value name df = Some c' ->
  exists b c, get_col by_col df = Some b /\ get_col name df = Some c
              /\ c' = col_filter (eq_mask value b) c.
Proof.
  unfold subgroup.
  destruct (get_col by_col df) as [b |]; [| discriminate]. cbn [bind].
  rewrite get_select_rows.
  destruct (get_col name df) as [c |]; [| discriminate].
  cbn [option_map bind]. intros [= <-]. now exists b, c.
Qed.

Lemma subgroups_total (name : string) (df : DataFrame) (c1 c2 : Column) :
  aligned df ->
  subgroup isho_bought_col "Yes" name df = Some c1 ->
  subgroup isho_bought_col "No" name df = Some c2 ->
  total (value_counts c1) + total (value_counts c2) <= Z.of_nat (len df).
Proof.
  intros Hal H1 H2.
  destruct (subgroup_inv _ _ _ _ _ H1) as (b & c & Hb & Hc & ->).
  destruct (subgroup_inv _ _ _ _ _ H2) as (b' & c' & Hb' & Hc' & ->).
  rewrite Hb in Hb'. injection Hb' as <-.
  rewrite Hc in Hc'. injection Hc' as <-.
  rewrite (tallies_total_total _ _ (value_counts_tallies _)).
  rewrite (tallies_total_total _ _ (value_counts_tallies _)).
  pose proof (disjoint_masks_labels (eq_mask "Yes" b) (eq_mask "No" b) c
                (eq_mask_disjoint "Yes" "No" b ltac:(discriminate))) as H.
  rewrite (Hal _ _ Hc) in H. lia.
Qed.

(** X10: in [get_brand_perceptions], on a table with one cell per row in
    each column, no row is counted both among the buyers and among the
    non-buyers: the counts of the two association breakdowns together,
    and those of the two comparison breakdowns together, do not exceed
    the number of rows. *)
Theorem buyers_and_non_buyers_apart (df : DataFrame)
    (r : list (string * Breakdown)) :
  aligned df ->
  get_brand_perceptions df = Some r ->
  exists ba nba bc nbc,
    Statistical.assoc "buyers_associations" r = Some ba
    /\ Statistical.assoc "non_buyers_associations" r = Some nba
    /\ Statistical.assoc "buyer_comparison" r = Some bc
    /\ Statistical.assoc "non_buyer_comparison" r = Some nbc
    /\ total (counts ba) + total (counts nba) <= Z.of_nat (len df)
    /\ total (counts bc) + total (counts nbc) <= Z.of_nat (len df).
Proof.
  intros Hal. unfold get_brand_perceptions.
  destruct (subgroup isho_bought_col "Yes" isho_words_col df)
    as [ba |] eqn:E1; [| discriminate]. cbn [bind].
  destruct (subgroup isho_bought_col "No" isho_words_col df)
    as [nba |] eqn:E2; [| discriminate]. cbn [bind].
  destruct (subgroup isho_bought_col "Yes" isho_factors_col df)
    as [fc |]; [| discriminate]. cbn [bind].
  destruct (get_dummies_sum fc) as [factors |]; [| discriminate].
  cbn [bind].
  destruct (subgroup isho_bought_col "Yes" isho_compared_col df)
    as [cmp |] eqn:E5; [| discriminate]. cbn [bind].
  destruct (subgroup isho_bought_col "No" isho_compared_col df)
    as [ncmp |] eqn:E6; [| discriminate]. cbn [bind].
  destruct (get_col isho_recommend_col df) as [rc |]; [| discriminate].
  cbn [bind]. intros [= <-].
  do 4 eexists. repeat (split; [reflexivity |]). cbn [counts]. split.
  - now apply subgroups_total with isho_words_col.
  - now apply subgroups_total with isho_compared_col.
Qed.

Lemma buyers_and_non_buyers_apart_witness :
  exists ba nba bc nbc,
    Statistical.assoc "buyers_associations"
      (default [] (get_brand_perceptions brand_example)) = Some ba
    /\ Statistical.assoc "non_buyers_associations"
         (default [] (get_brand_perceptions brand_example)) = Some nba
    /\ Statistical.assoc "buyer_comparison"
         (default [] (get_brand_perceptions brand_example)) = Some bc
    /\ Statistical.assoc "non_buyer_comparison"
         (default [] (get_brand_perceptions brand_example)) = Some nbc
    /\ total (counts ba) + total (counts nba) <= Z.of_nat (len brand_example)
    /\ total (counts bc) + total (counts nbc) <= Z.of_nat (len brand_example).
Proof.
  apply (buyers_and_non_buyers_apart brand_example).
  - exact brand_example_aligned.
  - vm_compute. reflexivity.
Defined.

(** *** Percentages keep the order of the counts *)

Lemma round_half_even_mono (a a' b : Z) :
  0 < b -> a <= a' -> round_half_even a b <= round_half_even a' b.
Proof.
  intros Hb Hle.
  destruct (Z.eq_dec a a') as [-> | Hne]; [lia |].
  pose proof (round_half_even_near a b Hb) as H.
  pose proof (round_half_even_near a' b Hb) as H'.
  nia.
Qed.

Lemma pct_series_sorted (n : nat) (s : Series) :
  (0 < n)%nat -> descending s -> descending (pct_series n s).
Proof.
  intros Hn. unfold descending, pct_series.
  induction 1 as [| h s Hs IH Hh]; simpl; [constructor |].
  constructor; [exact IH |].
  destruct Hh as [| h' s' Hh]; simpl; constructor. simpl.
  unfold pct. apply round_half_even_mono; lia.
Qed.

Lemma dummies_breakdown_sorted (df : DataFrame) (c : Column) (s : Series) :
  aligned_len c df ->
  get_dummies_sum c = Some s ->
  descending (sort_values_desc s)
  /\ descending (pct_series (len df) (sort_values_desc s)).
Proof.
  intros Hlen Hs. split; [apply sort_values_desc_sorted |].
  destruct (Nat.eq_dec (len df) 0) as [E | Hn].
  - rewrite (get_dummies_sum_empty c s Hs); [constructor |].
    unfold aligned_len in Hlen. lia.
  - apply pct_series_sorted; [lia | apply sort_values_desc_sorted].
Qed.

(** X11: on a table with one cell per row in each column, the three
    multi-select breakdowns of [PreferenceAnalyzer] list their counts in
    descending order, and their percentages in descending order too:
    rounding never swaps two entries. *)
Theorem preference_breakdowns_descending (df : DataFrame) :
  aligned df ->
  forall b,
    analyze_furniture_types df = Some b
    \/ analyze_purchase_factors df = Some b
    \/ analyze_room_priorities df = Some b ->
    descending (counts b) /\ descending (percentages b).
Proof.
  intros Hal b [H | [H | H]]; revert H;
    unfold analyze_furniture_types, analyze_purchase_factors,
      analyze_room_priorities.
  - destruct (get_col furniture_type_col df) as [c |] eqn:Ec; [| discriminate].
    cbn [bind]. destruct (get_dummies_sum c) as [s |] eqn:Es; [| discriminate].
    cbn [bind]. intros [= <-]. cbn [counts percentages].
    apply dummies_breakdown_sorted with c; [| exact Es].
    unfold aligned_len. now rewrite (Hal _ _ Ec).
  - destruct (get_col purchase_factors_col df) as [c |] eqn:Ec;
      [| discriminate].
    cbn [bind]. destruct (get_dummies_sum c) as [s |] eqn:Es; [| discriminate].
    cbn [bind]. intros [= <-]. cbn [counts percentages].
    apply dummies_breakdown_sorted with c; [| exact Es].
    unfold aligned_len. now rewrite (Hal _ _ Ec).
  - destruct (get_col room_priority_col df) as [c |] eqn:Ec; [| discriminate].
    cbn [bind]. destruct (get_dummies_sum c) as [s |] eqn:Es; [| discriminate].
    cbn [bind]. intros [= <-]. cbn [counts percentages].
    apply dummies_breakdown_sorted with c; [| exact Es].
    unfold aligned_len. now rewrite (Hal _ _ Ec).
Qed.

Lemma preference_breakdowns_descending_witness :
  descending (counts (default (mkBreakdown [] [])
                        (analyze_furniture_types brand_example)))
  /\ descending (percentages (default (mkBreakdown [] [])
                                (analyze_furniture_types brand_example))).
Proof.
  apply (preference_breakdowns_descending brand_example brand_example_aligned).
  left. vm_compute. reflexivity.
Defined.

(** *** The order of strings *)

Lemma ascii_compare_refl (a : ascii) : Ascii.compare a a = Eq.
Proof. unfold Ascii.compare. apply N.compare_refl. Qed.

Lemma string_compare_trans (s1 : string) :
  forall s2 s3 : string,
    String.compare s1 s2 = Lt -> String.compare s2 s3 = Lt ->
    String.compare s1 s3 = Lt.
Proof.
  induction s1 as [| a s1 IH]; intros [| b s2] [| c s3]; simpl;
    try discriminate; try reflexivity.
  destruct (Ascii.compare a b) eqn:E1; try discriminate;
    destruct (Ascii.compare b c) eqn:E2; try discriminate.
  - apply Ascii.compare_eq_iff in E1, E2. subst.
    rewrite ascii_compare_refl. apply IH.
  - apply Ascii.compare_eq_iff in E1. subst. now rewrite E2.
  - apply Ascii.compare_eq_iff in E2. subst. now rewrite E1.
  - intros _ _. unfold Ascii.compare in *.
    rewrite N.compare_lt_iff in E1, E2.
    assert (E : (N_of_ascii a ?= N_of_ascii c)%N = Lt)
      by (apply N.compare_lt_iff; lia).
    now rewrite E.
Qed.

Lemma ltb_trans (x y z : string) :
  String.ltb x y = true -> String.ltb y z = true -> String.ltb x z = true.
Proof.
  unfold String.ltb. intros H1 H2.
  destruct (String.compare x y) eqn:E1; try discriminate.
  destruct (String.compare y z) eqn:E2; try discriminate.
  now rewrite (string_compare_trans _ _ _ E1 E2).
Qed.

Lemma ltb_irrefl (x : string) : String.ltb x x = false.
Proof.
  unfold String.ltb. pose proof (String.compare_antisym x x) as H.
  destruct (String.compare x x); try reflexivity; discriminate.
Qed.

Lemma not_ltb_gt (t h : string) :
  String.eqb t h = false -> String.ltb t h = false -> String.ltb h t = true.
Proof.
  unfold String.ltb. intros Hne Hlt. rewrite (String.compare_antisym h t).
  destruct (String.compare t h) eqn:E; simpl; try reflexivity.
  - apply String.compare_eq_iff in E. subst. now rewrite String.eqb_refl in Hne.
  - discriminate.
Qed.

(** *** The columns of the dummies table *)

Lemma In_insert_tag (t x : string) (l : list string) :
  In t (insert_tag x l) <-> t = x \/ In t l.
Proof.
  induction l as [| h l IH]; simpl; [intuition congruence |].
  destruct (String.eqb x h) eqn:E.
  - apply String.eqb_eq in E. subst. simpl. intuition congruence.
  - destruct (String.ltb x h); simpl; [intuition congruence |].
    rewrite IH. intuition congruence.
Qed.

Lemma In_fold_insert_tag (t : string) (l : list string) :
  In t (fold_right insert_tag [] l) <-> In t l.
Proof.
  induction l as [| x l IH]; simpl; [tauto |].
  rewrite In_insert_tag, IH. intuition congruence.
Qed.

Lemma insert_tag_ascending (x : string) (l : list string) :
  ascending l -> ascending (insert_tag x l).
Proof.
  unfold ascending. induction 1 as [| h l Hl IH Hh]; simpl.
  - repeat constructor.
  - destruct (String.eqb x h) eqn:E; [now constructor |].
    destruct (String.ltb x h) eqn:L.
    + constructor; [now constructor |].
      constructor; [exact L |].
      revert Hh. apply Forall_impl. intros a Ha. now apply ltb_trans with h.
    + constructor; [exact IH |].
      apply Forall_forall. intros a Ha. apply In_insert_tag in Ha as [-> | Ha].
      * now apply not_ltb_gt.
      * rewrite Forall_forall in Hh. now apply Hh.
Qed.

Lemma tags_ascending (cells : list (option string)) : ascending (tags cells).
Proof.
  unfold tags.
  induction (filter (fun t => negb (String.eqb t "")) (flat_map items cells))
    as [| x l IH]; simpl; [constructor |].
  now apply insert_tag_ascending.
Qed.

Lemma ascending_NoDup (l : list string) : ascending l -> NoDup l.
Proof.
  induction 1 as [| h l Hl IH Hh]; constructor; [| exact IH].
  intros Hin. rewrite Forall_forall in Hh. specialize (Hh h Hin).
  now rewrite ltb_irrefl in Hh.
Qed.

Lemma In_tags (t : string) (cells : list (option string)) :
  In t (tags cells)
  <-> t <> "" /\ exists cell, In cell cells /\ In t (items cell).
Proof.
  unfold tags. rewrite In_fold_insert_tag, filter_In, in_flat_map.
  rewrite negb_true_iff, String.eqb_neq. tauto.
Qed.

Lemma dummy_sum_count (t : string) (cells : list (option string)) :
  fold_right Z.add 0 (map (dummy t) cells) = mention_count t cells.
Proof.
  unfold mention_count. induction cells as [| c cells IH]; [reflexivity |].
  cbn [map fold_right filter]. rewrite IH. unfold dummy.
  destruct (existsb (String.eqb t) (items c)); [| lia].
  cbn [List.length]. rewrite Nat2Z.inj_succ. lia.
Qed.

Lemma mention_count_positive (t : string) (cells : list (option string))
    (cell : option string) :
  In cell cells -> In t (items cell) -> 1 <= mention_count t cells.
Proof.
  intros Hc Ht. unfold mention_count.
  assert (Hin : In cell (filter (fun cell => existsb (String.eqb t) (items cell))
                           cells)).
  { apply filter_In. split; [exact Hc |]. apply existsb_exists.
    exists t. split; [exact Ht | apply String.eqb_refl]. }
  destruct (filter _ cells); [destruct Hin | simpl; lia].
Qed.

(** X12: the column sums of [str.get_dummies(sep=',')] over a text
    column.  The labels are the distinct non-empty items of the
    responses, in strictly ascending order, so none is listed twice; the
    value of a label is the number of responses that have it among their
    comma-separated items, at least 1 and at most the number of rows. *)
Theorem get_dummies_sum_correct (cells : list (option string)) (s : Series) :
  get_dummies_sum (ObjCol cells) = Some s ->
  map fst s = map LStr (tags cells)
  /\ ascending (tags cells)
  /\ NoDup (tags cells)
  /\ (forall t, In t (tags cells)
                <-> t <> ""%string
                    /\ exists cell, In cell cells /\ In t (items cell))
  /\ (forall x n, In (x, n) s ->
        exists t, x = LStr t /\ In t (tags cells)
                  /\ n = mention_count t cells
                  /\ 1 <= n <= Z.of_nat (List.length cells)).
Proof.
  simpl. intros [= <-].
  split; [now rewrite map_map |].
  split; [apply tags_ascending |].
  split; [apply ascending_NoDup, tags_ascending |].
  split; [intros t; apply In_tags |].
  intros x n Hin. apply in_map_iff in Hin as (t & [= <- <-] & Ht).
  exists t. split; [reflexivity |]. split; [exact Ht |].
  split; [apply dummy_sum_count |].
  pose proof (dummy_sum_bound t cells) as Hb.
  apply In_tags in Ht as (_ & cell & Hc & Hi).
  pose proof (mention_count_positive t cells cell Hc Hi) as Hp.
  rewrite dummy_sum_count in *. lia.
Qed.

Lemma get_dummies_sum_correct_witness :
  map fst [(LStr "Modern", 1); (LStr "Traditional", 1)]
  = map LStr (tags [Some "Modern,Traditional"%string]).
Proof.
  apply (get_dummies_sum_correct [Some "Modern,Traditional"%string]
           [(LStr "Modern", 1); (LStr "Traditional", 1)]).
  reflexivity.
Defined.

End AnalysisMore.

Module AdvancedMore.
Import Pandas PandasFacts Analysis Statistical Advanced AdvancedFacts
       AdvancedNotions.

Local Open Scope Q_scope.

(** *** Sorting *)

Lemma In_insert_sorted (x y : Q) (l : list Q) :
  In y (insert_sorted x l) <-> y = x \/ In y l.
Proof.
  induction l as [| h l IH]; simpl; [intuition congruence |].
  destruct (Qle_bool x h); simpl; [intuition congruence |].
  rewrite IH. intuition congruence.
Qed.

Lemma In_sort (y : Q) (l : list Q) : In y (sort l) <-> In y l.
Proof.
  induction l as [| x l IH]; simpl; [tauto |].
  rewrite In_insert_sorted, IH. intuition congruence.
Qed.

Lemma length_insert_sorted (x : Q) (l : list Q) :
  List.length (insert_sorted x l) = S (List.length l).
Proof.
  induction l as [| h l IH]; simpl; [reflexivity |].
  destruct (Qle_bool x h); simpl; [reflexivity | now rewrite IH].
Qed.

Lemma length_sort (l : list Q) : List.length (sort l) = List.length l.
Proof.
  induction l as [| x l IH]; simpl; [reflexivity |].
  now rewrite length_insert_sorted, IH.
Qed.

Lemma insert_sorted_sorted (x : Q) (l : list Q) :
  StronglySorted Qle l -> StronglySorted Qle (insert_sorted x l).
Proof.
  induction 1 as [| h l Hl IH Hh]; simpl.
  - repeat constructor.
  - destruct (Qle_bool x h) eqn:E.
    + apply Qle_bool_iff in E. constructor; [now constructor |].
      constructor; [exact E |].
      revert Hh. apply Forall_impl. intros a Ha. now apply Qle_trans with h.
    + assert (Hhx : h <= x).
      { apply Qlt_le_weak, Qnot_le_lt. intros Hle.
        apply Qle_bool_iff in Hle. congruence. }
      constructor; [exact IH |].
      apply Forall_forall. intros a Ha.
      apply In_insert_sorted in Ha as [-> | Ha]; [exact Hhx |].
      rewrite Forall_forall in Hh. now apply Hh.
Qed.

Lemma sort_sorted (l : list Q) : StronglySorted Qle (sort l).
Proof.
  induction l as [| x l IH]; simpl; [constructor |].
  now apply insert_sorted_sorted.
Qed.

Lemma within_sort (a b : Q) (l : list Q) : within a b l -> within a b (sort l).
Proof.
  unfold within. rewrite !Forall_forall. intros H x Hx.
  apply H. now apply In_sort.
Qed.

Lemma sorted_nth (s : list Q) :
  StronglySorted Qle s ->
  forall i j : nat, (i <= j)%nat -> (j < List.length s)%nat ->
                    nth i s 0 <= nth j s 0.
Proof.
  induction 1 as [| h s Hs IH Hh]; intros i j Hij Hj; [simpl in Hj; lia |].
  destruct j as [| j].
  - assert (i = 0%nat) by lia. subst. apply Qle_refl.
  - destruct i as [| i].
    + simpl. rewrite Forall_forall in Hh. apply Hh. apply nth_In.
      simpl in Hj. lia.
    + simpl. apply IH; simpl in Hj; lia.
Qed.

(** *** The interpolation *)

Lemma fraction_bounds (p : Q) :
  0 <= p - inject_Z (Qfloor p) /\ p - inject_Z (Qfloor p) <= 1.
Proof.
  pose proof (Qfloor_le p) as H1. pose proof (Qlt_floor p) as H2.
  rewrite inject_Z_plus in H2. change (inject_Z 1) with 1 in H2.
  split; lra.
Qed.

Lemma floor_nonneg (p : Q) : 0 <= p -> (0 <= Qfloor p)%Z.
Proof.
  intros H. change 0%Z with (Qfloor 0). now apply Qfloor_resp_le.
Qed.

Lemma convex (lo hi f a b : Q) :
  a <= lo <= b -> a <= hi <= b -> 0 <= f <= 1 ->
  a <= lo + (hi - lo) * f <= b.
Proof.
  intros [Hl1 Hl2] [Hh1 Hh2] [Hf1 Hf2]. split; nra.
Qed.

Lemma within_nth (a b : Q) (s : list Q) (i : nat) :
  within a b s -> (i < List.length s)%nat -> a <= nth i s 0 <= b.
Proof.
  unfold within. rewrite Forall_forall. intros H Hi.
  apply H. now apply nth_In.
Qed.

Lemma point_within (a b : Q) (s : list Q) (last : nat) (p : Q) :
  within a b s -> List.length s = S last ->
  a <= point s last p <= b.
Proof.
  intros Hs Hl. unfold point. apply convex.
  - apply within_nth; [assumption | lia].
  - apply within_nth; [assumption | lia].
  - apply fraction_bounds.
Qed.

Lemma point_mono (s : list Q) (last : nat) (p p' : Q) :
  StronglySorted Qle s -> List.length s = S last ->
  0 <= p -> p <= p' ->
  point s last p <= point s last p'.
Proof.
  intros Hs Hl Hp Hpp. unfold point.
  pose proof (fraction_bounds p) as [F1 F2].
  pose proof (fraction_bounds p') as [F1' F2'].
  pose proof (floor_nonneg p Hp) as Hk.
  pose proof (Qfloor_resp_le p p' Hpp) as Hkk.
  set (k := Qfloor p) in *. set (k' := Qfloor p') in *.
  set (f := p - inject_Z k) in *. set (f' := p' - inject_Z k') in *.
  assert (Hlo : nth (Nat.min (Z.to_nat k) last) s 0
                <= nth (Nat.min (S (Z.to_nat k)) last) s 0)
    by (apply sorted_nth; [assumption | lia | lia]).
  assert (Hlo' : nth (Nat.min (Z.to_nat k') last) s 0
                 <= nth (Nat.min (S (Z.to_nat k')) last) s 0)
    by (apply sorted_nth; [assumption | lia | lia]).
  destruct (Z.eq_dec k k') as [E | Hne].
  - rewrite <- E in *.
    assert (Hf : f <= f').
    { unfold f, f'. rewrite <- E. lra. }
    set (lo := nth (Nat.min (Z.to_nat k) last) s 0) in *.
    set (hi := nth (Nat.min (S (Z.to_nat k)) last) s 0) in *.
    nra.
  - assert (Hmid : nth (Nat.min (S (Z.to_nat k)) last) s 0
                   <= nth (Nat.min (Z.to_nat k') last) s 0)
      by (apply sorted_nth; [assumption | lia | lia]).
    set (lo := nth (Nat.min (Z.to_nat k) last) s 0) in *.
    set (hi := nth (Nat.min (S (Z.to_nat k)) last) s 0) in *.
    set (lo' := nth (Nat.min (Z.to_nat k') last) s 0) in *.
    set (hi' := nth (Nat.min (S (Z.to_nat k')) last) s 0) in *.
    apply Qle_trans with hi; [nra |].
    apply Qle_trans with lo'; [exact Hmid | nra].
Qed.

(** *** [percentile] of values that are all numbers *)

Lemma present_map_Some {A : Type} (l : list A) : present (map Some l) = l.
Proof. induction l as [| x l IH]; simpl; [reflexivity | now rewrite IH]. Qed.

Lemma no_nan_map_Some (l : list Q) : existsb is_none (map Some l) = false.
Proof. induction l as [| x l IH]; simpl; [reflexivity | exact IH]. Qed.

Lemma percentile_point (v : Q) (vs : list Q) (q : Q) :
  percentile (map Some (v :: vs)) q
  = Some (point (sort (v :: vs)) (List.length vs)
                (position (List.length vs) q)).
Proof.
  unfold percentile. rewrite no_nan_map_Some, present_map_Some. reflexivity.
Qed.

Lemma position_nonneg (last : nat) (q : Q) : 0 <= q -> 0 <= position last q.
Proof.
  intros Hq. unfold position.
  assert (Hn : 0 <= inject_Z (Z.of_nat last)).
  { change 0 with (inject_Z 0). rewrite <- Zle_Qle. lia. }
  apply Qle_shift_div_l; [reflexivity |]. nra.
Qed.

Lemma position_mono (last : nat) (q q' : Q) :
  q <= q' -> position last q <= position last q'.
Proof.
  intros Hq. unfold position.
  assert (Hn : 0 <= inject_Z (Z.of_nat last)).
  { change 0 with (inject_Z 0). rewrite <- Zle_Qle. lia. }
  apply Qmult_le_compat_r; [nra |].
  apply Qlt_le_weak, Qinv_lt_0_compat. reflexivity.
Qed.

(** The percentiles of a non-empty list of numbers are numbers, lie
    between the bounds of the list and do not decrease with [q]. *)
Lemma percentile_facts (a b : Q) (l : list Q) (q q' : Q) :
  l <> [] -> within a b l -> 0 <= q -> q <= q' ->
  exists x x',
    percentile (map Some l) q = Some x
    /\ percentile (map Some l) q' = Some x'
    /\ a <= x /\ x <= x' /\ x' <= b.
Proof.
  intros Hne Hw Hq Hqq. destruct l as [| v vs]; [congruence |].
  rewrite !percentile_point. do 2 eexists.
  split; [reflexivity |]. split; [reflexivity |].
  assert (Hl : List.length (sort (v :: vs)) = S (List.length vs))
    by now rewrite length_sort.
  pose proof (within_sort a b _ Hw) as Hws.
  split; [apply (point_within a b); assumption |].
  split; [| apply (point_within a b); assumption].
  apply point_mono;
    [apply sort_sorted | exact Hl | now apply position_nonneg
    | now apply position_mono].
Qed.

(** *** Outliers *)

Lemma traverse_In {A B : Type} (f : A -> option B) (l : list A) :
  forall (r : list B) (y : B),
    Cleaner.traverse f l = Some r -> In y r ->
    exists x, In x l /\ f x = Some y.
Proof.
  induction l as [| x l IH]; intros r y; simpl.
  - intros [= <-] [].
  - destruct (f x) as [y0 |] eqn:E; [| discriminate]. cbn [bind].
    destruct (Cleaner.traverse f l) as [ys |]; [| discriminate]. cbn [bind].
    intros [= <-] [<- | Hin]; [exists x; auto |].
    destruct (IH ys y eq_refl Hin) as (x' & Hx' & Hf). exists x'. auto.
Qed.

Lemma lt_nan_spec (x y : Q) : lt_nan (Some x) (Some y) = true <-> x < y.
Proof.
  simpl. rewrite negb_true_iff. split.
  - intros H. apply Qnot_le_lt. intros Hle. apply Qle_bool_iff in Hle.
    congruence.
  - intros Hlt. destruct (Qle_bool y x) eqn:E; [| reflexivity].
    apply Qle_bool_iff in E. exfalso. now apply (Qlt_not_le _ _ Hlt).
Qed.

Lemma In_flagged {A B : Type} (p : B -> bool) (cells : list B) :
  forall (index : list A) (i : A) (c : B),
    In (i, c) (mask_filter (map p cells) (combine index cells))
    <-> In (i, c) (combine index cells) /\ p c = true.
Proof.
  induction cells as [| c0 cells IH]; intros index i c.
  - destruct index; simpl; tauto.
  - destruct index as [| i0 index]; [simpl; tauto |].
    cbn [map combine mask_filter]. destruct (p c0) eqn:E; simpl; rewrite IH.
    + split; [intros [[= <- <-] | [H1 H2]]; auto | ].
      intros [[H | H] Hp]; auto.
    + split; [intros [H1 H2]; auto |].
      intros [[[= <- <-] | H] Hp]; [congruence | auto].
Qed.

Lemma quantile_facts (a b : Q) (cells : list (option Q)) (q q' : Q) :
  present cells <> [] -> within a b (present cells) ->
  0 <= q -> q <= q' ->
  exists x x',
    quantile cells q = Some x /\ quantile cells q' = Some x'
    /\ a <= x /\ x <= x' /\ x' <= b.
Proof.
  intros Hne Hw Hq Hqq. unfold quantile.
  apply percentile_facts; [assumption | assumption | nra | nra].
Qed.

Lemma outlier_report_facts (a b : Q) (index : list nat)
    (cells : list (option Q)) :
  present cells <> [] -> within a b (present cells) ->
  exists q1 q3 lower upper,
    quantile cells (25 # 100) = Some q1
    /\ quantile cells (75 # 100) = Some q3
    /\ bounds (outlier_report index cells) = (Some lower, Some upper)
    /\ lower == q1 - (15 # 10) * (q3 - q1)
    /\ upper == q3 + (15 # 10) * (q3 - q1)
    /\ a <= q1 /\ q1 <= q3 /\ q3 <= b
    /\ forall i v,
         In (i, v) (outliers (outlier_report index cells))
         <-> In (i, v) (combine index cells)
             /\ exists x, v = Some x /\ (x < lower \/ upper < x).
Proof.
  intros Hne Hw.
  destruct (quantile_facts a b cells (25 # 100) (75 # 100) Hne Hw)
    as (q1 & q3 & E1 & E3 & H1 & H2 & H3); [lra | lra |].
  exists q1, q3. unfold outlier_report. rewrite E1, E3.
  cbn [lift2 bounds outliers]. do 2 eexists.
  split; [reflexivity |]. split; [reflexivity |]. split; [reflexivity |].
  split; [reflexivity |]. split; [reflexivity |].
  split; [exact H1 |]. split; [exact H2 |]. split; [exact H3 |].
  intros i v. rewrite In_flagged. apply and_iff_compat_l.
  rewrite orb_true_iff. destruct v as [x |].
  - rewrite !lt_nan_spec. split.
    + intros H. exists x. auto.
    + now intros (x' & [= <-] & H).
  - simpl. split; [intros [H | H]; discriminate |].
    intros (x & H & _). discriminate.
Qed.

(** X15: in a report of [detect_outliers] for a numeric column with at
    least one value, the fences are numbers with
    lower <= Q1 <= Q3 <= upper, the quartiles lie within the range of the
    values, and the flagged rows are exactly the rows of the column whose
    value is strictly below the lower or strictly above the upper fence,
    each with its row label. *)
Theorem detect_outliers_fences (self : AdvancedAnalyzer)
    (columns : list string) (reports : list (string * OutlierReport))
    (col : string) (rep : OutlierReport) (cells : list (option Q))
    (a b : Q) :
  detect_outliers self columns = Some reports ->
  In (col, rep) reports ->
  numeric_column (df_clean self) col = Some cells ->
  present cells <> [] ->
  within a b (present cells) ->
  exists q1 q3 lower upper,
    quantile cells (25 # 100) = Some q1
    /\ quantile cells (75 # 100) = Some q3
    /\ bounds rep = (Some lower, Some upper)
    /\ lower <= q1 /\ a <= q1 /\ q1 <= q3 /\ q3 <= b /\ q3 <= upper
    /\ forall i v,
         In (i, v) (outliers rep)
         <-> In (i, v) (combine (index (df_clean self)) cells)
             /\ exists x, v = Some x /\ (x < lower \/ upper < x).
Proof.
  intros Hd Hin Hcol Hne Hw. unfold detect_outliers in Hd.
  destruct (traverse_In _ _ _ _ Hd Hin) as (c & _ & Hc).
  destruct (numeric_column (df_clean self) c) as [cells' |] eqn:E;
    [| discriminate]. cbn [bind] in Hc. injection Hc as <- <-.
  rewrite Hcol in E. injection E as <-.
  destruct (outlier_report_facts a b (index (df_clean self)) cells Hne Hw)
    as (q1 & q3 & lower & upper & E1 & E3 & Eb & El & Eu & H1 & H2 & H3 & Hfl).
  exists q1, q3, lower, upper.
  repeat (split; [first [assumption | lra] |]). exact Hfl.
Qed.

Lemma detect_outliers_fences_witness :
  exists q1 q3 lower upper,
    quantile outlier_scores (25 # 100) = Some q1
    /\ quantile outlier_scores (75 # 100) = Some q3
    /\ bounds (outlier_report [0; 1; 2; 3; 4; 5]%nat outlier_scores)
       = (Some lower, Some upper)
    /\ lower <= q1 /\ 3 <= q1 /\ q1 <= q3 /\ q3 <= 40 /\ q3 <= upper
    /\ forall i v,
         In (i, v) (outliers (outlier_report [0; 1; 2; 3; 4; 5]%nat
                                outlier_scores))
         <-> In (i, v) (combine [0; 1; 2; 3; 4; 5]%nat outlier_scores)
             /\ exists x, v = Some x /\ (x < lower \/ upper < x).
Proof.
  apply (detect_outliers_fences
           (mkAdvancedAnalyzer (features_table outlier_scores)
                               (features_table outlier_scores))
           ["recommendation_score"%string]
           [("recommendation_score"%string,
             outlier_report [0; 1; 2; 3; 4; 5]%nat outlier_scores)]
           "recommendation_score"%string).
  - reflexivity.
  - now left.
  - reflexivity.
  - discriminate.
  - repeat constructor; simpl; lra.
Defined.

(** X16: [detect_outliers] flags no row of a column that holds one value
    throughout. *)
Theorem detect_outliers_constant (self : AdvancedAnalyzer)
    (columns : list string) (reports : list (string * OutlierReport))
    (col : string) (rep : OutlierReport) (v : Q) (n : nat) :
  detect_outliers self columns = Some reports ->
  In (col, rep) reports ->
  numeric_column (df_clean self) col = Some (repeat (Some v) n) ->
  (1 <= n)%nat ->
  outliers rep = [].
Proof.
  intros Hd Hin Hcol Hn. unfold detect_outliers in Hd.
  destruct (traverse_In _ _ _ _ Hd Hin) as (c & _ & Hc).
  destruct (numeric_column (df_clean self) c) as [cells' |] eqn:E;
    [| discriminate]. cbn [bind] in Hc. injection Hc as <- <-.
  rewrite Hcol in E. injection E as <-.
  assert (Hne : present (repeat (Some v) n) <> [])
    by (rewrite present_repeat; destruct n; [lia | discriminate]).
  assert (Hw : within v v (present (repeat (Some v) n))).
  { rewrite present_repeat. unfold within. apply Forall_forall.
    intros x Hx. apply repeat_spec in Hx. subst. split; apply Qle_refl. }
  destruct (outlier_report_facts v v (index (df_clean self)) _ Hne Hw)
    as (q1 & q3 & lower & upper & _ & _ & _ & El & Eu & H1 & H2 & H3 & Hfl).
  destruct (outliers (outlier_report (index (df_clean self))
                        (repeat (Some v) n))) as [| [i cell] rest];
    [reflexivity | exfalso].
  destruct (proj1 (Hfl i cell) (or_introl eq_refl)) as (Hcomb & x & -> & Hx).
  apply in_combine_r in Hcomb. apply repeat_spec in Hcomb.
  injection Hcomb as ->. lra.
Qed.

Lemma detect_outliers_constant_witness :
  outliers (outlier_report (index (df_clean constant_analyzer))
              (repeat (Some 4) 3)) = [].
Proof.
  apply (detect_outliers_constant constant_analyzer
           ["recommendation_score"%string]
           [("recommendation_score"%string,
             outlier_report (index (df_clean constant_analyzer))
                            (repeat (Some 4) 3))]
           "recommendation_score"%string _ 4 3).
  - reflexivity.
  - now left.
  - reflexivity.
  - lia.
Defined.

(** *** Imputation *)

Lemma update_same (n : string) (c : Column) cols :
  lookup n cols = Some c -> update n c cols = cols.
Proof.
  induction cols as [| [m c0] cols IH]; simpl; [discriminate |].
  destruct (String.eqb m n) eqn:E.
  - now intros [= ->].
  - intros H. now rewrite IH.
Qed.

Lemma set_col_same (n : string) (c : Column) (table : DataFrame) :
  get_col n table = Some c -> set_col n c table = table.
Proof.
  unfold get_col, set_col. intros H. rewrite update_same by exact H.
  now destruct table.
Qed.

Lemma map_fst_update (n : string) (c : Column) cols :
  lookup n cols <> None -> map fst (update n c cols) = map fst cols.
Proof.
  induction cols as [| [m c0] cols IH]; simpl; [congruence |].
  destruct (String.eqb m n) eqn:E; simpl; [reflexivity |].
  intros H. now rewrite IH.
Qed.

Lemma numeric_column_get (table : DataFrame) (name : string)
    (l : list (option Q)) :
  numeric_column table name = Some l <-> get_col name table = Some (NumCol l).
Proof.
  unfold numeric_column.
  destruct (get_col name table) as [[x | x | x] |]; cbn [bind];
    split; congruence.
Qed.

(** The four columns are imputed one after the other; each is read as the
    given table has it. *)
Lemma impute_columns_spec (names : list string) :
  forall (table out : DataFrame),
    NoDup names ->
    impute_columns names table = Some out ->
    index out = index table
    /\ map fst (columns out) = map fst (columns table)
    /\ (forall name, ~ In name names ->
          get_col name out = get_col name table)
    /\ (forall name, In name names ->
          exists l m,
            numeric_column table name = Some l
            /\ mean (present l) = Some m
            /\ numeric_column out name
               = Some (map (fun cell => Some (default m cell)) l)).
Proof.
  induction names as [| n names IH]; intros table out Hnd; simpl.
  - intros [= <-]. repeat split; tauto.
  - destruct (numeric_column table n) as [l |] eqn:El; [| discriminate].
    cbn [bind]. unfold impute_mean at 1.
    destruct (mean (present l)) as [m |] eqn:Em; [| discriminate].
    cbn [bind]. intros H. inversion Hnd as [| ? ? Hn Hnd']; subst.
    destruct (IH _ _ Hnd' H) as (Hi & Hc & Ho & Hs).
    split; [exact Hi |]. split; [| split].
    + rewrite Hc. cbn [set_col columns]. apply map_fst_update.
      apply numeric_column_get in El. unfold get_col in El. congruence.
    + intros name Hname.
      rewrite Ho by (intros Hx; apply Hname; now right).
      apply get_set_other. apply String.eqb_neq. intros ->.
      apply Hname. now left.
    + intros name [<- | Hin].
      * exists l, m. split; [exact El |]. split; [exact Em |].
        unfold numeric_column. rewrite (Ho n Hn), get_set_same. reflexivity.
      * destruct (Hs name Hin) as (l' & m' & H1 & H2 & H3).
        exists l', m'. split; [| auto].
        rewrite <- H1. symmetry. apply numeric_column_set_other.
        apply String.eqb_neq. intros ->. contradiction.
Qed.

Lemma num_cols_NoDup : NoDup num_cols.
Proof.
  unfold num_cols.
  repeat (constructor; [simpl; intuition discriminate |]). constructor.
Qed.

Lemma no_nan_filled (m : Q) (l : list (option Q)) :
  existsb is_none (map (fun cell => Some (default m cell)) l) = false.
Proof. induction l as [| c l IH]; [reflexivity | exact IH]. Qed.

(** X17: [AdvancedAnalyzer.__init__] keeps the given table as [df] and
    builds [df_clean] from it with the same rows and the same columns in
    the same order; a column other than the four numeric features is
    untouched; in each of the four a present value is kept and every
    missing one is replaced by one and the same number, so that no cell
    is missing afterwards. *)
Theorem init_imputes (table : DataFrame) (self : AdvancedAnalyzer) :
  init table = Some self ->
  df self = table
  /\ index (df_clean self) = index table
  /\ map fst (columns (df_clean self)) = map fst (columns table)
  /\ (forall name, ~ In name num_cols ->
        get_col name (df_clean self) = get_col name table)
  /\ forall name, In name num_cols ->
       exists l m filled,
         numeric_column table name = Some l
         /\ numeric_column (df_clean self) name = Some filled
         /\ filled = map (fun cell => Some (default m cell)) l
         /\ existsb is_none filled = false.
Proof.
  unfold init, handle_missing_data.
  destruct (impute_columns num_cols table) as [clean |] eqn:E;
    [| discriminate]. cbn [bind]. intros [= <-]. cbn [df df_clean].
  destruct (impute_columns_spec _ _ _ num_cols_NoDup E)
    as (Hi & Hc & Ho & Hs).
  repeat (split; [assumption || reflexivity |]).
  intros name Hin. destruct (Hs name Hin) as (l & m & H1 & H2 & H3).
  exists l, m, (map (fun cell => Some (default m cell)) l).
  repeat (split; [assumption || reflexivity |]).
  apply no_nan_filled.
Qed.

Lemma init_imputes_witness :
  numeric_column (df_clean gap_analyzer) "recommendation_score"
  = Some [Some 1; Some 3; Some 5]
  /\ exists l m filled,
       numeric_column gap_scores "recommendation_score" = Some l
       /\ numeric_column (df_clean gap_analyzer) "recommendation_score"
          = Some filled
       /\ filled = map (fun cell => Some (default m cell)) l
       /\ existsb is_none filled = false.
Proof.
  split; [reflexivity |].
  apply (init_imputes gap_scores gap_analyzer).
  - reflexivity.
  - simpl. tauto.
Defined.

End AdvancedMore.

(** ** The printed correlations *)

Module StatisticalMore.
Import Pandas PandasFacts Statistical StatisticalFacts.

Lemma length_row_le (c c' : string -> string -> bool) (i : string)
    (cols : list string) :
  (forall j, c i j = true -> c' i j = true) ->
  (List.length (flat_map (fun j => if c i j then [(i, j)] else []) cols)
   <= List.length (flat_map (fun j => if c' i j then [(i, j)] else []) cols))%nat.
Proof.
  intros H. induction cols as [| j cols IH]; [reflexivity |].
  cbn [flat_map]. rewrite !length_app.
  specialize (H j). destruct (c i j), (c' i j); simpl; try lia.
Qed.

Lemma length_pairs_if_le (c c' : string -> string -> bool)
    (idx cols : list string) :
  (forall i j, c i j = true -> c' i j = true) ->
  (List.length (pairs_if c idx cols) <= List.length (pairs_if c' idx cols))%nat.
Proof.
  intros H. unfold pairs_if. induction idx as [| i idx IH]; [reflexivity |].
  cbn [flat_map]. rewrite !length_app.
  pose proof (length_row_le c c' i cols (H i)). lia.
Qed.

Lemma in_significant_lines (res : Correlations) (i j : string)
    (r p : option Q) :
  In (i, j, r, p) (significant_lines res)
  <-> In i (matrix_index (correlation_matrix res))
      /\ In j (matrix_columns (correlation_matrix res))
      /\ String.ltb i j = true
      /\ below_005 (loc (p_values res) i j) = true
      /\ r = loc (correlation_matrix res) i j
      /\ p = loc (p_values res) i j.
Proof.
  unfold significant_lines. rewrite in_flat_map. split.
  - intros (a & Ha & H). apply in_flat_map in H as (b & Hb & H).
    destruct (String.ltb a b && below_005 (loc (p_values res) a b)) eqn:E;
      [| destruct H].
    destruct H as [[= <- <- <- <-] | []].
    apply andb_prop in E as [E1 E2]. repeat split; assumption.
  - intros (Hi & Hj & Hlt & Hp & -> & ->). exists i. split; [assumption |].
    apply in_flat_map. exists j. split; [assumption |].
    rewrite Hlt, Hp. now left.
Qed.

Section WithScipy.

Variable corr : list (option Q) -> list (option Q) -> option Q.
Variable pearsonr_p : list Q -> list Q -> option Q.

(** The entries of the two tables. *)
Lemma analyze_correlations_entries (df : DataFrame) (res : Correlations) :
  analyze_correlations corr pearsonr_p df = Some res ->
  forall i j x y,
    In i numeric_cols -> In j numeric_cols ->
    numeric_column df i = Some x -> numeric_column df j = Some y ->
    loc (correlation_matrix res) i j = corr x y
    /\ (i = j -> loc (p_values res) i j = Some 1%Q)
    /\ (i <> j ->
        loc (p_values res) i j = pearsonr_p (fillna0 x) (fillna0 y)).
Proof.
  unfold analyze_correlations. cbn [Cleaner.traverse numeric_cols].
  destruct (numeric_column df "age_numeric") as [x1 |] eqn:E1;
    [| discriminate]. cbn [bind].
  destruct (numeric_column df "income_numeric") as [x2 |] eqn:E2;
    [| discriminate]. cbn [bind].
  destruct (numeric_column df "isho_familiarity_score") as [x3 |] eqn:E3;
    [| discriminate]. cbn [bind].
  destruct (numeric_column df "recommendation_score") as [x4 |] eqn:E4;
    [| discriminate]. cbn [bind].
  intros [= <-] i j x y Hi Hj Hx Hy. simpl in Hi, Hj.
  destruct Hi as [<- | [<- | [<- | [<- | []]]]];
    destruct Hj as [<- | [<- | [<- | [<- | []]]]];
    (split; [vm_compute; congruence |]);
    (split; [intros Hij; try discriminate Hij; reflexivity |]);
    intros Hij; try (now elim Hij); vm_compute; congruence.
Qed.

Lemma analyze_correlations_columns (df : DataFrame) (res : Correlations)
    (name : string) :
  analyze_correlations corr pearsonr_p df = Some res ->
  In name numeric_cols ->
  exists x, numeric_column df name = Some x.
Proof.
  unfold analyze_correlations. cbn [Cleaner.traverse numeric_cols].
  destruct (numeric_column df "age_numeric") as [x1 |] eqn:E1;
    [| discriminate]. cbn [bind].
  destruct (numeric_column df "income_numeric") as [x2 |] eqn:E2;
    [| discriminate]. cbn [bind].
  destruct (numeric_column df "isho_familiarity_score") as [x3 |] eqn:E3;
    [| discriminate]. cbn [bind].
  destruct (numeric_column df "recommendation_score") as [x4 |] eqn:E4;
    [| discriminate]. cbn [bind].
  intros _ Hin. simpl in Hin.
  destruct Hin as [<- | [<- | [<- | [<- | []]]]]; eauto.
Qed.

(** X19: under "Significant Correlations" at most six lines are printed,
    never one for a feature with itself; a line for [i], [j] shows the
    coefficient that [corr] gives for the two columns as they are and the
    p-value that [pearsonr] gives for the two columns with missing values
    replaced by 0, a number below 0.05. *)
Theorem significant_lines_content (df : DataFrame) (res : Correlations) :
  analyze_correlations corr pearsonr_p df = Some res ->
  (List.length (significant_lines res) <= 6)%nat
  /\ forall i j r p,
       In (i, j, r, p) (significant_lines res) ->
       i <> j
       /\ exists x y pv,
            numeric_column df i = Some x
            /\ numeric_column df j = Some y
            /\ r = corr x y
            /\ p = Some pv
            /\ pearsonr_p (fillna0 x) (fillna0 y) = Some pv
            /\ (pv < 5 # 100)%Q.
Proof.
  intros H.
  destruct (analyze_correlations_inv corr pearsonr_p df res H)
    as (Hidx & Hcols & _).
  split.
  - replace (List.length (significant_lines res))
      with (List.length (reported res))
      by (unfold reported; apply length_map).
    rewrite reported_pairs, Hidx, Hcols.
    apply Nat.le_trans
      with (List.length (pairs_if String.ltb numeric_cols numeric_cols)).
    + apply length_pairs_if_le. intros i j Hc.
      now apply andb_prop in Hc as [Hlt _].
    + vm_compute. lia.
  - intros i j r p Hin.
    apply in_significant_lines in Hin as (Hi & Hj & Hlt & Hp & -> & ->).
    rewrite Hidx in Hi. rewrite Hcols in Hj.
    assert (Hne : i <> j).
    { intros ->. rewrite (ltb_irrefl_pair j j Hlt) in Hlt. discriminate. }
    split; [exact Hne |].
    destruct (analyze_correlations_columns df res i H Hi) as (x & Hx).
    destruct (analyze_correlations_columns df res j H Hj) as (y & Hy).
    destruct (analyze_correlations_entries df res H i j x y Hi Hj Hx Hy)
      as (Hr & _ & Hpv).
    apply below_005_spec in Hp as (pv & Hp & Hlt5).
    exists x, y, pv. rewrite <- (Hpv Hne).
    repeat split; assumption.
Qed.

End WithScipy.
Lemma significant_lines_content_witness :
  exists res,
    analyze_correlations no_corr same_columns_p features_example = Some res
    /\ (List.length (significant_lines res) <= 6)%nat
    /\ significant_lines res
       = [("isho_familiarity_score", "recommendation_score", None,
           Some (1 # 1000)%Q)]%string.
Proof.
  eexists. split; [reflexivity |]. split; [| reflexivity].
  apply (significant_lines_content no_corr same_columns_p features_example).
  reflexivity.
Defined.

End StatisticalMore.

(** ** Shopping preferences *)

Module PreferenceMore.
Import Pandas PandasFacts PyStr Analysis AnalysisFacts AnalysisNotions
       AnalysisMore.
Local Open Scope Z_scope.

Lemma value_counts_breakdown (df : DataFrame) (c : Column) :
  aligned_len c df ->
  descending (value_counts c)
  /\ descending (pct_series (len df) (value_counts c))
  /\ within_100 (pct_series (len df) (value_counts c)).
Proof.
  unfold aligned_len. intros Hlen.
  split; [apply sort_values_desc_sorted |]. split.
  - destruct (Nat.eq_dec (len df) 0) as [E | Hn].
    + rewrite E in Hlen.
      assert (Hv : value_counts c = []).
      { destruct c as [[| x l] | [| x l] | [| x l]];
          try discriminate Hlen; reflexivity. }
      rewrite Hv. constructor.
    + apply pct_series_sorted; [lia | apply sort_values_desc_sorted].
  - apply column_bounds. lia.
Qed.

Lemma dummies_breakdown (df : DataFrame) (c : Column) (s : Series) :
  aligned_len c df ->
  get_dummies_sum c = Some s ->
  descending (sort_values_desc s)
  /\ descending (pct_series (len df) (sort_values_desc s))
  /\ within_100 (pct_series (len df) (sort_values_desc s)).
Proof.
  intros Hlen Hs.
  destruct (dummies_breakdown_sorted df c s Hlen Hs) as [H1 H2].
  repeat split; try assumption.
  apply within_100_sorted. apply (dummies_within _ c); [exact Hs |].
  unfold aligned_len in Hlen. lia.
Qed.

(** X20: on a table with one cell per row in each column,
    [analyze_shopping_preferences] returns its five breakdowns in the
    order make_preference, channel_preference, info_sources,
    timing_preference, purchase_reasons; in each the counts are in
    descending order, so are the percentages, and every percentage lies
    between 0 and 100. *)
Theorem shopping_breakdowns (df : DataFrame)
    (r : list (string * Breakdown)) :
  aligned df ->
  analyze_shopping_preferences df = Some r ->
  map fst r
  = [ "make_preference"; "channel_preference"; "info_sources";
      "timing_preference"; "purchase_reasons" ]%string
  /\ forall key b,
       In (key, b) r ->
       descending (counts b)
       /\ descending (percentages b)
       /\ within_100 (percentages b).
Proof.
  intros Hal. unfold analyze_shopping_preferences.
  destruct (get_col make_preference_col df) as [mk |] eqn:E1;
    [| discriminate]. cbn [bind].
  destruct (get_col channel_col df) as [ch |] eqn:E2; [| discriminate].
  cbn [bind].
  destruct (get_col info_sources_col df) as [src |] eqn:E3; [| discriminate].
  cbn [bind].
  destruct (get_dummies_sum src) as [d1 |] eqn:D1; [| discriminate].
  cbn [bind].
  destruct (get_col timing_col df) as [tm |] eqn:E4; [| discriminate].
  cbn [bind].
  destruct (get_col purchase_reasons_col df) as [why |] eqn:E5;
    [| discriminate]. cbn [bind].
  destruct (get_dummies_sum why) as [d2 |] eqn:D2; [| discriminate].
  cbn [bind]. intros [= <-]. split; [reflexivity |].
  intros key b [H | [H | [H | [H | [H | []]]]]];
    injection H as _ <-; cbn [counts percentages].
  - apply value_counts_breakdown. exact (Hal _ _ E1).
  - apply value_counts_breakdown. exact (Hal _ _ E2).
  - apply dummies_breakdown with src; [exact (Hal _ _ E3) | exact D1].
  - apply value_counts_breakdown. exact (Hal _ _ E4).
  - apply dummies_breakdown with why; [exact (Hal _ _ E5) | exact D2].
Qed.

Lemma shopping_breakdowns_witness :
  exists r,
    analyze_shopping_preferences shopping_example = Some r
    /\ map fst r
       = [ "make_preference"; "channel_preference"; "info_sources";
           "timing_preference"; "purchase_reasons" ]%string
    /\ forall key b,
         In (key, b) r ->
         descending (counts b)
         /\ descending (percentages b)
         /\ within_100 (percentages b).
Proof.
  eexists. split; [reflexivity |].
  apply (shopping_breakdowns shopping_example).
  - apply aligned_check. reflexivity.
  - reflexivity.
Defined.

End PreferenceMore.

(** ** From the cleaner to the advanced analyzer *)

Module CleanedThenAdvanced.
Import Pandas PandasFacts Cleaner PipelineFacts CleanerNotions CleanerMore.

Lemma no_nan_kept (mask : list bool) (l : list (option Q)) :
  existsb is_none (mask_filter mask (map filled_score l)) = false.
Proof.
  revert l. induction mask as [| b mask IH]; intros [| x l]; try reflexivity.
  cbn [map mask_filter]. destruct b; [cbn [existsb filled_score is_none] |];
    apply IH.
Qed.

(** The four numeric features of the cleaned table: the kept rows of a
    column that has been filled with 0. *)
Lemma cleaned_numeric_columns (td : Column -> option Column)
    (sf : string -> option Q) (raw cleaned : DataFrame) (name : string) :
  run_data_cleaning td sf raw = Some cleaned ->
  In name Advanced.num_cols ->
  exists mask l,
    get_col name cleaned
    = Some (NumCol (mask_filter mask (map filled_score l))).
Proof.
  intros Hrun Hin.
  destruct (run_data_cleaning_inv _ _ _ _ Hrun) as (pre & bought & E & _ & _ & ->).
  destruct (cleaned_unfiltered_steps _ _ _ _ E)
    as (ts & ts' & df2 & df3 & _ & _ & _ & E3 & ->).
  destruct (create_numeric_features_steps _ _ _ E3)
    as (age & income & fam & rec & _ & _ & _ & _ & ->).
  exists (kept_rows bought).
  unfold _handle_missing_values, _clean_text_columns.
  rewrite get_reset_index, get_select_rows, !get_map_cols.
  simpl in Hin. destruct Hin as [<- | [<- | [<- | [<- | []]]]].
  - exists (mapped_cells age_map age).
    rewrite !get_set_other, get_set_same by reflexivity.
    now rewrite series_map_cells.
  - exists (mapped_cells income_map income).
    rewrite !get_set_other, get_set_same by reflexivity.
    now rewrite series_map_cells.
  - exists (numeric_cells sf fam).
    rewrite !get_set_other, get_set_same by reflexivity.
    now rewrite to_numeric_cells.
  - exists (numeric_cells sf rec).
    rewrite get_set_same. now rewrite to_numeric_cells.
Qed.

(** Imputation leaves alone a table whose columns have no gap. *)
Lemma impute_columns_idle (names : list string) (table : DataFrame) :
  (forall name, In name names ->
     exists l, Statistical.numeric_column table name = Some l
               /\ existsb is_none l = false /\ l <> []) ->
  Advanced.impute_columns names table = Some table.
Proof.
  induction names as [| n names IH]; intros H; [reflexivity |].
  destruct (H n (or_introl eq_refl)) as (l & Hl & Hnan & Hne).
  cbn [Advanced.impute_columns]. rewrite Hl. cbn [bind].
  rewrite (AdvancedFacts.impute_mean_present l Hnan Hne). cbn [bind].
  rewrite AdvancedMore.set_col_same by (now apply AdvancedMore.numeric_column_get).
  apply IH. intros name Hin. apply H. now right.
Qed.

Lemma impute_columns_empty (names : list string) :
  forall (table : DataFrame) (name : string),
    In name names -> Statistical.numeric_column table name = Some [] ->
    Advanced.impute_columns names table = None.
Proof.
  induction names as [| n names IH]; intros table name Hin Hl; [destruct Hin |].
  cbn [Advanced.impute_columns].
  destruct (String.eqb name n) eqn:En.
  - apply String.eqb_eq in En. subst n. rewrite Hl. reflexivity.
  - destruct Hin as [-> | Hin]; [now rewrite String.eqb_refl in En |].
    destruct (Statistical.numeric_column table n) as [l |]; [| reflexivity].
    cbn [bind]. destruct (Advanced.impute_mean l) as [filled |];
      [| reflexivity]. cbn [bind].
    apply (IH _ name Hin).
    now rewrite AdvancedFacts.numeric_column_set_other.
Qed.

(** X21: in the table that [run_data_cleaning] returns, none of the four
    numeric features has a missing cell.  So [AdvancedAnalyzer.__init__]
    on it imputes nothing: with at least one row, [df_clean] is the
    cleaned table itself; with no row kept, the imputer has nothing to
    fit and the constructor fails. *)
Theorem init_of_cleaned_table (td : Column -> option Column)
    (sf : string -> option Q) (raw cleaned : DataFrame) :
  run_data_cleaning td sf raw = Some cleaned ->
  (forall name, In name Advanced.num_cols ->
     exists l, Statistical.numeric_column cleaned name = Some l
               /\ existsb is_none l = false)
  /\ ((forall name l, In name Advanced.num_cols ->
         Statistical.numeric_column cleaned name = Some l -> l <> []) ->
      Advanced.init cleaned
      = Some (Advanced.mkAdvancedAnalyzer cleaned cleaned))
  /\ ((exists name, In name Advanced.num_cols
                    /\ Statistical.numeric_column cleaned name = Some []) ->
      Advanced.init cleaned = None).
Proof.
  intros Hrun.
  assert (Hcols : forall name, In name Advanced.num_cols ->
            exists l, Statistical.numeric_column cleaned name = Some l
                      /\ existsb is_none l = false).
  { intros name Hin.
    destruct (cleaned_numeric_columns _ _ _ _ name Hrun Hin)
      as (mask & l & Hl).
    exists (mask_filter mask (map filled_score l)).
    split; [now apply AdvancedMore.numeric_column_get | apply no_nan_kept]. }
  split; [exact Hcols |]. split.
  - intros Hne. unfold Advanced.init, Advanced.handle_missing_data.
    rewrite impute_columns_idle; [reflexivity |].
    intros name Hin. destruct (Hcols name Hin) as (l & Hl & Hnan).
    exists l. repeat split; try assumption. now apply (Hne name).
  - intros (name & Hin & Hl).
    unfold Advanced.init, Advanced.handle_missing_data.
    now rewrite (impute_columns_empty _ _ name Hin Hl).
Qed.

Lemma init_of_cleaned_table_witness :
  Advanced.init survey_example_cleaned
  = Some (Advanced.mkAdvancedAnalyzer survey_example_cleaned
                                      survey_example_cleaned).
Proof.
  apply (init_of_cleaned_table epoch_nanoseconds decimal_literal survey_example
           survey_example_cleaned).
  - vm_compute. reflexivity.
  - intros name l Hin Hl. simpl in Hin.
    destruct Hin as [<- | [<- | [<- | [<- | []]]]];
      vm_compute in Hl; injection Hl as <-; discriminate.
Defined.

End CleanedThenAdvanced.
